(** * Authentication and session-token core of snappie-api-express

    A shallow embedding of
      - [src/models/PersonalAccessToken.js]  (token store, issuer and
        revocations),
      - the [middleware/auth] module, [src/unnamed/part_004] from line 103
        on  ([authenticate], [optionalAuth], [authorize],
        [verifyRegistrationToken]),
      - [src/controllers/authController.js]  ([register], [login], [logout],
        [checkAuthStatus], [getProfile]),
      - the routes of [routes/auth], [src/unnamed/part_006],
    followed by the properties of the specification that concern them and
    by further properties of the code.

    Conventions of the embedding.
      - A JavaScript [Date] is its [getTime()] value, an integer number of
        milliseconds; one handler run observes one instant, so every
        [new Date()] inside a run reads the same [now] of the environment.
      - A JavaScript string is the sequence of its bytes.
      - What the runtime computes from tables that are not part of the
        sources is a parameter of the definitions that call it, with the
        laws their properties rest on: [toLowerCase] (the Unicode case
        tables) and [setDate(getDate() + 1)] (the calendar of the process
        time zone).
      - The two tables are lists of rows in insertion order together with
        their auto-increment counters; [findOne] returns the first match.
      - An [await]ed call that may reject returns a [result]; the handlers'
        [try]/[catch] blocks are written out.
      - A handler run is one step from database to database: what other
        requests write between two of its [await]s is not part of the
        embedding.  Where a property would rest on that, as the single
        session of a user does between [hasActiveSession] and
        [createToken] in [login], it is stated of the single statements
        instead. *)

From Stdlib Require Import ZArith List String Ascii Bool Lia.
From Stdlib Require Import Strings.Byte.
Import ListNotations.

Local Open Scope string_scope.
Local Open Scope Z_scope.

(* ------------------------------------------------------------------ *)
(** ** JavaScript values *)

Module Js.

(** [Date.getTime()], milliseconds. *)
Definition Date := Z.

(** A field name with its message, as validation reports it. *)
Definition FieldError : Type := (string * string)%type.

(** Errors the handlers can catch. *)
Inductive Error : Type :=
| SequelizeUniqueConstraintError (path : string)
| SequelizeValidationError (errs : list FieldError)
| TypeError
| RangeError.

Inductive result (A : Type) : Type :=
| Ok (a : A)
| Throw (e : Error).
Arguments Ok {A} a.
Arguments Throw {A} e.

(** Truthiness of a string value: only the empty string is falsy. *)
Definition truthy (s : string) : bool :=
  match s with EmptyString => false | String _ _ => true end.

(** Truthiness of a possibly [undefined] string. *)
Definition provided (o : option string) : bool :=
  match o with Some s => truthy s | None => false end.

(** [a || d] on a possibly [undefined] string. *)
Definition orElse (o : option string) (d : string) : string :=
  match o with
  | Some s => if truthy s then s else d
  | None => d
  end.

Definition startsWith (s p : string) : bool := String.prefix p s.

(** [s.substring(n)]. *)
Definition substring (s : string) (n : nat) : string :=
  String.substring n (String.length s - n) s.

Definition lowerAscii (c : ascii) : ascii :=
  let n := nat_of_ascii c in
  if (Nat.leb 65 n && Nat.leb n 90)%bool then ascii_of_nat (n + 32) else c.

(** Lower-casing of the letters A to Z, byte by byte: what
    [s.toLowerCase()] computes on a string of ASCII characters. *)
Fixpoint asciiLowerCase (s : string) : string :=
  match s with
  | EmptyString => EmptyString
  | String c r => String (lowerAscii c) (asciiLowerCase r)
  end.

(** [s.toLowerCase()].  It folds every cased letter of Unicode; the case
    tables are not part of the embedding, so the method is a parameter,
    together with the one law used of it: a lower-cased string is its own
    lower-casing. *)
Class CaseFold : Type := {
  toLowerCase : string -> string;
  toLowerCase_idem :
    forall s : string, toLowerCase (toLowerCase s) = toLowerCase s
}.

(** Twenty-four hours. *)
Definition DAY_MS : Z := 86400000.

(** [d.setDate(d.getDate() + 1)]: the same wall-clock time on the next
    calendar day of the process time zone.  That instant is [DAY_MS] later
    when the zone's UTC offset is the same on both days, and an hour less
    or more across a daylight-saving change; the zone is a parameter, and
    the next day is later than the day it is computed from. *)
Class Calendar : Type := {
  addOneDay : Date -> Date;
  addOneDay_later : forall d : Date, d < addOneDay d
}.

(** [Buffer.from(s)]. *)
Definition bufferFrom (s : string) : list byte := list_byte_of_string s.

Fixpoint bytes_eqb (a b : list byte) : bool :=
  match a, b with
  | [], [] => true
  | x :: a', y :: b' => Byte.eqb x y && bytes_eqb a' b'
  | _, _ => false
  end.

(** [crypto.timingSafeEqual]: throws on buffers of different lengths. *)
Definition timingSafeEqual (a b : list byte) : result bool :=
  if Nat.eqb (List.length a) (List.length b)
  then Ok (bytes_eqb a b)
  else Throw RangeError.

Definition hexDigit (n : N) : ascii :=
  match n with
  | 0%N => "0" | 1%N => "1" | 2%N => "2" | 3%N => "3"
  | 4%N => "4" | 5%N => "5" | 6%N => "6" | 7%N => "7"
  | 8%N => "8" | 9%N => "9" | 10%N => "a" | 11%N => "b"
  | 12%N => "c" | 13%N => "d" | 14%N => "e" | _ => "f"
  end%char.

(** [buf.toString('hex')]. *)
Fixpoint toHex (bs : list byte) : string :=
  match bs with
  | [] => EmptyString
  | b :: r =>
      let n := Byte.to_N b in
      String (hexDigit (n / 16)) (String (hexDigit (n mod 16)) (toHex r))
  end.

(** [crypto.randomBytes(n)], reading the environment's entropy source. *)
Definition randomBytes (entropy : nat -> byte) (n : nat) : list byte :=
  List.map entropy (List.seq 0 n).

End Js.

Import Js.

(* ------------------------------------------------------------------ *)
(** ** The [User] model *)

Module User.

(** The nested preferences blob [register] builds. *)
Record AdditionalInfo : Type := {
  gender : string;
  food_type : string;
  place_value : string;
  saved_places : list Z;
  saved_posts : list Z;
  saved_articles : list Z;
  language : string;
  theme : string;
  push_notification : bool
}.

(** Modelled from the spec: [models/User.js] is not part of the sources.
    The row carries the attributes of the spec's data model: unique id,
    email, username, display name, avatar URL, preferences blob,
    active/deactivated flag, last-login timestamp. *)
Record t : Type := {
  id : Z;
  name : string;
  username : string;
  email : string;
  imageUrl : string;
  additionalInfo : AdditionalInfo;
  active : bool;
  lastLogin : option Date
}.

(** The fields [User.create] receives from [register]. *)
Record Fields : Type := {
  f_name : string;
  f_username : string;
  f_email : string;
  f_imageUrl : string;
  f_additionalInfo : AdditionalInfo
}.

Record Profile : Type := {
  p_id : Z;
  p_name : string;
  p_username : string;
  p_email : string;
  p_imageUrl : string;
  p_additionalInfo : AdditionalInfo
}.

Record table : Type := {
  rows : list t;
  seq : Z
}.

(** Modelled from the spec: [isActive] of the missing [models/User.js]
    reads the active/deactivated flag. *)
Definition isActive (u : t) : bool := active u.

(** Modelled from the spec: [getProfile] of the missing [models/User.js]
    returns the public profile fields of the identity. *)
Definition getProfile (u : t) : Profile :=
  {| p_id := id u; p_name := name u; p_username := username u;
     p_email := email u; p_imageUrl := imageUrl u;
     p_additionalInfo := additionalInfo u |}.

Definition setName (u : t) (n : string) : t :=
  {| id := id u; name := n; username := username u; email := email u;
     imageUrl := imageUrl u; additionalInfo := additionalInfo u;
     active := active u; lastLogin := lastLogin u |}.

Definition setImageUrl (u : t) (i : string) : t :=
  {| id := id u; name := name u; username := username u; email := email u;
     imageUrl := i; additionalInfo := additionalInfo u;
     active := active u; lastLogin := lastLogin u |}.

Definition setLastLogin (u : t) (d : Date) : t :=
  {| id := id u; name := name u; username := username u; email := email u;
     imageUrl := imageUrl u; additionalInfo := additionalInfo u;
     active := active u; lastLogin := Some d |}.

(** [User.findOne({ where })]: the first row the condition accepts. *)
Definition findOne (where_ : t -> bool) (T : table) : option t :=
  List.find where_ (rows T).

Definition findByPk (pk : Z) (T : table) : option t :=
  findOne (fun u => id u =? pk) T.

(** Writing an instance back: the row with its primary key is replaced. *)
Definition store (u : t) (T : table) : table :=
  {| rows := List.map (fun r => if id r =? id u then u else r) (rows T);
     seq := seq T |}.

(** [user.save()]. *)
Definition save (u : t) (T : table) : table := store u T.

(** Modelled from the spec: [updateLastLogin] of the missing
    [models/User.js] stamps the last-login timestamp and persists it. *)
Definition updateLastLogin (u : t) (now : Date) (T : table) : t * table :=
  let u' := setLastLogin u now in (u', store u' T).

(** Modelled from the spec: [User.create(fields)] on the missing
    [models/User.js].  The model's own validators are passed in; the
    unique indexes on [email] and [username] are the ones [register]'s
    catch block answers for; a created identity is active and has no last
    login yet. *)
Definition create (validators : Fields -> list FieldError) (f : Fields)
    (T : table) : result (t * table) :=
  match validators f with
  | _ :: _ => Throw (SequelizeValidationError (validators f))
  | [] =>
  if List.existsb (fun r => email r =? f_email f)%string (rows T)
  then Throw (SequelizeUniqueConstraintError "email")
  else if List.existsb (fun r => username r =? f_username f)%string (rows T)
  then Throw (SequelizeUniqueConstraintError "username")
  else
    let u := {| id := seq T; name := f_name f; username := f_username f;
                email := f_email f; imageUrl := f_imageUrl f;
                additionalInfo := f_additionalInfo f;
                active := true; lastLogin := None |} in
    Ok (u, {| rows := (rows T ++ [u])%list; seq := seq T + 1 |})
  end.

End User.

(* ------------------------------------------------------------------ *)
(** ** The [PersonalAccessToken] model *)

Module PersonalAccessToken.

Record t : Type := {
  id : Z;
  tokenable_type : string;
  tokenable_id : Z;
  name : string;
  token : string;
  abilities : option string;
  last_used_at : option Date;
  expires_at : option Date;
  created_at : Date;
  updated_at : Date
}.

Record table : Type := {
  rows : list t;
  seq : Z
}.

Definition USER_TYPE : string := "App\Models\User".

(** [isValid()], evaluated at instant [now]. *)
Definition isValid (now : Date) (r : t) : bool :=
  match expires_at r with
  | None => true
  | Some e => now <? e
  end.

Definition findOne (where_ : t -> bool) (T : table) : option t :=
  List.find where_ (rows T).

(** The lookup [authenticate] and [optionalAuth] perform:
    [where: { token, tokenable_type: 'App\\Models\\User' }]. *)
Definition whereUserToken (tok : string) (r : t) : bool :=
  (token r =? tok)%string && (tokenable_type r =? USER_TYPE)%string.

(** The instance after [set({ last_used_at })] has found a change:
    Sequelize writes the column and refreshes [updated_at]. *)
Definition stamp (now : Date) (r : t) : t :=
  {| id := id r; tokenable_type := tokenable_type r;
     tokenable_id := tokenable_id r; name := name r; token := token r;
     abilities := abilities r; last_used_at := Some now;
     expires_at := expires_at r; created_at := created_at r;
     updated_at := now |}.

(** [record.update({ last_used_at })].  When the stored value already is
    that instant nothing has changed: no UPDATE is issued and [updated_at]
    stays; otherwise the instance and its row change. *)
Definition touch (now : Date) (r : t) : t :=
  match last_used_at r with
  | Some d => if d =? now then r else stamp now r
  | None => stamp now r
  end.

Definition update_last_used (now : Date) (r : t) (T : table) : t * table :=
  let r' := touch now r in
  (r', {| rows := List.map (fun x => if id x =? id r then r' else x) (rows T);
          seq := seq T |}).

(** [PersonalAccessToken.destroy({ where: { token } })]. *)
Definition destroy_token (tok : string) (T : table) : table :=
  {| rows := List.filter (fun r => negb (token r =? tok)%string) (rows T);
     seq := seq T |}.

(** [PersonalAccessToken.create(values)] under the unique index on
    [token]; the timestamps come from [timestamps: true]. *)
Definition create (now : Date) (type_ : string) (owner : Z) (name_ : string)
    (tok : string) (abilities_ : option string)
    (expires : option Date) (last_used : option Date) (T : table)
  : result (t * table) :=
  if List.existsb (fun r => token r =? tok)%string (rows T)
  then Throw (SequelizeUniqueConstraintError "token")
  else
    let r := {| id := seq T; tokenable_type := type_; tokenable_id := owner;
                name := name_; token := tok; abilities := abilities_;
                last_used_at := last_used; expires_at := expires;
                created_at := now; updated_at := now |} in
    Ok (r, {| rows := (rows T ++ [r])%list; seq := seq T + 1 |}).

(** [createToken(user, name)], with the default [abilities = ['*']]. *)
Definition createToken {zone : Calendar} (now : Date) (entropy : nat -> byte)
    (user : User.t) (name_ : string) (T : table) : result (t * table) :=
  let tok := toHex (randomBytes entropy 32) in
  let expiresAt := addOneDay now in
  create now USER_TYPE (User.id user) name_ tok (Some "*")
         (Some expiresAt) (Some now) T.

(** The condition of [hasActiveSession]; SQL's [expires_at > now] is not
    satisfied by a NULL [expires_at]. *)
Definition whereActiveSession (now : Date) (userId : Z) (r : t) : bool :=
  (tokenable_id r =? userId)
  && (tokenable_type r =? USER_TYPE)%string
  && match expires_at r with
     | None => false
     | Some e => now <? e
     end.

Definition hasActiveSession (now : Date) (userId : Z) (T : table) : option t :=
  findOne (whereActiveSession now userId) T.

(** [markAsRevoked()]: [this.destroy()], the row of that primary key is
    deleted. *)
Definition markAsRevoked (r : t) (T : table) : table :=
  {| rows := List.filter (fun x => negb (id x =? id r)) (rows T);
     seq := seq T |}.

(** [{ tokenable_id: userId, tokenable_type: 'App\\Models\\User' }], the
    condition of both bulk revocations. *)
Definition whereUserRows (userId : Z) (x : t) : bool :=
  (tokenable_id x =? userId) && (tokenable_type x =? USER_TYPE)%string.

(** [Model.destroy({ where })] answers the number of rows it deleted. *)
Definition destroy (where_ : t -> bool) (T : table) : Z * table :=
  (Z.of_nat (List.length (List.filter where_ (rows T))),
   {| rows := List.filter (fun x => negb (where_ x)) (rows T);
      seq := seq T |}).

(** [revokeAllUserTokens(userId)]. *)
Definition revokeAllUserTokens (userId : Z) (T : table) : Z * table :=
  destroy (whereUserRows userId) T.

(** [revokeOtherTokens(userId, currentTokenId = null)]:
    [if (currentTokenId) whereClause.id = { [Op.ne]: currentTokenId }];
    a missing id and the number 0 are falsy. *)
Definition revokeOtherTokens (userId : Z) (currentTokenId : option Z)
    (T : table) : Z * table :=
  let keepsCurrent (x : t) : bool :=
    match currentTokenId with
    | Some k => if k =? 0 then true else negb (id x =? k)
    | None => true
    end in
  destroy (fun x => whereUserRows userId x && keepsCurrent x) T.

End PersonalAccessToken.

(* ------------------------------------------------------------------ *)
(** ** Database, environment, requests and responses *)

Record DB : Type := {
  users : User.table;
  tokens : PersonalAccessToken.table
}.

Module Jwt.

(** The claims [authenticate] reads from a decoded token; a claim the
    payload lacks is [undefined]. *)
Record Payload : Type := {
  type : option string;
  id : option Z
}.

End Jwt.

(** What a handler run reads besides the request and the database.
    [verifyToken] and [generateAccessToken] belong to [utils/jwt], which is
    not part of the sources: [verifyToken] answers [None] where it throws. *)
Record Env : Type := {
  now : Date;
  entropy : nat -> byte;
  REGISTRATION_API_KEY : option string;
  verifyToken : string -> option Jwt.Payload;
  generateAccessToken : User.t -> string;
  userValidators : User.Fields -> list FieldError
}.

Module Http.

(** The [data] member of the JSON envelopes. *)
Inductive Data : Type :=
| UserData (user : User.Profile)
| LoginData (user : User.Profile) (token jwtToken : string)
| SessionData (hasActiveSession : bool) (sessionCreatedAt : Date)
| LogoutData (loggedOutAt : Date).

Record Response : Type := {
  status : Z;
  success : bool;
  message : string;
  data : option Data;
  errors : option (list FieldError)
}.

Definition fail (st : Z) (msg : string) : Response :=
  {| status := st; success := false; message := msg;
     data := None; errors := None |}.

(** What a middleware does with the request. *)
Inductive Outcome : Type :=
| Next
| Respond (r : Response).

(** The request: the header, the result of the validation rules, the body
    and the context the middleware attaches. *)
Record Request (B : Type) : Type := {
  authorization : option string;
  validationErrors : list FieldError;
  body : B;
  user : option User.t;
  token : option string;
  tokenRecord : option PersonalAccessToken.t
}.
Arguments authorization {B} _.
Arguments validationErrors {B} _.
Arguments body {B} _.
Arguments user {B} _.
Arguments token {B} _.
Arguments tokenRecord {B} _.

Definition attach {B} (req : Request B) (u : User.t) (tok : string)
    (r : PersonalAccessToken.t) : Request B :=
  {| authorization := authorization req;
     validationErrors := validationErrors req;
     body := body req;
     user := Some u; token := Some tok; tokenRecord := Some r |}.

End Http.

Import Http.

(* ------------------------------------------------------------------ *)
(** ** The middleware: [authenticate] and [verifyRegistrationToken] *)

Module auth.

(** [tokenRecord.expires_at && new Date() > tokenRecord.expires_at],
    the condition of line 176. *)
Definition expired (now : Date) (r : PersonalAccessToken.t) : bool :=
  match PersonalAccessToken.expires_at r with
  | None => false
  | Some e => e <? now
  end.

Definition is_access (ty : option string) : bool :=
  match ty with
  | Some s => (s =? "access")%string
  | None => false
  end.

Definition same_id (i : option Z) (pk : Z) : bool :=
  match i with
  | Some n => n =? pk
  | None => false
  end.

(** The inner [try] block of [authenticate]: [Some r] when it returns the
    response [r], [None] when control reaches the active check (also when
    [verifyToken] threw and the [catch] only logged a warning). *)
Definition jwtVerdict (E : Env) (tok : string) (user : User.t)
  : option Response :=
  match verifyToken E tok with
  | Some decoded =>
      if negb (is_access (Jwt.type decoded))
      then Some (fail 401 "Token type tidak valid.")
      else if negb (same_id (Jwt.id decoded) (User.id user))
      then Some (fail 401 "Token user mismatch. Akses ditolak.")
      else None
  | None => None
  end.

(** [authenticate(req, res, next)], part_004 lines 111-252.  The second
    [if (!tokenRecord)] of the source cannot fire after the first one and
    is left out; no call inside the outer [try] rejects in this embedding,
    so its [catch] is not reached. *)
Definition authenticate {B} (E : Env) (req : Request B) (db : DB)
  : DB * Request B * Outcome :=
  let missing := fail 401 "Token tidak ditemukan. Akses ditolak." in
  match authorization req with
  | None => (db, req, Respond missing)
  | Some authHeader =>
  if negb (truthy authHeader) then (db, req, Respond missing)
  else if negb (startsWith authHeader "Bearer ")
  then (db, req,
        Respond (fail 401 "Format token tidak valid. Gunakan Bearer token."))
  else
  let token := substring authHeader 7 in
  if negb (truthy token) then (db, req, Respond missing)
  else
  match PersonalAccessToken.findOne
          (PersonalAccessToken.whereUserToken token) (tokens db) with
  | None =>
      (db, req,
       Respond (fail 401 "Token tidak ditemukan di database. Akses ditolak."))
  | Some tokenRecord =>
  match User.findByPk (PersonalAccessToken.tokenable_id tokenRecord)
                      (users db) with
  | None =>
      (db, req, Respond (fail 401 "User tidak ditemukan. Akses ditolak."))
  | Some user =>
  if expired (now E) tokenRecord
  then (db, req, Respond (fail 401 "Token sudah expired. Akses ditolak."))
  else
  let '(tokenRecord1, tokens1) :=
    PersonalAccessToken.update_last_used (now E) tokenRecord (tokens db) in
  let db1 := {| users := users db; tokens := tokens1 |} in
  match jwtVerdict E token user with
  | Some r => (db1, req, Respond r)
  | None =>
  if negb (User.isActive user)
  then (db1, req,
        Respond (fail 401 "Akun telah dinonaktifkan. Silakan hubungi admin."))
  else
  let '(tokenRecord2, tokens2) :=
    PersonalAccessToken.update_last_used (now E) tokenRecord1 tokens1 in
  ({| users := users db; tokens := tokens2 |},
   attach req user token tokenRecord2,
   Next)
  end
  end
  end
  end.

(** [verifyRegistrationToken(req, res, next)], part_004 lines 328-398. *)
Definition verifyRegistrationToken {B} (E : Env) (req : Request B)
  : Outcome :=
  let missing :=
    fail 401 "API key registrasi tidak ditemukan. Akses ditolak." in
  let invalid := fail 403 "API key registrasi tidak valid. Akses ditolak." in
  let misconfigured :=
    fail 500 "Konfigurasi registrasi tidak valid. Hubungi administrator." in
  match authorization req with
  | None => Respond missing
  | Some authHeader =>
  if negb (truthy authHeader) then Respond missing
  else if negb (startsWith authHeader "Bearer ")
  then Respond (fail 401 "Format API key tidak valid. Gunakan Bearer token.")
  else
  let apiKey := substring authHeader 7 in
  if negb (truthy apiKey) then Respond missing
  else
  match REGISTRATION_API_KEY E with
  | None => Respond misconfigured
  | Some key =>
  if negb (truthy key) then Respond misconfigured
  else
  let expectedKey := bufferFrom key in
  let providedKey := bufferFrom apiKey in
  if negb (Nat.eqb (List.length expectedKey) (List.length providedKey))
  then Respond invalid
  else
  match timingSafeEqual expectedKey providedKey with
  | Ok true => Next
  | Ok false => Respond invalid
  | Throw _ =>
      Respond
        (fail 401 "Terjadi kesalahan saat verifikasi API key registrasi.")
  end
  end
  end.

(** [optionalAuth(req, res, next)], part_004 lines 258-303: every path
    ends in [next()]; nothing inside the [try] rejects in this embedding. *)
Definition optionalAuth {B} (E : Env) (req : Request B) (db : DB)
  : DB * Request B * Outcome :=
  match authorization req with
  | None => (db, req, Next)
  | Some authHeader =>
  if negb (truthy authHeader) || negb (startsWith authHeader "Bearer ")
  then (db, req, Next)
  else
  let token := substring authHeader 7 in
  if negb (truthy token) then (db, req, Next)
  else
  match PersonalAccessToken.findOne
          (PersonalAccessToken.whereUserToken token) (tokens db) with
  | None => (db, req, Next)
  | Some tokenRecord =>
  if expired (now E) tokenRecord then (db, req, Next)
  else
  let '(tokenRecord1, tokens1) :=
    PersonalAccessToken.update_last_used (now E) tokenRecord (tokens db) in
  let db1 := {| users := users db; tokens := tokens1 |} in
  match User.findByPk (PersonalAccessToken.tokenable_id tokenRecord1)
                      (users db) with
  | Some user =>
      if User.isActive user
      then (db1, attach req user token tokenRecord1, Next)
      else (db1, req, Next)
  | None => (db1, req, Next)
  end
  end
  end.

(** [authorize(...roles)(req, res, next)], part_004 lines 308-321: the
    roles are not looked at. *)
Definition authorize {B} (roles : list string) (req : Request B) : Outcome :=
  match user req with
  | None => Respond (fail 401 "Akses ditolak. Login diperlukan.")
  | Some _ => Next
  end.

End auth.

(* ------------------------------------------------------------------ *)
(** ** The controllers: [register], [login], [logout] *)

Module authController.

(** [req.body] of a registration.  The route's validation rules run
    before the handler; the handler answers 400 when they reported
    errors and reads the body only otherwise. *)
Record RegisterBody : Type := {
  name : string;
  username : string;
  email : string;
  imageUrl : option string;
  gender : option string;
  place_value : option string;
  food_type : option string
}.

Record LoginBody : Type := {
  l_email : string;
  l_name : option string;
  l_imageUrl : option string
}.

Definition validationFailed (errs : list FieldError) : Response :=
  {| status := 400; success := false; message := "Validation failed";
     data := None; errors := Some errs |}.

Definition serverError : Response := fail 500 "Terjadi kesalahan server".

Definition EMAIL_TAKEN : string := "Email sudah terdaftar".
Definition USERNAME_TAKEN : string := "Username sudah digunakan".

Definition newUserFields {fold : CaseFold} (b : RegisterBody)
  : User.Fields :=
  {| User.f_name := name b;
     User.f_username := username b;
     User.f_email := toLowerCase (email b);
     User.f_imageUrl := orElse (imageUrl b) "https://via.placeholder.com/150";
     User.f_additionalInfo :=
       {| User.gender := orElse (gender b) EmptyString;
          User.food_type := orElse (food_type b) EmptyString;
          User.place_value := orElse (place_value b) EmptyString;
          User.saved_places := [];
          User.saved_posts := [];
          User.saved_articles := [];
          User.language := "id";
          User.theme := "light";
          User.push_notification := true |} |}.

(** The [where] of [register]'s lookup: email equal to the lower-cased
    request email, or username equal to the request username. *)
Definition whereTaken {fold : CaseFold} (b : RegisterBody) (u : User.t)
  : bool :=
  (User.email u =? toLowerCase (email b))%string
  || (User.username u =? username b)%string.

Definition register {fold : CaseFold} (E : Env) (req : Request RegisterBody)
    (db : DB) : DB * Response :=
  match validationErrors req with
  | _ :: _ => (db, validationFailed (validationErrors req))
  | [] =>
  let b := body req in
  match User.findOne (whereTaken b) (users db) with
  | Some existingUser =>
      (db, fail 409
             (if (User.email existingUser =? toLowerCase (email b))%string
              then EMAIL_TAKEN else USERNAME_TAKEN))
  | None =>
  match User.create (userValidators E) (newUserFields b) (users db) with
  | Ok (newUser, users') =>
      ({| users := users'; tokens := tokens db |},
       {| status := 201; success := true;
          message := "User berhasil didaftarkan";
          data := Some (UserData (User.getProfile newUser));
          errors := None |})
  | Throw (SequelizeValidationError errs) =>
      (db, {| status := 400; success := false; message := "Validation error";
              data := None; errors := Some errs |})
  | Throw (SequelizeUniqueConstraintError field) =>
      (db, fail 409
             (if (field =? "email")%string
              then EMAIL_TAKEN else USERNAME_TAKEN))
  | Throw _ => (db, serverError)
  end
  end
  end.

(** [if (v && v !== current) current = v]. *)
Definition refreshed (v : option string) (current : string) : string :=
  match v with
  | Some s => if truthy s && negb (s =? current)%string then s else current
  | None => current
  end.

Definition SESSION_CONFLICT : string :=
  "Anda sudah login di perangkat lain. Silakan logout terlebih dahulu atau tunggu hingga token expired (1 hari).".

Definition login {fold : CaseFold} {zone : Calendar} (E : Env)
    (req : Request LoginBody) (db : DB) : DB * Response :=
  match validationErrors req with
  | _ :: _ => (db, validationFailed (validationErrors req))
  | [] =>
  let b := body req in
  match User.findOne
          (fun u => (User.email u =? toLowerCase (l_email b))%string)
          (users db) with
  | None =>
      (db, fail 404
             "User tidak ditemukan. Silakan registrasi terlebih dahulu.")
  | Some found =>
  let user1 := User.setName found (refreshed (l_name b) (User.name found)) in
  let user2 :=
    User.setImageUrl user1 (refreshed (l_imageUrl b) (User.imageUrl user1)) in
  let users1 := User.save user2 (users db) in
  let db1 := {| users := users1; tokens := tokens db |} in
  if negb (User.isActive user2)
  then (db1, fail 403 "Akun Anda telah dinonaktifkan")
  else
  let '(user, users2) := User.updateLastLogin user2 (now E) users1 in
  let db2 := {| users := users2; tokens := tokens db |} in
  match PersonalAccessToken.hasActiveSession
          (now E) (User.id user) (tokens db2) with
  | Some existingSession =>
      (db2,
       {| status := 409; success := false; message := SESSION_CONFLICT;
          data := Some (SessionData true
                          (PersonalAccessToken.created_at existingSession));
          errors := None |})
  | None =>
  let accessToken := generateAccessToken E user in
  match PersonalAccessToken.createToken
          (now E) (entropy E) user "API Login" (tokens db2) with
  | Ok (tokenRecord, tokens') =>
      ({| users := users2; tokens := tokens' |},
       {| status := 200; success := true; message := "Login berhasil";
          data := Some (LoginData (User.getProfile user)
                          (PersonalAccessToken.token tokenRecord)
                          accessToken);
          errors := None |})
  | Throw _ => (db2, serverError)
  end
  end
  end
  end.

(** [logout(req, res)].  Reading [user.id] for the log line throws when no
    identity is attached; the [catch] then answers 500, after the
    deletion. *)
Definition logout {B} (E : Env) (req : Request B) (db : DB)
  : DB * Response :=
  let db1 :=
    match token req with
    | Some tok =>
        if truthy tok
        then {| users := users db;
                tokens := PersonalAccessToken.destroy_token tok (tokens db) |}
        else db
    | None => db
    end in
  match user req with
  | None => (db1, fail 500 "Terjadi kesalahan saat logout")
  | Some _ =>
      (db1,
       {| status := 200; success := true; message := "Logout berhasil!";
          data := Some (LogoutData (now E)); errors := None |})
  end.

(** [checkAuthStatus(req, res)], lines 253-306.  [userIdOf token] is the
    [userId] member of [verifyToken(token)] where that call returns, with
    [None] for [undefined]; [User.findByPk(undefined)] finds nothing.  The
    inner [catch] answers for a throwing [verifyToken]. *)
Definition checkAuthStatus {B} (E : Env) (userIdOf : string -> option Z)
    (req : Request B) (db : DB) : Response :=
  let missing := fail 401 "Token tidak ditemukan" in
  match authorization req with
  | None => missing
  | Some authHeader =>
  if negb (truthy authHeader) || negb (startsWith authHeader "Bearer ")
  then missing
  else
  let token := substring authHeader 7 in
  match verifyToken E token with
  | None => fail 401 "Token tidak valid atau telah kedaluwarsa"
  | Some _ =>
  match
    match userIdOf token with
    | Some pk => User.findByPk pk (users db)
    | None => None
    end
  with
  | None => fail 401 "User tidak ditemukan"
  | Some user =>
      if negb (User.isActive user)
      then fail 403 "Akun telah dinonaktifkan"
      else {| status := 200; success := true; message := "Token valid";
              data := Some (UserData (User.getProfile user));
              errors := None |}
  end
  end
  end.

(** [getProfile(req, res)], lines 313-366. *)
Definition getProfile {B} (E : Env) (userIdOf : string -> option Z)
    (req : Request B) (db : DB) : Response :=
  let missing := fail 401 "Token tidak ditemukan" in
  match authorization req with
  | None => missing
  | Some authHeader =>
  if negb (truthy authHeader) || negb (startsWith authHeader "Bearer ")
  then missing
  else
  let token := substring authHeader 7 in
  match verifyToken E token with
  | None => fail 401 "Token tidak valid atau telah kedaluwarsa"
  | Some _ =>
  match
    match userIdOf token with
    | Some pk => User.findByPk pk (users db)
    | None => None
    end
  with
  | None => fail 401 "User tidak ditemukan"
  | Some user =>
      if negb (User.isActive user)
      then fail 403 "Akun telah dinonaktifkan"
      else {| status := 200; success := true;
              message := "Profile berhasil diambil";
              data := Some (UserData (User.getProfile user));
              errors := None |}
  end
  end
  end.

End authController.

(* ------------------------------------------------------------------ *)
(** ** The routes of [routes/auth] *)

(** [src/unnamed/part_006]: each route runs its middleware in order and
    stops at the first one that responds.  [validateRegister],
    [validateLogin] and [handleValidationErrors] belong to
    [middleware/validation], which is not part of the sources: their chain
    is the argument [validation]. *)
Module authRoutes.

(** [router.post('/register', verifyRegistrationToken, validateRegister,
    handleValidationErrors, register)]. *)
Definition postRegister {fold : CaseFold} (E : Env)
    (validation : Request authController.RegisterBody -> Outcome)
    (req : Request authController.RegisterBody) (db : DB) : DB * Response :=
  match auth.verifyRegistrationToken E req with
  | Respond r => (db, r)
  | Next =>
      match validation req with
      | Respond r => (db, r)
      | Next => authController.register E req db
      end
  end.

(** [router.post('/login', validateLogin, handleValidationErrors, login)]. *)
Definition postLogin {fold : CaseFold} {zone : Calendar} (E : Env)
    (validation : Request authController.LoginBody -> Outcome)
    (req : Request authController.LoginBody) (db : DB) : DB * Response :=
  match validation req with
  | Respond r => (db, r)
  | Next => authController.login E req db
  end.

(** [router.post('/logout', authenticate, logout)]. *)
Definition postLogout {B} (E : Env) (req : Request B) (db : DB)
  : DB * Response :=
  let '(db1, req1, out) := auth.authenticate E req db in
  match out with
  | Respond r => (db1, r)
  | Next => authController.logout E req1 db1
  end.

(** [router.get('/status', authenticate, checkAuthStatus)]. *)
Definition getStatus {B} (E : Env) (userIdOf : string -> option Z)
    (req : Request B) (db : DB) : DB * Response :=
  let '(db1, req1, out) := auth.authenticate E req db in
  match out with
  | Respond r => (db1, r)
  | Next => (db1, authController.checkAuthStatus E userIdOf req1 db1)
  end.

(** [router.get('/profile', authenticate, getProfile)]. *)
Definition getProfile {B} (E : Env) (userIdOf : string -> option Z)
    (req : Request B) (db : DB) : DB * Response :=
  let '(db1, req1, out) := auth.authenticate E req db in
  match out with
  | Respond r => (db1, r)
  | Next => (db1, authController.getProfile E userIdOf req1 db1)
  end.

End authRoutes.

(* ------------------------------------------------------------------ *)
(** ** Concrete states and requests *)

Module Sample.

(** The strings of the samples are made of ASCII characters only, and on
    such strings [toLowerCase] folds the letters A to Z and leaves every
    other character.  The properties are stated for every [CaseFold]; this
    one serves to run them on the samples. *)
#[global] Instance asciiFold : CaseFold.
Proof.
  refine {| toLowerCase := asciiLowerCase |}.
  induction s as [|c s IH]; cbn; [reflexivity|].
  rewrite IH. f_equal.
  destruct c as [[] [] [] [] [] [] [] []]; reflexivity.
Defined.

(** The samples run in a zone with a fixed UTC offset, such as UTC, where
    every calendar day has twenty-four hours. *)
#[global] Instance fixedOffset : Calendar.
Proof.
  refine {| addOneDay := fun d => d + DAY_MS |}.
  intro d. unfold DAY_MS. lia.
Defined.

(** A zone whose clocks go forward by one hour at instant 1772953200000
    (New York, 8 March 2026, 07:00 UTC): during the 23 hours before the
    change, the same wall-clock time on the next day is 23 hours away.  The
    zone is written out around that change only. *)
Definition springForward : Calendar.
Proof.
  refine {| addOneDay := fun d =>
              if (1772870400000 <=? d) && (d <? 1772953200000)
              then d + 23 * 60 * 60 * 1000
              else d + DAY_MS |}.
  intro d. unfold DAY_MS.
  destruct ((1772870400000 <=? d) && (d <? 1772953200000)); lia.
Defined.

Definition info : User.AdditionalInfo :=
  {| User.gender := EmptyString; User.food_type := EmptyString;
     User.place_value := EmptyString; User.saved_places := [];
     User.saved_posts := []; User.saved_articles := [];
     User.language := "id"; User.theme := "light";
     User.push_notification := true |}.

(** An active identity. *)
Definition alice : User.t :=
  {| User.id := 1; User.name := "Alice"; User.username := "alice";
     User.email := "a@x.com"; User.imageUrl := "https://x.com/a.png";
     User.additionalInfo := info; User.active := true;
     User.lastLogin := None |}.

(** A deactivated identity. *)
Definition bob : User.t :=
  {| User.id := 2; User.name := "Bob"; User.username := "bob";
     User.email := "b@x.com"; User.imageUrl := "https://x.com/b.png";
     User.additionalInfo := info; User.active := false;
     User.lastLogin := None |}.

Definition people : User.table := {| User.rows := [alice; bob]; User.seq := 3 |}.

(** A token row of a user, as [createToken] or a Sanctum client of the
    same table writes it. *)
Definition session (pk owner : Z) (tok : string) (expires : option Date)
    (created : Date) : PersonalAccessToken.t :=
  {| PersonalAccessToken.id := pk;
     PersonalAccessToken.tokenable_type := PersonalAccessToken.USER_TYPE;
     PersonalAccessToken.tokenable_id := owner;
     PersonalAccessToken.name := "API Login";
     PersonalAccessToken.token := tok;
     PersonalAccessToken.abilities := Some "*";
     PersonalAccessToken.last_used_at := Some created;
     PersonalAccessToken.expires_at := expires;
     PersonalAccessToken.created_at := created;
     PersonalAccessToken.updated_at := created |}.

Definition database (sessions : list PersonalAccessToken.t) : DB :=
  {| users := people;
     tokens := {| PersonalAccessToken.rows := sessions;
                  PersonalAccessToken.seq := 10 |} |}.

(** An environment at instant [t] whose tokens are opaque: [verifyToken]
    throws on every string. *)
Definition env (t : Date) : Env :=
  {| now := t;
     entropy := fun _ => x2a%byte;
     REGISTRATION_API_KEY := Some "s3cret";
     verifyToken := fun _ => None;
     generateAccessToken := fun _ => "header.payload.signature";
     userValidators := fun _ => [] |}.


Definition request {B} (header : option string) (b : B) : Request B :=
  {| authorization := header; validationErrors := []; body := b;
     user := None; token := None; tokenRecord := None |}.

Definition loginAlice : authController.LoginBody :=
  {| authController.l_email := "A@x.com";
     authController.l_name := Some "Alice B.";
     authController.l_imageUrl := None |}.

Definition registerCarol : authController.RegisterBody :=
  {| authController.name := "Carol";
     authController.username := "carol";
     authController.email := "Carol@X.com";
     authController.imageUrl := None;
     authController.gender := None;
     authController.place_value := None;
     authController.food_type := None |}.

(** Alice holds one session, valid until instant 9000. *)
Definition aliceSession : DB :=
  database [session 1 1 "c0ffee" (Some 9000) 1000].

(** Bob, deactivated, holds one session, valid until instant 9000. *)
Definition bobSession : DB :=
  database [session 1 2 "decaf" (Some 9000) 1000].


(** Alice holds a row without an expiry, as a Sanctum client of the same
    table writes it by default. *)
Definition aliceUndated : DB :=
  database [session 1 1 "5anctum" None 1000].

(** A registration under Alice's email in another casing. *)
Definition registerAliceAgain : authController.RegisterBody :=
  {| authController.name := "Alice";
     authController.username := "alice2";
     authController.email := "A@X.COM";
     authController.imageUrl := None;
     authController.gender := None;
     authController.place_value := None;
     authController.food_type := None |}.

Definition loginCarol : authController.LoginBody :=
  {| authController.l_email := "CAROL@x.com";
     authController.l_name := None;
     authController.l_imageUrl := None |}.

Definition loginBob : authController.LoginBody :=
  {| authController.l_email := "b@x.com";
     authController.l_name := Some "Robert";
     authController.l_imageUrl := None |}.

(** Bob holds the very string the entropy source of [env] draws. *)
Definition bobHoldsTheDraw : DB :=
  database [session 1 2 (toHex (randomBytes (fun _ => x2a%byte) 32))
                    (Some 9000) 1000].

(** The token table after [createToken] has run for Alice, at instant
    5000, on the table of [aliceSession]. *)
Definition secondSession : PersonalAccessToken.table :=
  {| PersonalAccessToken.rows :=
       [session 1 1 "c0ffee" (Some 9000) 1000;
        session 10 1 (toHex (randomBytes (fun _ => x2a%byte) 32))
                (Some 86405000) 5000];
     PersonalAccessToken.seq := 11 |}.

(** Alice holds two sessions, Bob one. *)
Definition threeSessions : DB :=
  database [session 1 1 "c0ffee" (Some 9000) 1000;
            session 2 2 "decaf" (Some 9000) 1000;
            session 3 1 "5anctum" None 1000].

(** An environment whose [verifyToken] decodes one string as an access
    token of user 1. *)
Definition envAccessJwt (t : Date) : Env :=
  {| now := t;
     entropy := fun _ => x2a%byte;
     REGISTRATION_API_KEY := Some "s3cret";
     verifyToken := fun s =>
       if (s =? "access.jwt")%string
       then Some {| Jwt.type := Some "access"; Jwt.id := Some 1 |}
       else None;
     generateAccessToken := fun _ => "header.payload.signature";
     userValidators := fun _ => [] |}.

(** Alice holds a row whose token string [envAccessJwt] decodes. *)
Definition aliceAccessRow : DB :=
  database [session 1 1 "access.jwt" (Some 9000) 1000].

End Sample.

(* ------------------------------------------------------------------ *)
(** * Properties *)

(** ** Strings, buffers and lists *)

Section JsFacts.

Lemma truthy_true_iff (s : string) : truthy s = true <-> s <> EmptyString.
Proof.
  destruct s; simpl; split; intro H; congruence.
Qed.

Lemma truthy_false_iff (s : string) : truthy s = false <-> s = EmptyString.
Proof.
  destruct s; simpl; split; intro H; try congruence; discriminate.
Qed.

Lemma substring_whole (s : string) :
  String.substring 0 (String.length s) s = s.
Proof.
  induction s as [|c s IH]; simpl; [reflexivity | now rewrite IH].
Qed.

Lemma substring_bearer (tok : string) :
  substring ("Bearer " ++ tok) 7 = tok.
Proof.
  unfold substring. simpl. rewrite Nat.sub_0_r. apply substring_whole.
Qed.

Lemma truthy_bearer (tok : string) : truthy ("Bearer " ++ tok) = true.
Proof. reflexivity. Qed.

Lemma startsWith_bearer (tok : string) :
  startsWith ("Bearer " ++ tok) "Bearer " = true.
Proof. unfold startsWith. simpl. now destruct tok. Qed.

(** A string that starts with [p] is [p] followed by its [substring]
    from [length p]. *)
Lemma startsWith_split (p s : string) :
  startsWith s p = true -> s = (p ++ substring s (String.length p))%string.
Proof.
  unfold startsWith, substring. revert s.
  induction p as [|a p IH]; intros s H.
  - simpl. rewrite Nat.sub_0_r. symmetry. apply substring_whole.
  - destruct s as [|b s]; simpl in H; [discriminate|].
    destruct (ascii_dec a b) as [->|]; [|discriminate].
    simpl. f_equal. now apply IH.
Qed.

Lemma bytes_eqb_eq (a b : list byte) : bytes_eqb a b = true <-> a = b.
Proof.
  revert b. induction a as [|x a IH]; destruct b as [|y b]; simpl;
    split; intro H; try reflexivity; try discriminate.
  - apply andb_true_iff in H. destruct H as [Hxy Hab].
    apply byte_dec_bl in Hxy. apply IH in Hab. now subst.
  - injection H as -> ->. apply andb_true_iff. split.
    + now apply byte_dec_lb.
    + now apply IH.
Qed.

Lemma bufferFrom_inj (s1 s2 : string) : bufferFrom s1 = bufferFrom s2 -> s1 = s2.
Proof.
  unfold bufferFrom. intro H.
  rewrite <- (string_of_list_byte_of_string s1),
          <- (string_of_list_byte_of_string s2).
  now rewrite H.
Qed.

Lemma toHex_length (bs : list byte) :
  String.length (toHex bs) = (2 * List.length bs)%nat.
Proof.
  induction bs as [|b bs IH]; simpl; [reflexivity|].
  rewrite IH. lia.
Qed.

Lemma randomBytes_length (entropy : nat -> byte) (n : nat) :
  List.length (randomBytes entropy n) = n.
Proof.
  unfold randomBytes. now rewrite List.length_map, List.length_seq.
Qed.

Lemma existsb_false_find {A} (f : A -> bool) (l : list A) :
  List.existsb f l = false -> List.find f l = None.
Proof.
  induction l as [|x l IH]; simpl; [reflexivity|].
  destruct (f x); simpl; [discriminate | exact IH].
Qed.

Lemma find_none_iff {A} (f : A -> bool) (l : list A) :
  List.find f l = None <-> (forall x, In x l -> f x = false).
Proof.
  split; [apply List.find_none|].
  induction l as [|x l IH]; simpl; intro H; [reflexivity|].
  rewrite (H x (or_introl eq_refl)). apply IH. intros y Hy. apply H. now right.
Qed.

Lemma existsb_false_iff {A} (f : A -> bool) (l : list A) :
  List.existsb f l = false <-> (forall x, In x l -> f x = false).
Proof.
  induction l as [|x l IH]; simpl.
  - split; [intros _ y [] | reflexivity].
  - rewrite orb_false_iff, IH. split.
    + intros [Hx Hl] y [<-|Hy]; auto.
    + intro H. split; [apply H; now left | intros y Hy; apply H; now right].
Qed.

Lemma find_snoc {A} (f : A -> bool) (l : list A) (x : A) :
  List.find f l = None -> f x = true -> List.find f (l ++ [x])%list = Some x.
Proof.
  induction l as [|y l IH]; simpl; intros Hl Hx.
  - now rewrite Hx.
  - destruct (f y); [discriminate|]. now apply IH.
Qed.

End JsFacts.

(** ** The registration gate *)

Section RegistrationGate.

Context {B : Type}.
Variable E : Env.
Variable req : Request B.

Let MISSING := "API key registrasi tidak ditemukan. Akses ditolak.".
Let INVALID := "API key registrasi tidak valid. Akses ditolak.".
Let MISCONFIGURED :=
  "Konfigurasi registrasi tidak valid. Hubungi administrator.".

(** What the gate does once the header is [Bearer <key>] with a
    non-empty key: only the configured secret decides. *)
Lemma gate_on_bearer (key : string) :
  key <> EmptyString ->
  authorization req = Some ("Bearer " ++ key)%string ->
  auth.verifyRegistrationToken E req =
    match REGISTRATION_API_KEY E with
    | None => Respond (fail 500 MISCONFIGURED)
    | Some secret =>
        if negb (truthy secret) then Respond (fail 500 MISCONFIGURED)
        else if (secret =? key)%string then Next
        else Respond (fail 403 INVALID)
    end.
Proof.
  intros Hkey Hh. unfold auth.verifyRegistrationToken. rewrite Hh.
  cbv beta iota zeta.
  rewrite truthy_bearer, startsWith_bearer, !substring_bearer.
  apply truthy_true_iff in Hkey. rewrite Hkey. cbn [negb]. cbv beta iota.
  destruct (REGISTRATION_API_KEY E) as [secret|]; [|reflexivity].
  destruct (truthy secret); cbn [negb]; cbv beta iota; [|reflexivity].
  unfold timingSafeEqual.
  destruct (Nat.eqb (List.length (bufferFrom secret))
                    (List.length (bufferFrom key))) eqn:Hlen;
    cbn [negb]; cbv beta iota.
  - destruct (bytes_eqb (bufferFrom secret) (bufferFrom key)) eqn:Hb.
    + apply bytes_eqb_eq, bufferFrom_inj in Hb. subst.
      now rewrite String.eqb_refl.
    + destruct (String.eqb_spec secret key) as [->|]; [|reflexivity].
      assert (bytes_eqb (bufferFrom key) (bufferFrom key) = true)
        by now apply bytes_eqb_eq.
      congruence.
  - destruct (String.eqb_spec secret key) as [->|]; [|reflexivity].
    now rewrite Nat.eqb_refl in Hlen.
Qed.

(** Any other header is answered 401. *)
Lemma gate_on_other_header :
  (forall key, key <> EmptyString ->
     authorization req <> Some ("Bearer " ++ key)%string) ->
  exists msg, auth.verifyRegistrationToken E req = Respond (fail 401 msg).
Proof.
  intro Hno. unfold auth.verifyRegistrationToken.
  destruct (authorization req) as [h|] eqn:Hh; [|eauto].
  cbv beta iota zeta.
  destruct (truthy h) eqn:Ht; cbn [negb]; cbv beta iota; [|eauto].
  destruct (startsWith h "Bearer ") eqn:Hp; cbn [negb]; cbv beta iota; [|eauto].
  destruct (truthy (substring h 7)) eqn:Hk; cbn [negb]; cbv beta iota; [|eauto].
  exfalso. apply (Hno (substring h 7)).
  - now apply truthy_true_iff.
  - f_equal. exact (startsWith_split "Bearer " h Hp).
Qed.

(** C5.  The registration gate answers 401 when the credential is missing
    or not of the form [Bearer <key>]; for a well-formed credential it
    answers 500 when no secret is configured, 403 when the key differs
    from the configured secret in length or in content, and passes control
    on when they are equal; it passes control on exactly when the header is
    [Bearer <key>] and [key] is the configured, non-empty secret.  (The
    comparison is [timingSafeEqual] behind the length check; its running
    time is outside this embedding.) *)
Theorem verifyRegistrationToken_outcomes :
  ((forall key, key <> EmptyString ->
      authorization req <> Some ("Bearer " ++ key)%string) ->
   exists msg, auth.verifyRegistrationToken E req = Respond (fail 401 msg))
  /\
  (forall key,
     key <> EmptyString ->
     authorization req = Some ("Bearer " ++ key)%string ->
     ((REGISTRATION_API_KEY E = None
       \/ REGISTRATION_API_KEY E = Some EmptyString) ->
      auth.verifyRegistrationToken E req = Respond (fail 500 MISCONFIGURED))
     /\
     (forall secret,
        REGISTRATION_API_KEY E = Some secret ->
        secret <> EmptyString ->
        (List.length (bufferFrom key) <> List.length (bufferFrom secret) ->
         auth.verifyRegistrationToken E req = Respond (fail 403 INVALID))
        /\ (key <> secret ->
            auth.verifyRegistrationToken E req = Respond (fail 403 INVALID))
        /\ (key = secret -> auth.verifyRegistrationToken E req = Next)))
  /\
  (auth.verifyRegistrationToken E req = Next <->
   exists key,
     key <> EmptyString
     /\ authorization req = Some ("Bearer " ++ key)%string
     /\ REGISTRATION_API_KEY E = Some key).
Proof.
  split; [exact gate_on_other_header|]. split.
  - intros key Hkey Hh. rewrite (gate_on_bearer key Hkey Hh). split.
    + intros [-> | ->]; reflexivity.
    + intros secret -> Hs. apply truthy_true_iff in Hs. rewrite Hs.
      simpl negb. cbv iota.
      assert (Hne : key <> secret ->
                    (if (secret =? key)%string then Next
                     else Respond (fail 403 INVALID)) = Respond (fail 403 INVALID)).
      { intro Hd. destruct (String.eqb_spec secret key); congruence. }
      repeat split.
      * intro Hl. apply Hne. intros ->. now apply Hl.
      * exact Hne.
      * intros ->. now rewrite String.eqb_refl.
  - split.
    + intro Hnext.
      destruct (authorization req) as [h|] eqn:Hh.
      2:{ unfold auth.verifyRegistrationToken in Hnext. rewrite Hh in Hnext.
          discriminate. }
      assert (Hex : exists key, key <> EmptyString
                                /\ Some h = Some ("Bearer " ++ key)%string).
      { destruct (truthy (substring h 7)) eqn:Hk;
          destruct (startsWith h "Bearer ") eqn:Hp.
        - exists (substring h 7). split; [now apply truthy_true_iff|].
          f_equal. exact (startsWith_split "Bearer " h Hp).
        - exfalso. unfold auth.verifyRegistrationToken in Hnext.
          rewrite Hh, Hp in Hnext. destruct (truthy h); discriminate.
        - exfalso. unfold auth.verifyRegistrationToken in Hnext.
          rewrite Hh, Hp, Hk in Hnext. destruct (truthy h); discriminate.
        - exfalso. unfold auth.verifyRegistrationToken in Hnext.
          rewrite Hh, Hp in Hnext. destruct (truthy h); discriminate. }
      destruct Hex as [key [Hkey Hh']]. exists key. repeat split; auto.
      rewrite <- Hh in Hh'. rewrite (gate_on_bearer key Hkey Hh') in Hnext.
      destruct (REGISTRATION_API_KEY E) as [secret|]; [|discriminate].
      destruct (truthy secret); simpl in Hnext; [|discriminate].
      destruct (String.eqb_spec secret key); [congruence | discriminate].
    + intros [key [Hkey [Hh Hs]]]. rewrite (gate_on_bearer key Hkey Hh), Hs.
      apply truthy_true_iff in Hkey. rewrite Hkey. simpl.
      now rewrite String.eqb_refl.
Qed.

End RegistrationGate.

Lemma verifyRegistrationToken_outcomes_witness :
  auth.verifyRegistrationToken
    (Sample.env 0) (Sample.request (Some "Bearer s3cret") tt) = Next.
Proof.
  refine (proj2 (proj2 (proj2 (proj1 (proj2
    (verifyRegistrationToken_outcomes
       (Sample.env 0) (Sample.request (Some "Bearer s3cret") tt)))
    "s3cret" _ _) "s3cret" _ _)) _);
    first [reflexivity | discriminate].
Defined.

(** ** The token issuer *)

Section TokenIssuer.

Context {zone : Calendar}.

Variable t : Date.
Variable entropy : nat -> byte.
Variable user : User.t.
Variable label : string.
Variable T : PersonalAccessToken.table.

Let fresh : string := toHex (randomBytes entropy 32).

Lemma issued_string_length : String.length fresh = 64%nat.
Proof.
  unfold fresh. now rewrite toHex_length, randomBytes_length.
Qed.

(** When the drawn string is already stored, the unique index rejects the
    insert and the table is left as it was. *)
Lemma createToken_collision :
  (exists x, In x (PersonalAccessToken.rows T)
             /\ PersonalAccessToken.token x = fresh) ->
  PersonalAccessToken.createToken t entropy user label T
  = Throw (SequelizeUniqueConstraintError "token").
Proof.
  intros [x [Hin Hx]].
  unfold PersonalAccessToken.createToken, PersonalAccessToken.create.
  fold fresh.
  destruct (List.existsb
              (fun r => (PersonalAccessToken.token r =? fresh)%string)
              (PersonalAccessToken.rows T)) eqn:He; [reflexivity|].
  rewrite existsb_false_iff in He. specialize (He x Hin). cbv beta in He.
  rewrite Hx, String.eqb_refl in He. discriminate.
Qed.

(** With a draw that is not stored yet the insert goes through, and the
    row is the one [createToken] builds. *)
Lemma createToken_of_fresh_draw :
  (forall x, In x (PersonalAccessToken.rows T) ->
             PersonalAccessToken.token x <> fresh) ->
  let r :=
    {| PersonalAccessToken.id := PersonalAccessToken.seq T;
       PersonalAccessToken.tokenable_type := PersonalAccessToken.USER_TYPE;
       PersonalAccessToken.tokenable_id := User.id user;
       PersonalAccessToken.name := label;
       PersonalAccessToken.token := fresh;
       PersonalAccessToken.abilities := Some "*";
       PersonalAccessToken.last_used_at := Some t;
       PersonalAccessToken.expires_at := Some (addOneDay t);
       PersonalAccessToken.created_at := t;
       PersonalAccessToken.updated_at := t |} in
  PersonalAccessToken.createToken t entropy user label T
  = Ok (r, {| PersonalAccessToken.rows :=
                (PersonalAccessToken.rows T ++ [r])%list;
              PersonalAccessToken.seq := PersonalAccessToken.seq T + 1 |}).
Proof.
  intro Hfresh.
  unfold PersonalAccessToken.createToken, PersonalAccessToken.create.
  fold fresh.
  assert (He : List.existsb
                 (fun r => (PersonalAccessToken.token r =? fresh)%string)
                 (PersonalAccessToken.rows T) = false).
  { apply existsb_false_iff. intros x Hx. apply String.eqb_neq.
    now apply Hfresh. }
  now rewrite He.
Qed.

(** The string the issuer draws, written out: the hexadecimal form of the
    first 32 bytes the random source delivers. *)
Let drawn : string := toHex (List.map entropy (List.seq 0 32)).

(** C8, as the code has it.  A call of the token issuer whose drawn string
    is not stored yet appends exactly one row.  Its token is the drawn
    string, the hexadecimal form of 32 bytes read from the random source,
    64 characters long; its last-used timestamp and its creation time are
    the issuance time; and its expiry is the issuance time plus 24 hours
    whenever the calendar day that begins at the issuance time has 24
    hours in the process time zone.  (The quality of the random source is
    outside the embedding: the source is an input.) *)
Theorem createToken_creates_one_row :
  (forall x, In x (PersonalAccessToken.rows T) ->
             PersonalAccessToken.token x <> drawn) ->
  exists r,
    PersonalAccessToken.createToken t entropy user label T
    = Ok (r, {| PersonalAccessToken.rows :=
                  (PersonalAccessToken.rows T ++ [r])%list;
                PersonalAccessToken.seq := PersonalAccessToken.seq T + 1 |})
    /\ PersonalAccessToken.token r = drawn
    /\ String.length (PersonalAccessToken.token r) = 64%nat
    /\ (addOneDay t = t + 24 * 60 * 60 * 1000 ->
        PersonalAccessToken.expires_at r = Some (t + 24 * 60 * 60 * 1000))
    /\ PersonalAccessToken.last_used_at r = Some t
    /\ PersonalAccessToken.created_at r = t
    /\ PersonalAccessToken.tokenable_id r = User.id user
    /\ PersonalAccessToken.tokenable_type r = PersonalAccessToken.USER_TYPE
    /\ PersonalAccessToken.name r = label.
Proof.
  intro Hfresh. eexists. split.
  - exact (createToken_of_fresh_draw Hfresh).
  - cbn. repeat split; auto using issued_string_length.
    intro Hday. now rewrite Hday.
Qed.

End TokenIssuer.

Lemma createToken_creates_one_row_witness :
  exists r,
    PersonalAccessToken.createToken
      1000 (fun _ => x2a%byte) Sample.alice "API Login"
      (tokens (Sample.database []))
    = Ok (r, {| PersonalAccessToken.rows := [r];
                PersonalAccessToken.seq := 11 |})
    /\ PersonalAccessToken.token r
       = "2a2a2a2a2a2a2a2a2a2a2a2a2a2a2a2a2a2a2a2a2a2a2a2a2a2a2a2a2a2a2a2a"
    /\ PersonalAccessToken.expires_at r = Some 86401000
    /\ PersonalAccessToken.last_used_at r = Some 1000.
Proof.
  destruct (createToken_creates_one_row
              1000 (fun _ => x2a%byte) Sample.alice "API Login"
              (tokens (Sample.database [])))
    as [r [Hr [Ht [_ [He [Hl _]]]]]].
  - intros x [].
  - exists r. split; [exact Hr|]. split; [exact Ht|].
    split; [exact (He eq_refl) | exact Hl].
Defined.

(** C8, as stated, fails on a call whose drawn string is already stored:
    Bob's row holds the string the random source delivers, the unique index
    on [token] rejects the insert, and the call creates no row. *)
Lemma createToken_on_stored_draw_creates_no_row :
  PersonalAccessToken.createToken
    5000 (entropy (Sample.env 5000)) Sample.alice "API Login"
    (tokens Sample.bobHoldsTheDraw)
  = Throw (SequelizeUniqueConstraintError "token")
  /\ ~ (exists r T',
          PersonalAccessToken.createToken
            5000 (entropy (Sample.env 5000)) Sample.alice "API Login"
            (tokens Sample.bobHoldsTheDraw)
          = Ok (r, T')).
Proof.
  split; [reflexivity|].
  intros [r [T' H]]. vm_compute in H. discriminate.
Qed.

(** ** Registration *)

Section Register.

Context {fold : CaseFold}.

Variable E : Env.
Variable req : Request authController.RegisterBody.
Variable db : DB.

Let b := body req.

(** No stored email equals the request's email up to case, and no stored
    username equals the request's username. *)
Hypothesis email_free :
  forall u, In u (User.rows (users db)) ->
            toLowerCase (User.email u) <> toLowerCase (authController.email b).
Hypothesis username_free :
  forall u, In u (User.rows (users db)) ->
            User.username u <> authController.username b.

Lemma lookup_finds_nobody :
  User.findOne (authController.whereTaken b) (users db) = None.
Proof.
  unfold User.findOne. apply find_none_iff. intros u Hu.
  unfold authController.whereTaken. apply orb_false_iff. split.
  - apply String.eqb_neq. intro He. apply (email_free u Hu).
    rewrite He. apply toLowerCase_idem.
  - apply String.eqb_neq. now apply username_free.
Qed.

(** C4.  A registration that passed validation and whose email (compared
    without regard to case: lower-cased on both sides, whatever letters
    [toLowerCase] folds) and username are not taken appends exactly one
    user row, answers 201 with the profile of that row, and leaves the
    token table as it was. *)
Theorem register_creates_one_user_and_no_token :
  validationErrors req = [] ->
  userValidators E (authController.newUserFields b) = [] ->
  exists newUser,
    authController.register E req db
    = ({| users := {| User.rows := (User.rows (users db) ++ [newUser])%list;
                      User.seq := User.seq (users db) + 1 |};
          tokens := tokens db |},
       {| status := 201; success := true;
          message := "User berhasil didaftarkan";
          data := Some (UserData (User.getProfile newUser));
          errors := None |})
    /\ User.email newUser = toLowerCase (authController.email b)
    /\ User.username newUser = authController.username b
    /\ User.name newUser = authController.name b.
Proof.
  intros Hvalid Hmodel. unfold authController.register.
  rewrite Hvalid. fold b. cbv zeta. rewrite lookup_finds_nobody.
  unfold User.create. rewrite Hmodel.
  assert (He : List.existsb
                 (fun r => (User.email r
                            =? User.f_email (authController.newUserFields b))%string)
                 (User.rows (users db)) = false).
  { apply existsb_false_iff. intros u Hu. apply String.eqb_neq.
    cbn. intro Heq. apply (email_free u Hu). rewrite Heq.
    apply toLowerCase_idem. }
  assert (Hu : List.existsb
                 (fun r => (User.username r
                            =? User.f_username (authController.newUserFields b))%string)
                 (User.rows (users db)) = false).
  { apply existsb_false_iff. intros u Hin. apply String.eqb_neq.
    cbn. now apply username_free. }
  rewrite He, Hu. eexists. split; [reflexivity|]. cbn. auto.
Qed.

End Register.

Lemma register_creates_one_user_and_no_token_witness :
  exists newUser,
    authController.register
      (Sample.env 500) (Sample.request None Sample.registerCarol)
      (Sample.database [])
    = ({| users := {| User.rows := [Sample.alice; Sample.bob; newUser];
                      User.seq := 4 |};
          tokens := tokens (Sample.database []) |},
       {| status := 201; success := true;
          message := "User berhasil didaftarkan";
          data := Some (UserData (User.getProfile newUser));
          errors := None |})
    /\ User.email newUser = "carol@x.com".
Proof.
  destruct (register_creates_one_user_and_no_token
              (Sample.env 500) (Sample.request None Sample.registerCarol)
              (Sample.database []))
    as [u [Hr [He _]]].
  - intros u [<-|[<-|[]]]; vm_compute; discriminate.
  - intros u [<-|[<-|[]]]; vm_compute; discriminate.
  - reflexivity.
  - reflexivity.
  - exists u. split; [exact Hr | exact He].
Defined.

(** ** Token validation *)

(** After [update] the instance carries the instant as [last_used_at]. *)
Lemma touch_last_used_at (t : Date) (r : PersonalAccessToken.t) :
  PersonalAccessToken.last_used_at (PersonalAccessToken.touch t r) = Some t.
Proof.
  unfold PersonalAccessToken.touch.
  destruct (PersonalAccessToken.last_used_at r) as [d|] eqn:Hd;
    [|reflexivity].
  destruct (Z.eqb_spec d t) as [->|]; [exact Hd | reflexivity].
Qed.

(** [update] changes no column besides [last_used_at] and [updated_at]:
    what does not read these two is the same before and after. *)
Lemma touch_keeps {K} (f : PersonalAccessToken.t -> K) :
  (forall t r, f (PersonalAccessToken.stamp t r) = f r) ->
  forall t r, f (PersonalAccessToken.touch t r) = f r.
Proof.
  intros Hf t r. unfold PersonalAccessToken.touch.
  destruct (PersonalAccessToken.last_used_at r) as [d|]; [|apply Hf].
  destruct (d =? t); [reflexivity | apply Hf].
Qed.

Lemma touch_id (t : Date) (r : PersonalAccessToken.t) :
  PersonalAccessToken.id (PersonalAccessToken.touch t r)
  = PersonalAccessToken.id r.
Proof. now apply touch_keeps. Qed.

Lemma touch_touch (t : Date) (r : PersonalAccessToken.t) :
  PersonalAccessToken.touch t (PersonalAccessToken.touch t r)
  = PersonalAccessToken.touch t r.
Proof.
  unfold PersonalAccessToken.touch at 1.
  now rewrite touch_last_used_at, Z.eqb_refl.
Qed.

(** Stamping the same instant twice is stamping it once. *)
Lemma update_last_used_twice (t : Date) (r : PersonalAccessToken.t)
    (T : PersonalAccessToken.table) :
  let '(r1, T1) := PersonalAccessToken.update_last_used t r T in
  PersonalAccessToken.update_last_used t r1 T1 = (r1, T1).
Proof.
  unfold PersonalAccessToken.update_last_used. cbv zeta.
  rewrite touch_touch, touch_id. f_equal.
  destruct T as [rows seq]. cbn. f_equal.
  rewrite List.map_map. apply List.map_ext. intro x.
  destruct (PersonalAccessToken.id x =? PersonalAccessToken.id r) eqn:Hx.
  - now rewrite touch_id, Z.eqb_refl.
  - now rewrite Hx.
Qed.

Lemma jwtVerdict_none_iff (E : Env) (tok : string) (u : User.t) :
  auth.jwtVerdict E tok u = None <->
  (verifyToken E tok = None
   \/ exists d, verifyToken E tok = Some d
                /\ Jwt.type d = Some "access"
                /\ Jwt.id d = Some (User.id u)).
Proof.
  unfold auth.jwtVerdict. destruct (verifyToken E tok) as [d|]; [|tauto].
  destruct d as [ty i]. cbn.
  split.
  - destruct ty as [s|]; cbn; [|discriminate].
    destruct (String.eqb_spec s "access") as [->|]; cbn; [|discriminate].
    destruct i as [n|]; cbn; [|discriminate].
    destruct (Z.eqb_spec n (User.id u)) as [->|]; cbn; [|discriminate].
    intros _. right. eexists. split; [reflexivity|]. now split.
  - intros [Hn | [d [Hd [Hty Hid]]]]; [discriminate|].
    injection Hd as <-. cbn in Hty, Hid. subst.
    cbn. now rewrite Z.eqb_refl.
Qed.

(** Whatever the inner [try] block answers is a 401. *)
Lemma jwtVerdict_status (E : Env) (tok : string) (u : User.t) (r : Response) :
  auth.jwtVerdict E tok u = Some r -> exists msg, r = fail 401 msg.
Proof.
  unfold auth.jwtVerdict. destruct (verifyToken E tok) as [d|]; [|discriminate].
  destruct (negb (auth.is_access (Jwt.type d))).
  - intros [= <-]. eauto.
  - destruct (negb (auth.same_id (Jwt.id d) (User.id u)));
      [intros [= <-]; eauto | discriminate].
Qed.

Section Authenticate.

Context {B : Type}.
Variable E : Env.
Variable req : Request B.
Variable db : DB.

(** *** Requests without a usable bearer credential *)

Lemma authenticate_without_bearer :
  (forall tok, tok <> EmptyString ->
     authorization req <> Some ("Bearer " ++ tok)%string) ->
  exists msg, auth.authenticate E req db = (db, req, Respond (fail 401 msg)).
Proof.
  intro Hno. unfold auth.authenticate.
  destruct (authorization req) as [h|] eqn:Hh; [|eauto].
  cbv beta iota zeta.
  destruct (truthy h) eqn:Ht; cbn [negb]; cbv beta iota; [|eauto].
  destruct (startsWith h "Bearer ") eqn:Hp; cbn [negb]; cbv beta iota; [|eauto].
  destruct (truthy (substring h 7)) eqn:Hk; cbn [negb]; cbv beta iota; [|eauto].
  exfalso. apply (Hno (substring h 7)).
  - now apply truthy_true_iff.
  - f_equal. exact (startsWith_split "Bearer " h Hp).
Qed.

(** *** Requests carrying [Bearer tok] *)

Variable tok : string.
Hypothesis tok_given : tok <> EmptyString.
Hypothesis bearer : authorization req = Some ("Bearer " ++ tok)%string.

Ltac enter :=
  unfold auth.authenticate; rewrite bearer; cbv beta iota zeta;
  rewrite truthy_bearer, startsWith_bearer, !substring_bearer;
  rewrite (proj2 (truthy_true_iff tok) tok_given);
  cbn [negb]; cbv beta iota.

Lemma authenticate_unknown_token :
  PersonalAccessToken.findOne
    (PersonalAccessToken.whereUserToken tok) (tokens db) = None ->
  auth.authenticate E req db
  = (db, req,
     Respond (fail 401 "Token tidak ditemukan di database. Akses ditolak.")).
Proof. intro Hf. enter. now rewrite Hf. Qed.

Variable r : PersonalAccessToken.t.
Hypothesis stored :
  PersonalAccessToken.findOne
    (PersonalAccessToken.whereUserToken tok) (tokens db) = Some r.

Lemma authenticate_orphan_token :
  User.findByPk (PersonalAccessToken.tokenable_id r) (users db) = None ->
  auth.authenticate E req db
  = (db, req, Respond (fail 401 "User tidak ditemukan. Akses ditolak.")).
Proof. intro Hu. enter. now rewrite stored, Hu. Qed.

Variable u : User.t.
Hypothesis owner :
  User.findByPk (PersonalAccessToken.tokenable_id r) (users db) = Some u.

Lemma authenticate_expired_token :
  auth.expired (now E) r = true ->
  auth.authenticate E req db
  = (db, req, Respond (fail 401 "Token sudah expired. Akses ditolak.")).
Proof. intro Hx. enter. now rewrite stored, owner, Hx. Qed.

Hypothesis unexpired : auth.expired (now E) r = false.

(** The database after the first [update({ last_used_at })]. *)
Let db1 : DB :=
  {| users := users db;
     tokens := snd (PersonalAccessToken.update_last_used
                      (now E) r (tokens db)) |}.

Lemma authenticate_jwt_rejected (resp : Response) :
  auth.jwtVerdict E tok u = Some resp ->
  auth.authenticate E req db = (db1, req, Respond resp).
Proof.
  intro Hj. enter. rewrite stored, owner, unexpired.
  unfold PersonalAccessToken.update_last_used at 1. cbv beta iota zeta.
  now rewrite Hj.
Qed.

Hypothesis jwt_passes : auth.jwtVerdict E tok u = None.

Lemma authenticate_deactivated :
  User.isActive u = false ->
  auth.authenticate E req db
  = (db1, req,
     Respond (fail 401 "Akun telah dinonaktifkan. Silakan hubungi admin.")).
Proof.
  intro Ha. enter. rewrite stored, owner, unexpired.
  unfold PersonalAccessToken.update_last_used at 1. cbv beta iota zeta.
  now rewrite jwt_passes, Ha.
Qed.

Lemma authenticate_accepts :
  User.isActive u = true ->
  auth.authenticate E req db
  = (db1, attach req u tok (PersonalAccessToken.touch (now E) r), Next).
Proof.
  intro Ha. enter. rewrite stored, owner, unexpired.
  pose proof (update_last_used_twice (now E) r (tokens db)) as H2.
  unfold db1.
  destruct (PersonalAccessToken.update_last_used (now E) r (tokens db))
    as [r1 T1] eqn:Hup.
  rewrite jwt_passes, Ha. cbn [negb]. cbv beta iota. rewrite H2.
  cbn [snd]. unfold PersonalAccessToken.update_last_used in Hup.
  injection Hup as <- _. reflexivity.
Qed.

End Authenticate.

(** Every run of [authenticate] either passes control on, having found the
    row and its active owner and attached them, or answers 401 and leaves
    the request as it came. *)
Lemma authenticate_cases {B} (E : Env) (req : Request B) (db : DB) :
  (exists tok r u,
      tok <> EmptyString
      /\ authorization req = Some ("Bearer " ++ tok)%string
      /\ PersonalAccessToken.findOne
           (PersonalAccessToken.whereUserToken tok) (tokens db) = Some r
      /\ User.findByPk (PersonalAccessToken.tokenable_id r) (users db) = Some u
      /\ auth.expired (now E) r = false
      /\ auth.jwtVerdict E tok u = None
      /\ User.isActive u = true
      /\ auth.authenticate E req db
         = ({| users := users db;
               tokens := snd (PersonalAccessToken.update_last_used
                                (now E) r (tokens db)) |},
            attach req u tok (PersonalAccessToken.touch (now E) r),
            Next))
  \/ (exists db' msg,
        auth.authenticate E req db = (db', req, Respond (fail 401 msg))).
Proof.
  assert (Hform :
    (exists tok, tok <> EmptyString
                 /\ authorization req = Some ("Bearer " ++ tok)%string)
    \/ (forall tok, tok <> EmptyString ->
          authorization req <> Some ("Bearer " ++ tok)%string)).
  { destruct (authorization req) as [h|]; [|right; intros; discriminate].
    destruct (startsWith h "Bearer ") eqn:Hp.
    - destruct (truthy (substring h 7)) eqn:Hk.
      + left. exists (substring h 7). split; [now apply truthy_true_iff|].
        f_equal. exact (startsWith_split "Bearer " h Hp).
      + right. intros tok Htok Heq.
        assert (Hh : h = ("Bearer " ++ tok)%string) by congruence.
        rewrite Hh, substring_bearer in Hk.
        apply truthy_false_iff in Hk. contradiction.
    - right. intros tok _ Heq.
      assert (Hh : h = ("Bearer " ++ tok)%string) by congruence.
      rewrite Hh, startsWith_bearer in Hp. discriminate. }
  destruct Hform as [[tok [Htok Hh]] | Hno].
  2:{ right. destruct (authenticate_without_bearer E req db Hno) as [msg Hm].
      eauto. }
  destruct (PersonalAccessToken.findOne
              (PersonalAccessToken.whereUserToken tok) (tokens db))
    as [r|] eqn:Hr.
  2:{ right. rewrite (authenticate_unknown_token E req db tok Htok Hh Hr).
      eauto. }
  destruct (User.findByPk (PersonalAccessToken.tokenable_id r) (users db))
    as [u|] eqn:Hu.
  2:{ right. rewrite (authenticate_orphan_token E req db tok Htok Hh r Hr Hu).
      eauto. }
  destruct (auth.expired (now E) r) eqn:Hx.
  { right.
    rewrite (authenticate_expired_token E req db tok Htok Hh r Hr u Hu Hx).
    eauto. }
  destruct (auth.jwtVerdict E tok u) as [resp|] eqn:Hj.
  { right.
    rewrite (authenticate_jwt_rejected E req db tok Htok Hh r Hr u Hu Hx resp Hj).
    destruct (jwtVerdict_status E tok u resp Hj) as [msg ->]. eauto. }
  destruct (User.isActive u) eqn:Ha.
  - left. exists tok, r, u. repeat (split; [assumption|]).
    exact (authenticate_accepts E req db tok Htok Hh r Hr u Hu Hx Hj Ha).
  - right.
    rewrite (authenticate_deactivated E req db tok Htok Hh r Hr u Hu Hx Hj Ha).
    eauto.
Qed.

(** At the expiry instant itself a stored token is still accepted. *)
Lemma authenticate_at_expiry_instant {B} (E : Env) (req : Request B)
    (db : DB) (tok : string) (r : PersonalAccessToken.t) (u : User.t) :
  tok <> EmptyString ->
  authorization req = Some ("Bearer " ++ tok)%string ->
  PersonalAccessToken.findOne
    (PersonalAccessToken.whereUserToken tok) (tokens db) = Some r ->
  PersonalAccessToken.expires_at r = Some (now E) ->
  User.findByPk (PersonalAccessToken.tokenable_id r) (users db) = Some u ->
  User.isActive u = true ->
  verifyToken E tok = None ->
  snd (auth.authenticate E req db) = Next.
Proof.
  intros Htok Hh Hr He Hu Ha Hj.
  rewrite (authenticate_accepts E req db tok Htok Hh r Hr u Hu);
    [reflexivity | | | exact Ha].
  - unfold auth.expired. rewrite He. apply Z.ltb_irrefl.
  - unfold auth.jwtVerdict. now rewrite Hj.
Qed.

Section AuthenticateDecision.

Context {B : Type}.
Variable E : Env.
Variable req : Request B.
Variable db : DB.
Variable tok : string.

Hypothesis tok_given : tok <> EmptyString.
Hypothesis bearer : authorization req = Some ("Bearer " ++ tok)%string.

(** The instant of the request is not the very instant at which the
    presented token expires. *)
Hypothesis off_expiry_instant :
  forall r,
    PersonalAccessToken.findOne
      (PersonalAccessToken.whereUserToken tok) (tokens db) = Some r ->
    PersonalAccessToken.expires_at r <> Some (now E).


Lemma valid_not_expired (r : PersonalAccessToken.t) :
  PersonalAccessToken.isValid (now E) r = true ->
  auth.expired (now E) r = false.
Proof.
  unfold PersonalAccessToken.isValid, auth.expired.
  destruct (PersonalAccessToken.expires_at r) as [e|]; [|reflexivity].
  intro H. apply Z.ltb_lt in H. apply Z.ltb_ge. lia.
Qed.



End AuthenticateDecision.



(** C6, on the code.  A request whose token is stored and unexpired and
    whose owner is deactivated is answered with status 401, not 403; when
    the inner JWT block lets it through, the message is the one about the
    deactivated account.  The last-used stamp has been written by then. *)
Theorem authenticate_deactivated_answers_401 :
  forall {B} (E : Env) (req : Request B) (db : DB) (tok : string)
         (r : PersonalAccessToken.t) (u : User.t),
    tok <> EmptyString ->
    authorization req = Some ("Bearer " ++ tok)%string ->
    PersonalAccessToken.findOne
      (PersonalAccessToken.whereUserToken tok) (tokens db) = Some r ->
    PersonalAccessToken.isValid (now E) r = true ->
    User.findByPk (PersonalAccessToken.tokenable_id r) (users db) = Some u ->
    User.isActive u = false ->
    exists resp,
      auth.authenticate E req db
      = ({| users := users db;
            tokens := snd (PersonalAccessToken.update_last_used
                             (now E) r (tokens db)) |},
         req, Respond resp)
      /\ status resp = 401
      /\ (verifyToken E tok = None ->
          resp = fail 401 "Akun telah dinonaktifkan. Silakan hubungi admin.").
Proof.
  intros B E req db tok r u Htok Hh Hr Hv Hu Ha.
  pose proof (valid_not_expired E r Hv) as Hx.
  destruct (auth.jwtVerdict E tok u) as [resp|] eqn:Hj.
  - exists resp. split.
    + exact (authenticate_jwt_rejected E req db tok Htok Hh r Hr u Hu Hx resp Hj).
    + destruct (jwtVerdict_status E tok u resp Hj) as [msg ->].
      split; [reflexivity|]. intro Hn. unfold auth.jwtVerdict in Hj.
      rewrite Hn in Hj. discriminate.
  - eexists. split.
    + exact (authenticate_deactivated E req db tok Htok Hh r Hr u Hu Hx Hj Ha).
    + split; reflexivity.
Qed.

Lemma authenticate_deactivated_answers_401_witness :
  exists resp,
    snd (auth.authenticate
           (Sample.env 5000) (Sample.request (Some "Bearer decaf") tt)
           Sample.bobSession) = Respond resp
    /\ status resp = 401
    /\ resp = fail 401 "Akun telah dinonaktifkan. Silakan hubungi admin.".
Proof.
  destruct (authenticate_deactivated_answers_401
              (Sample.env 5000) (Sample.request (Some "Bearer decaf") tt)
              Sample.bobSession "decaf"
              (Sample.session 1 2 "decaf" (Some 9000) 1000) Sample.bob)
    as [resp [Hr [Hs Hm]]]; try reflexivity; try discriminate.
  exists resp. rewrite Hr. repeat split; auto.
Defined.

(** ** Issued tokens over time *)

Lemma createToken_inv {zone : Calendar} (t : Date) (entropy : nat -> byte)
    (u : User.t) (label : string) (T T' : PersonalAccessToken.table)
    (r : PersonalAccessToken.t) :
  PersonalAccessToken.createToken t entropy u label T = Ok (r, T') ->
  List.existsb
    (fun x => (PersonalAccessToken.token x
               =? toHex (randomBytes entropy 32))%string)
    (PersonalAccessToken.rows T) = false
  /\ PersonalAccessToken.token r = toHex (randomBytes entropy 32)
  /\ PersonalAccessToken.tokenable_type r = PersonalAccessToken.USER_TYPE
  /\ PersonalAccessToken.tokenable_id r = User.id u
  /\ PersonalAccessToken.expires_at r = Some (addOneDay t)
  /\ PersonalAccessToken.rows T' = (PersonalAccessToken.rows T ++ [r])%list.
Proof.
  unfold PersonalAccessToken.createToken, PersonalAccessToken.create.
  destruct (List.existsb _ (PersonalAccessToken.rows T)) eqn:He;
    [discriminate|].
  intros [= <- <-]. cbn. auto 10.
Qed.

Section IssuedToken.

Context {B : Type} {zone : Calendar}.

(** Issuance: [createToken] succeeds for the registered, active user [u]
    in environment [E0]. *)
Variable E0 : Env.
Variable db : DB.
Variable u : User.t.
Variable label : string.
Variable r : PersonalAccessToken.t.
Variable T' : PersonalAccessToken.table.

Hypothesis issued :
  PersonalAccessToken.createToken (now E0) (entropy E0) u label (tokens db)
  = Ok (r, T').
Hypothesis registered : User.findByPk (User.id u) (users db) = Some u.
Hypothesis active : User.isActive u = true.

(** Validation: a later request presents the issued string; being 64
    hexadecimal characters, it is not a JWT and [verifyToken] throws. *)
Variable E : Env.
Variable req : Request B.

Hypothesis presented :
  authorization req
  = Some ("Bearer " ++ PersonalAccessToken.token r)%string.
Hypothesis opaque : verifyToken E (PersonalAccessToken.token r) = None.

Let db' : DB := {| users := users db; tokens := T' |}.

Lemma issued_token_nonempty : PersonalAccessToken.token r <> EmptyString.
Proof.
  destruct (createToken_inv _ _ _ _ _ _ _ issued) as [_ [Ht _]].
  intro Hempty.
  pose proof (toHex_length (randomBytes (entropy E0) 32)) as Hl.
  rewrite <- Ht, Hempty, randomBytes_length in Hl. discriminate.
Qed.

Lemma issued_token_found :
  PersonalAccessToken.findOne
    (PersonalAccessToken.whereUserToken (PersonalAccessToken.token r))
    (tokens db') = Some r.
Proof.
  destruct (createToken_inv _ _ _ _ _ _ _ issued)
    as [He [Ht [Hty [_ [_ Hrows]]]]].
  unfold PersonalAccessToken.findOne. cbn [tokens db']. rewrite Hrows.
  apply find_snoc.
  - apply find_none_iff. intros x Hx.
    rewrite existsb_false_iff in He. specialize (He x Hx). cbv beta in He.
    unfold PersonalAccessToken.whereUserToken. rewrite Ht, He. reflexivity.
  - unfold PersonalAccessToken.whereUserToken.
    now rewrite String.eqb_refl, Hty, String.eqb_refl.
Qed.

Lemma issued_token_owner :
  User.findByPk (PersonalAccessToken.tokenable_id r) (users db') = Some u.
Proof.
  destruct (createToken_inv _ _ _ _ _ _ _ issued) as [_ [_ [_ [Hid _]]]].
  now rewrite Hid.
Qed.

(** The outcome of validating an issued token, at any instant. *)
Lemma issued_token_outcome :
  snd (auth.authenticate E req db')
  = if addOneDay (now E0) <? now E
    then Respond (fail 401 "Token sudah expired. Akses ditolak.")
    else Next.
Proof.
  destruct (createToken_inv _ _ _ _ _ _ _ issued) as [_ [_ [_ [_ [Hexp _]]]]].
  assert (Hx : auth.expired (now E) r = (addOneDay (now E0) <? now E)).
  { unfold auth.expired. now rewrite Hexp. }
  destruct (addOneDay (now E0) <? now E) eqn:Hcmp.
  - now rewrite (authenticate_expired_token E req db' _ issued_token_nonempty
                   presented r issued_token_found u issued_token_owner Hx).
  - rewrite (authenticate_accepts E req db' _ issued_token_nonempty
               presented r issued_token_found u issued_token_owner Hx);
      [reflexivity | | exact active].
    unfold auth.jwtVerdict. now rewrite opaque.
Qed.

(** Inside the session lifetime the token validates. *)
Lemma issued_token_valid_within_lifetime :
  now E0 <= now E < addOneDay (now E0) ->
  snd (auth.authenticate E req db') = Next.
Proof.
  intro Hin. rewrite issued_token_outcome.
  destruct (Z.ltb_spec (addOneDay (now E0)) (now E)); [lia | reflexivity].
Qed.

(** Strictly after the expiry instant it is answered 401, expired. *)
Lemma issued_token_rejected_after_expiry :
  addOneDay (now E0) < now E ->
  snd (auth.authenticate E req db')
  = Respond (fail 401 "Token sudah expired. Akses ditolak.").
Proof.
  intro Hlate. rewrite issued_token_outcome.
  destruct (Z.ltb_spec (addOneDay (now E0)) (now E)); [reflexivity | lia].
Qed.

(** C3, on the code.  At the expiry instant itself, one day of the
    calendar after the issuance time (the issuance time plus the session
    lifetime), the issued token still validates: [authenticate]
    rejects only when the current instant is strictly greater than
    [expires_at], whereas [isValid] and [hasActiveSession] already count
    the token as no longer live. *)
Theorem issued_token_accepted_at_expiry_instant :
  now E = addOneDay (now E0) ->
  snd (auth.authenticate E req db') = Next
  /\ PersonalAccessToken.isValid (now E) r = false
  /\ PersonalAccessToken.whereActiveSession (now E) (User.id u) r = false.
Proof.
  intro Hat.
  destruct (createToken_inv _ _ _ _ _ _ _ issued)
    as [He [Ht [Hty [Hid [Hexp Hrows]]]]].
  split; [|split].
  - rewrite issued_token_outcome.
    destruct (Z.ltb_spec (addOneDay (now E0)) (now E)); [lia | reflexivity].
  - unfold PersonalAccessToken.isValid. rewrite Hexp. apply Z.ltb_ge. lia.
  - unfold PersonalAccessToken.whereActiveSession. rewrite Hexp.
    replace (now E <? addOneDay (now E0)) with false
      by (symmetry; apply Z.ltb_ge; lia).
    apply andb_false_r.
Qed.

End IssuedToken.

Lemma issued_token_accepted_at_expiry_instant_witness :
  exists r T',
    PersonalAccessToken.createToken
      1000 (entropy (Sample.env 1000)) Sample.alice "API Login"
      (tokens (Sample.database [])) = Ok (r, T')
    /\ PersonalAccessToken.expires_at r = Some 86401000
    /\ snd (auth.authenticate
              (Sample.env 86401000)
              (Sample.request
                 (Some ("Bearer " ++ PersonalAccessToken.token r)%string) tt)
              {| users := Sample.people; tokens := T' |}) = Next.
Proof.
  destruct (PersonalAccessToken.createToken
              1000 (entropy (Sample.env 1000)) Sample.alice "API Login"
              (tokens (Sample.database []))) as [[r T']|e] eqn:Hc;
    [|vm_compute in Hc; discriminate].
  exists r, T'. split; [reflexivity|]. split.
  - vm_compute in Hc. injection Hc as <- _. reflexivity.
  - apply (issued_token_accepted_at_expiry_instant
             (Sample.env 1000) (Sample.database []) Sample.alice "API Login"
             r T' Hc eq_refl eq_refl (Sample.env 86401000)).
    + reflexivity.
    + reflexivity.
    + reflexivity.
Defined.

(** ** Login and the single-session check *)

(** What [hasActiveSession] returns is a stored user-token row of that
    user whose expiry is set and lies in the future. *)
Lemma hasActiveSession_some (t : Date) (uid : Z)
    (T : PersonalAccessToken.table) (s : PersonalAccessToken.t) :
  PersonalAccessToken.hasActiveSession t uid T = Some s ->
  In s (PersonalAccessToken.rows T)
  /\ PersonalAccessToken.tokenable_id s = uid
  /\ PersonalAccessToken.tokenable_type s = PersonalAccessToken.USER_TYPE
  /\ exists e, PersonalAccessToken.expires_at s = Some e /\ t < e.
Proof.
  unfold PersonalAccessToken.hasActiveSession, PersonalAccessToken.findOne.
  intro H. apply List.find_some in H. destruct H as [Hin Hw].
  unfold PersonalAccessToken.whereActiveSession in Hw.
  apply andb_true_iff in Hw. destruct Hw as [Hw He].
  apply andb_true_iff in Hw. destruct Hw as [Hid Hty].
  split; [exact Hin|]. split; [now apply Z.eqb_eq|].
  split; [now apply String.eqb_eq|].
  destruct (PersonalAccessToken.expires_at s) as [e|]; [|discriminate].
  exists e. split; [reflexivity | now apply Z.ltb_lt].
Qed.

(** It returns nothing exactly when every user-token row of that user
    has no expiry or an expiry that is not in the future. *)
Lemma hasActiveSession_none_iff (t : Date) (uid : Z)
    (T : PersonalAccessToken.table) :
  PersonalAccessToken.hasActiveSession t uid T = None <->
  (forall x, In x (PersonalAccessToken.rows T) ->
     PersonalAccessToken.tokenable_id x = uid ->
     PersonalAccessToken.tokenable_type x = PersonalAccessToken.USER_TYPE ->
     PersonalAccessToken.expires_at x = None
     \/ exists e, PersonalAccessToken.expires_at x = Some e /\ e <= t).
Proof.
  unfold PersonalAccessToken.hasActiveSession, PersonalAccessToken.findOne.
  rewrite find_none_iff. split.
  - intros H x Hx Hid Hty. specialize (H x Hx).
    unfold PersonalAccessToken.whereActiveSession in H.
    rewrite Hid, Z.eqb_refl, Hty, String.eqb_refl in H. cbn in H.
    destruct (PersonalAccessToken.expires_at x) as [e|]; [|now left].
    right. exists e. split; [reflexivity | now apply Z.ltb_ge].
  - intros H x Hx. unfold PersonalAccessToken.whereActiveSession.
    destruct (Z.eqb_spec (PersonalAccessToken.tokenable_id x) uid) as [Hid|];
      [|reflexivity].
    destruct (String.eqb_spec (PersonalAccessToken.tokenable_type x)
                              PersonalAccessToken.USER_TYPE) as [Hty|];
      [|reflexivity].
    cbn. destruct (H x Hx Hid Hty) as [-> | [e [-> He]]]; [reflexivity|].
    now apply Z.ltb_ge.
Qed.

Lemma store_store (u1 u2 : User.t) (T : User.table) :
  User.id u1 = User.id u2 ->
  User.store u2 (User.store u1 T) = User.store u2 T.
Proof.
  intro Hid. unfold User.store. cbn. f_equal.
  rewrite List.map_map. apply List.map_ext. intro x.
  rewrite Hid. destruct (User.id x =? User.id u2) eqn:Hx; [|now rewrite Hx].
  now rewrite Hid, Z.eqb_refl.
Qed.

Lemma findByPk_store (u found : User.t) (T : User.table)
    (where_ : User.t -> bool) :
  User.findOne where_ T = Some found ->
  User.id u = User.id found ->
  User.findByPk (User.id found) (User.store u T) = Some u.
Proof.
  unfold User.findOne, User.findByPk, User.store. cbn.
  intros Hf Hid. apply List.find_some in Hf. destruct Hf as [Hin _].
  rewrite Hid.
  induction (User.rows T) as [|x l IH]; [destruct Hin|].
  cbn. destruct (User.id x =? User.id found) eqn:Hx.
  - now rewrite Hid, Z.eqb_refl.
  - rewrite Hx. destruct Hin as [->|Hin]; [|now apply IH].
    now rewrite Z.eqb_refl in Hx.
Qed.

Lemma refreshed_provided (v current : string) :
  v <> EmptyString -> authController.refreshed (Some v) current = v.
Proof.
  intro Hv. unfold authController.refreshed.
  apply truthy_true_iff in Hv. rewrite Hv. cbn.
  destruct (String.eqb_spec v current); cbn; congruence.
Qed.

Section Login.

Context {fold : CaseFold} {zone : Calendar}.

Variable E : Env.
Variable req : Request authController.LoginBody.
Variable db : DB.

Let b := body req.

(** The row [login] has written by the time it asks for an active
    session: name and avatar refreshed from the request, last login
    stamped. *)
Let persisted (found : User.t) : User.t :=
  {| User.id := User.id found;
     User.name :=
       authController.refreshed (authController.l_name b) (User.name found);
     User.username := User.username found;
     User.email := User.email found;
     User.imageUrl :=
       authController.refreshed (authController.l_imageUrl b)
                                (User.imageUrl found);
     User.additionalInfo := User.additionalInfo found;
     User.active := User.active found;
     User.lastLogin := Some (now E) |}.

Let db2 (found : User.t) : DB :=
  {| users := User.store (persisted found) (users db); tokens := tokens db |}.

(** [login] on a validated request of a registered, active user: the
    user row is written first, then the session check decides. *)
Lemma login_of_active_user (found : User.t) :
  validationErrors req = [] ->
  User.findOne
    (fun u => (User.email u =? toLowerCase (authController.l_email b))%string)
    (users db) = Some found ->
  User.isActive found = true ->
  authController.login E req db
  = match PersonalAccessToken.hasActiveSession
            (now E) (User.id found) (tokens db) with
    | Some existingSession =>
        (db2 found,
         {| status := 409; success := false;
            message := authController.SESSION_CONFLICT;
            data := Some (SessionData true
                            (PersonalAccessToken.created_at existingSession));
            errors := None |})
    | None =>
        match PersonalAccessToken.createToken
                (now E) (entropy E) (persisted found) "API Login"
                (tokens db) with
        | Ok (tokenRecord, tokens') =>
            ({| users := User.store (persisted found) (users db);
                tokens := tokens' |},
             {| status := 200; success := true; message := "Login berhasil";
                data := Some (LoginData
                                (User.getProfile (persisted found))
                                (PersonalAccessToken.token tokenRecord)
                                (generateAccessToken E (persisted found)));
                errors := None |})
        | Throw _ => (db2 found, authController.serverError)
        end
    end.
Proof.
  intros Hvalid Hfound Hactive. unfold authController.login.
  rewrite Hvalid. fold b. cbv zeta. rewrite Hfound.
  unfold User.isActive in *. cbn [User.setImageUrl User.setName User.active].
  rewrite Hactive. cbn [negb]. cbv iota.
  unfold User.updateLastLogin, User.save. cbv beta iota zeta.
  rewrite store_store by reflexivity.
  reflexivity.
Qed.

Let byEmail (u : User.t) : bool :=
  (User.email u =? toLowerCase (authController.l_email b))%string.

(** A user who holds a user-token row with an expiry in the future is
    answered 409 with the creation time of such a row, and the token table
    is left as it was. *)
Lemma login_conflict_on_dated_live_token
    (u : User.t) (x : PersonalAccessToken.t) (e : Date) :
  validationErrors req = [] ->
  User.findOne byEmail (users db) = Some u ->
  User.isActive u = true ->
  In x (PersonalAccessToken.rows (tokens db)) ->
  PersonalAccessToken.tokenable_id x = User.id u ->
  PersonalAccessToken.tokenable_type x = PersonalAccessToken.USER_TYPE ->
  PersonalAccessToken.expires_at x = Some e ->
  now E < e ->
  exists existing,
    In existing (PersonalAccessToken.rows (tokens db))
    /\ PersonalAccessToken.tokenable_id existing = User.id u
    /\ PersonalAccessToken.isValid (now E) existing = true
    /\ authController.login E req db
       = (db2 u,
          {| status := 409; success := false;
             message := authController.SESSION_CONFLICT;
             data := Some (SessionData true
                             (PersonalAccessToken.created_at existing));
             errors := None |}).
Proof.
  intros Hvalid Hfound Hactive Hin Hid Hty Hexp Hlive.
  rewrite (login_of_active_user u Hvalid Hfound Hactive).
  destruct (PersonalAccessToken.hasActiveSession
              (now E) (User.id u) (tokens db)) as [existing|] eqn:Hs.
  - destruct (hasActiveSession_some _ _ _ _ Hs)
      as [Hin' [Hid' [_ [e' [He' Hlt]]]]].
    exists existing. repeat split; auto.
    unfold PersonalAccessToken.isValid. rewrite He'. now apply Z.ltb_lt.
  - exfalso. rewrite hasActiveSession_none_iff in Hs.
    destruct (Hs x Hin Hid Hty) as [Hn | [e' [He' Hle]]]; [congruence|].
    assert (e' = e) by congruence. lia.
Qed.

(** What the session check does decide: the login of a registered, active
    user is answered 409 exactly when that user holds a user-token row
    whose expiry is set and in the future. *)
Lemma login_conflict_iff_dated_live_token (u : User.t) :
  validationErrors req = [] ->
  User.findOne byEmail (users db) = Some u ->
  User.isActive u = true ->
  (status (snd (authController.login E req db)) = 409
   <-> exists x e,
         In x (PersonalAccessToken.rows (tokens db))
         /\ PersonalAccessToken.tokenable_id x = User.id u
         /\ PersonalAccessToken.tokenable_type x
            = PersonalAccessToken.USER_TYPE
         /\ PersonalAccessToken.expires_at x = Some e
         /\ now E < e).
Proof.
  intros Hvalid Hfound Hactive. split.
  - rewrite (login_of_active_user u Hvalid Hfound Hactive).
    destruct (PersonalAccessToken.hasActiveSession
                (now E) (User.id u) (tokens db)) as [x|] eqn:Hs.
    + intros _. destruct (hasActiveSession_some _ _ _ _ Hs)
        as [Hin [Hid [Hty [e [He Hlt]]]]].
      exists x, e. auto.
    + destruct (PersonalAccessToken.createToken
                  (now E) (entropy E) (persisted u) "API Login" (tokens db))
        as [[tokenRecord tokens']|err]; discriminate.
  - intros [x [e [Hin [Hid [Hty [He Hlt]]]]]].
    destruct (login_conflict_on_dated_live_token
                u x e Hvalid Hfound Hactive Hin Hid Hty He Hlt)
      as [existing [_ [_ [_ Hl]]]].
    now rewrite Hl.
Qed.

(** C10.  A login answered 409 has already written the user row: the row
    of the user found by email carries the name and avatar the request
    provided and the current instant as last login, while the token table
    is as before.  ([updateLastLogin] is modelled from the spec.) *)
Theorem conflict_login_has_written_the_user :
  status (snd (authController.login E req db)) = 409 ->
  exists found,
    User.findOne byEmail (users db) = Some found
    /\ fst (authController.login E req db) = db2 found
    /\ User.findByPk (User.id found)
                     (users (fst (authController.login E req db)))
       = Some (persisted found)
    /\ User.lastLogin (persisted found) = Some (now E)
    /\ (forall n, authController.l_name b = Some n -> n <> EmptyString ->
                  User.name (persisted found) = n)
    /\ (forall i, authController.l_imageUrl b = Some i -> i <> EmptyString ->
                  User.imageUrl (persisted found) = i).
Proof.
  intro H409.
  destruct (validationErrors req) as [|fe errs] eqn:Hvalid.
  2:{ unfold authController.login in H409. rewrite Hvalid in H409.
      discriminate. }
  destruct (User.findOne byEmail (users db)) as [found|] eqn:Hfound.
  2:{ unfold authController.login in H409. fold b in H409.
      rewrite Hvalid in H409. cbv zeta in H409. fold byEmail in H409.
      rewrite Hfound in H409. discriminate. }
  destruct (User.isActive found) eqn:Hactive.
  2:{ unfold authController.login in H409. fold b in H409.
      rewrite Hvalid in H409. cbv zeta in H409. fold byEmail in H409.
      rewrite Hfound in H409. unfold User.isActive in *.
      cbn [User.setImageUrl User.setName User.active] in H409.
      rewrite Hactive in H409. discriminate. }
  exists found. split; [reflexivity|].
  rewrite (login_of_active_user found Hvalid Hfound Hactive) in *.
  destruct (PersonalAccessToken.hasActiveSession
              (now E) (User.id found) (tokens db)) as [existing|].
  - cbn [fst]. split; [reflexivity|]. split.
    + unfold db2. cbn [users]. now apply (findByPk_store _ _ _ byEmail).
    + split; [reflexivity|]. split.
      * intros n Hn Hne. cbn. rewrite Hn. now apply refreshed_provided.
      * intros i Hi Hne. cbn. rewrite Hi. now apply refreshed_provided.
  - destruct (PersonalAccessToken.createToken
                (now E) (entropy E) (persisted found) "API Login" (tokens db))
      as [[tokenRecord tokens']|err]; discriminate.
Qed.

(** C9, on the code.  A registered, active user who holds a live token
    without expiry, and no token with an expiry in the future, is not
    answered 409: [hasActiveSession] asks for [expires_at > now], which a
    NULL expiry does not satisfy, so the login issues a further token. *)
Theorem login_overlooks_undated_live_token
    (found : User.t) (s : PersonalAccessToken.t) :
  validationErrors req = [] ->
  User.findOne byEmail (users db) = Some found ->
  User.isActive found = true ->
  In s (PersonalAccessToken.rows (tokens db)) ->
  PersonalAccessToken.tokenable_id s = User.id found ->
  PersonalAccessToken.tokenable_type s = PersonalAccessToken.USER_TYPE ->
  PersonalAccessToken.expires_at s = None ->
  (forall x e,
     In x (PersonalAccessToken.rows (tokens db)) ->
     PersonalAccessToken.tokenable_id x = User.id found ->
     PersonalAccessToken.expires_at x = Some e -> e <= now E) ->
  (forall x, In x (PersonalAccessToken.rows (tokens db)) ->
     PersonalAccessToken.token x <> toHex (randomBytes (entropy E) 32)) ->
  PersonalAccessToken.isValid (now E) s = true
  /\ status (snd (authController.login E req db)) = 200
  /\ exists r,
       PersonalAccessToken.rows (tokens (fst (authController.login E req db)))
       = (PersonalAccessToken.rows (tokens db) ++ [r])%list
       /\ PersonalAccessToken.tokenable_id r = User.id found.
Proof.
  intros Hvalid Hfound Hactive Hin Hid Hty Hnull Hlapsed Hfresh.
  split.
  { unfold PersonalAccessToken.isValid. now rewrite Hnull. }
  rewrite (login_of_active_user found Hvalid Hfound Hactive).
  assert (Hnone : PersonalAccessToken.hasActiveSession
                    (now E) (User.id found) (tokens db) = None).
  { apply hasActiveSession_none_iff. intros x Hx Hxid _.
    destruct (PersonalAccessToken.expires_at x) as [e|] eqn:He;
      [right | now left].
    exists e. split; [reflexivity|]. exact (Hlapsed x e Hx Hxid He). }
  rewrite Hnone.
  rewrite (createToken_of_fresh_draw
             (now E) (entropy E) (persisted found) "API Login" (tokens db)
             Hfresh).
  cbn. split; [reflexivity|]. eexists. split; reflexivity.
Qed.

End Login.

Lemma conflict_login_has_written_the_user_witness :
  User.findByPk 1
    (users (fst (authController.login
                   (Sample.env 5000) (Sample.request None Sample.loginAlice)
                   Sample.aliceSession)))
  = Some {| User.id := 1; User.name := "Alice B."; User.username := "alice";
            User.email := "a@x.com"; User.imageUrl := "https://x.com/a.png";
            User.additionalInfo := Sample.info; User.active := true;
            User.lastLogin := Some 5000 |}.
Proof.
  destruct (conflict_login_has_written_the_user
              (fold := Sample.asciiFold) (zone := Sample.fixedOffset)
              (Sample.env 5000) (Sample.request None Sample.loginAlice)
              Sample.aliceSession eq_refl)
    as [found [Hf [_ [Hpk _]]]].
  vm_compute in Hf. injection Hf as <-. exact Hpk.
Defined.

Lemma login_overlooks_undated_live_token_witness :
  status (snd (authController.login
                 (Sample.env 5000) (Sample.request None Sample.loginAlice)
                 Sample.aliceUndated)) = 200.
Proof.
  refine (proj1 (proj2 (login_overlooks_undated_live_token
                          (fold := Sample.asciiFold)
                          (zone := Sample.fixedOffset)
                          (Sample.env 5000)
                          (Sample.request None Sample.loginAlice)
                          Sample.aliceUndated Sample.alice
                          (Sample.session 1 1 "5anctum" None 1000)
                          eq_refl eq_refl eq_refl _ eq_refl eq_refl eq_refl
                          _ _))).
  - left. reflexivity.
  - intros x e [<-|[]] _ He. discriminate.
  - intros x [<-|[]]. vm_compute. discriminate.
Defined.

(** C2, on the code.  Alice is registered and active and holds a live
    token, one without expiry, that authenticates her requests; her login
    is nevertheless answered 200 and a second token row is created, and
    both tokens authenticate afterwards. *)
Theorem login_with_undated_session_issues_second_token :
  PersonalAccessToken.isValid 5000 (Sample.session 1 1 "5anctum" None 1000)
  = true
  /\ snd (auth.authenticate
            (Sample.env 5000) (Sample.request (Some "Bearer 5anctum") tt)
            Sample.aliceUndated) = Next
  /\ status (snd (authController.login
                    (Sample.env 5000) (Sample.request None Sample.loginAlice)
                    Sample.aliceUndated)) = 200
  /\ List.length
       (PersonalAccessToken.rows
          (tokens (fst (authController.login
                          (Sample.env 5000)
                          (Sample.request None Sample.loginAlice)
                          Sample.aliceUndated)))) = 2%nat
  /\ snd (auth.authenticate
            (Sample.env 6000) (Sample.request (Some "Bearer 5anctum") tt)
            (fst (authController.login
                    (Sample.env 5000) (Sample.request None Sample.loginAlice)
                    Sample.aliceUndated))) = Next
  /\ snd (auth.authenticate
            (Sample.env 6000)
            (Sample.request
               (Some ("Bearer " ++ toHex (randomBytes (fun _ => x2a%byte) 32))%string)
               tt)
            (fst (authController.login
                    (Sample.env 5000) (Sample.request None Sample.loginAlice)
                    Sample.aliceUndated))) = Next.
Proof.
  repeat split; vm_compute; reflexivity.
Qed.

(** ** Logout *)

Lemma filter_all {A} (f : A -> bool) (l : list A) :
  (forall x, In x l -> f x = true) -> List.filter f l = l.
Proof.
  induction l as [|x l IH]; cbn; intro H; [reflexivity|].
  rewrite (H x (or_introl eq_refl)). f_equal. apply IH.
  intros y Hy. apply H. now right.
Qed.

Section Logout.

Context {B : Type}.
Variable E : Env.
Variable req : Request B.
Variable db : DB.
Variable u : User.t.
Variable tok : string.

(** The context [authenticate] attaches. *)
Hypothesis identity : user req = Some u.
Hypothesis credential : token req = Some tok.
Hypothesis tok_given : tok <> EmptyString.

Let keeps (x : PersonalAccessToken.t) : bool :=
  negb (PersonalAccessToken.token x =? tok)%string.

Lemma logout_of_authenticated :
  authController.logout E req db
  = ({| users := users db;
        tokens := PersonalAccessToken.destroy_token tok (tokens db) |},
     {| status := 200; success := true; message := "Logout berhasil!";
        data := Some (LogoutData (now E)); errors := None |}).
Proof.
  unfold authController.logout. rewrite identity, credential.
  now rewrite (proj2 (truthy_true_iff tok) tok_given).
Qed.

Lemma keeps_true_iff (x : PersonalAccessToken.t) :
  keeps x = true <-> PersonalAccessToken.token x <> tok.
Proof.
  unfold keeps. rewrite negb_true_iff. apply String.eqb_neq.
Qed.

(** The rows that remain are the rows with another token string, in
    their order. *)
Lemma logout_rows :
  PersonalAccessToken.rows (tokens (fst (authController.logout E req db)))
  = List.filter keeps (PersonalAccessToken.rows (tokens db)).
Proof. now rewrite logout_of_authenticated. Qed.

(** Under the unique index on [token], the presented row is the one row
    that goes. *)
Lemma logout_removes_one_row (x : PersonalAccessToken.t) :
  List.NoDup (List.map PersonalAccessToken.token
                (PersonalAccessToken.rows (tokens db))) ->
  In x (PersonalAccessToken.rows (tokens db)) ->
  PersonalAccessToken.token x = tok ->
  exists before after,
    PersonalAccessToken.rows (tokens db) = (before ++ x :: after)%list
    /\ PersonalAccessToken.rows
         (tokens (fst (authController.logout E req db)))
       = (before ++ after)%list.
Proof.
  intros Hnd Hin Hx. rewrite logout_rows.
  destruct (List.in_split _ _ Hin) as [before [after Hsplit]].
  exists before, after. split; [exact Hsplit|].
  rewrite Hsplit in *. rewrite List.map_app in Hnd. cbn in Hnd.
  apply List.NoDup_remove_2 in Hnd. rewrite Hx in Hnd.
  rewrite List.filter_app. cbn.
  replace (keeps x) with false
    by (symmetry; unfold keeps; now rewrite Hx, String.eqb_refl).
  f_equal; apply filter_all; intros y Hy; apply keeps_true_iff; intro Hy';
    apply Hnd; apply List.in_or_app; [left | right];
    rewrite <- Hy'; now apply List.in_map.
Qed.

End Logout.

(** C7.  A logout that passed authentication answers 200 and deletes the
    rows carrying the token string that authenticated the call, and
    nothing else: the user table and every row with another token string
    (of the same or of another user) stay as they were; it answers 200
    also when no row carries that string any more; and with token strings
    unique in the table, the one row of that string is the one row
    removed. *)
Theorem logout_deletes_exactly_the_authenticating_token :
  forall {B} (E0 : Env) (req0 : Request B) (db0 : DB) (E : Env) (db : DB),
    snd (auth.authenticate E0 req0 db0) = Next ->
    exists tok,
      authorization req0 = Some ("Bearer " ++ tok)%string
      /\ token (snd (fst (auth.authenticate E0 req0 db0))) = Some tok
      /\ snd (authController.logout
                E (snd (fst (auth.authenticate E0 req0 db0))) db)
         = {| status := 200; success := true; message := "Logout berhasil!";
              data := Some (LogoutData (now E)); errors := None |}
      /\ users (fst (authController.logout
                       E (snd (fst (auth.authenticate E0 req0 db0))) db))
         = users db
      /\ (forall x,
            In x (PersonalAccessToken.rows
                    (tokens (fst (authController.logout
                                    E (snd (fst (auth.authenticate E0 req0 db0)))
                                    db))))
            <-> In x (PersonalAccessToken.rows (tokens db))
                /\ PersonalAccessToken.token x <> tok)
      /\ ((forall x, In x (PersonalAccessToken.rows (tokens db)) ->
                     PersonalAccessToken.token x <> tok) ->
          PersonalAccessToken.rows
            (tokens (fst (authController.logout
                            E (snd (fst (auth.authenticate E0 req0 db0))) db)))
          = PersonalAccessToken.rows (tokens db))
      /\ (forall x,
            List.NoDup (List.map PersonalAccessToken.token
                          (PersonalAccessToken.rows (tokens db))) ->
            In x (PersonalAccessToken.rows (tokens db)) ->
            PersonalAccessToken.token x = tok ->
            exists before after,
              PersonalAccessToken.rows (tokens db)
              = (before ++ x :: after)%list
              /\ PersonalAccessToken.rows
                   (tokens (fst (authController.logout
                                   E (snd (fst (auth.authenticate E0 req0 db0)))
                                   db)))
                 = (before ++ after)%list).
Proof.
  intros B E0 req0 db0 E db Hnext.
  destruct (authenticate_cases E0 req0 db0)
    as [[tok [r [u [Htok [Hh [_ [_ [_ [_ [_ Hm]]]]]]]]]] | [db' [msg Hm]]];
    rewrite Hm in *; [|discriminate].
  cbn [fst snd].
  set (req := attach req0 u tok (PersonalAccessToken.touch (now E0) r)).
  assert (Hu : user req = Some u) by reflexivity.
  assert (Ht : token req = Some tok) by reflexivity.
  exists tok. split; [exact Hh|]. split; [reflexivity|].
  split; [now rewrite (logout_of_authenticated E req db u tok Hu Ht Htok)|].
  split; [now rewrite (logout_of_authenticated E req db u tok Hu Ht Htok)|].
  split; [|split].
  - intro x. rewrite (logout_rows E req db u tok Hu Ht Htok).
    rewrite List.filter_In. now rewrite negb_true_iff, String.eqb_neq.
  - intro Hnone. rewrite (logout_rows E req db u tok Hu Ht Htok).
    apply filter_all. intros x Hx. apply negb_true_iff, String.eqb_neq.
    now apply Hnone.
  - intros x Hnd Hin Hx.
    exact (logout_removes_one_row E req db u tok Hu Ht Htok x Hnd Hin Hx).
Qed.

Lemma logout_deletes_exactly_the_authenticating_token_witness :
  exists tok,
    token (snd (fst (auth.authenticate
                       (Sample.env 5000)
                       (Sample.request (Some "Bearer c0ffee") tt)
                       Sample.aliceSession))) = Some tok
    /\ status (snd (authController.logout
                      (Sample.env 5001)
                      (snd (fst (auth.authenticate
                                   (Sample.env 5000)
                                   (Sample.request (Some "Bearer c0ffee") tt)
                                   Sample.aliceSession)))
                      (fst (fst (auth.authenticate
                                   (Sample.env 5000)
                                   (Sample.request (Some "Bearer c0ffee") tt)
                                   Sample.aliceSession))))) = 200.
Proof.
  destruct (logout_deletes_exactly_the_authenticating_token
              (Sample.env 5000) (Sample.request (Some "Bearer c0ffee") tt)
              Sample.aliceSession (Sample.env 5001)
              (fst (fst (auth.authenticate
                           (Sample.env 5000)
                           (Sample.request (Some "Bearer c0ffee") tt)
                           Sample.aliceSession)))
              eq_refl)
    as [tok [_ [Ht [Hres _]]]].
  exists tok. split; [exact Ht|]. now rewrite Hres.
Defined.

(* ------------------------------------------------------------------ *)
(** * Further properties of the code *)

(** ** The three expiry checks *)

(** X1.  The three places that judge a token's expiry agree except at one
    instant: a row [hasActiveSession] matches is valid by [isValid], a
    row valid by [isValid] is not expired for the middleware, and the
    middleware accepts a row that [isValid] refuses exactly when its
    expiry is the current instant; a row without expiry is valid by
    [isValid], never expired for the middleware, and never matched by
    [hasActiveSession]. *)
Theorem expiry_checks_compared (t : Date) (uid : Z)
    (r : PersonalAccessToken.t) :
  (PersonalAccessToken.whereActiveSession t uid r = true ->
   PersonalAccessToken.isValid t r = true)
  /\ (PersonalAccessToken.isValid t r = true -> auth.expired t r = false)
  /\ (auth.expired t r = false /\ PersonalAccessToken.isValid t r = false
      <-> PersonalAccessToken.expires_at r = Some t)
  /\ (PersonalAccessToken.expires_at r = None ->
      PersonalAccessToken.isValid t r = true
      /\ auth.expired t r = false
      /\ PersonalAccessToken.whereActiveSession t uid r = false).
Proof.
  unfold PersonalAccessToken.whereActiveSession, PersonalAccessToken.isValid,
    auth.expired.
  destruct (PersonalAccessToken.expires_at r) as [e|].
  - split; [|split; [|split]].
    + intro H. apply andb_true_iff in H. tauto.
    + intro H. apply Z.ltb_lt in H. apply Z.ltb_ge. lia.
    + split.
      * intros [H1 H2]. apply Z.ltb_ge in H1, H2. f_equal. lia.
      * intros [= ->]. split; apply Z.ltb_irrefl.
    + discriminate.
  - split; [|split; [|split]].
    + rewrite andb_false_r. discriminate.
    + reflexivity.
    + split; [intros [_ H]; discriminate | discriminate].
    + intros _. split; [reflexivity|]. split; [reflexivity|].
      apply andb_false_r.
Qed.

(** ** The optional middleware *)

Section OptionalAuth.

Context {B : Type}.
Variable E : Env.
Variable req : Request B.
Variable db : DB.

Lemma optionalAuth_without_bearer :
  (forall tok, tok <> EmptyString ->
     authorization req <> Some ("Bearer " ++ tok)%string) ->
  auth.optionalAuth E req db = (db, req, Next).
Proof.
  intro Hno. unfold auth.optionalAuth.
  destruct (authorization req) as [h|] eqn:Hh; [|reflexivity].
  cbv beta iota zeta.
  destruct (truthy h) eqn:Ht; cbn [negb orb]; cbv beta iota; [|reflexivity].
  destruct (startsWith h "Bearer ") eqn:Hp; cbn [negb]; cbv beta iota;
    [|reflexivity].
  destruct (truthy (substring h 7)) eqn:Hk; cbn [negb]; cbv beta iota;
    [|reflexivity].
  exfalso. apply (Hno (substring h 7)).
  - now apply truthy_true_iff.
  - f_equal. exact (startsWith_split "Bearer " h Hp).
Qed.

Variable tok : string.
Hypothesis tok_given : tok <> EmptyString.
Hypothesis bearer : authorization req = Some ("Bearer " ++ tok)%string.

Ltac enter_optional :=
  unfold auth.optionalAuth; rewrite bearer; cbv beta iota zeta;
  rewrite truthy_bearer, startsWith_bearer, !substring_bearer;
  rewrite (proj2 (truthy_true_iff tok) tok_given);
  cbn [negb orb]; cbv beta iota.

Lemma optionalAuth_unknown_token :
  PersonalAccessToken.findOne
    (PersonalAccessToken.whereUserToken tok) (tokens db) = None ->
  auth.optionalAuth E req db = (db, req, Next).
Proof. intro Hf. enter_optional. now rewrite Hf. Qed.

Variable r : PersonalAccessToken.t.
Hypothesis stored :
  PersonalAccessToken.findOne
    (PersonalAccessToken.whereUserToken tok) (tokens db) = Some r.

Lemma optionalAuth_expired_token :
  auth.expired (now E) r = true ->
  auth.optionalAuth E req db = (db, req, Next).
Proof. intro Hx. enter_optional. now rewrite stored, Hx. Qed.

Hypothesis unexpired : auth.expired (now E) r = false.

Let stamped : DB :=
  {| users := users db;
     tokens := snd (PersonalAccessToken.update_last_used
                      (now E) r (tokens db)) |}.

(** The stamp is written before the owner is looked at. *)
Lemma optionalAuth_after_stamp :
  auth.optionalAuth E req db
  = match User.findByPk (PersonalAccessToken.tokenable_id r) (users db) with
    | Some u =>
        if User.isActive u
        then (stamped,
              attach req u tok (PersonalAccessToken.touch (now E) r), Next)
        else (stamped, req, Next)
    | None => (stamped, req, Next)
    end.
Proof.
  enter_optional. rewrite stored, unexpired.
  unfold PersonalAccessToken.update_last_used. cbv beta iota zeta.
  rewrite (touch_keeps PersonalAccessToken.tokenable_id)
    by reflexivity.
  reflexivity.
Qed.

End OptionalAuth.

(** A stored, unexpired token of an existing active user is attached. *)
Lemma optionalAuth_usable_session {B} (E : Env) (req : Request B) (db : DB)
    (tok : string) (r : PersonalAccessToken.t) (u : User.t) :
  tok <> EmptyString ->
  authorization req = Some ("Bearer " ++ tok)%string ->
  PersonalAccessToken.findOne
    (PersonalAccessToken.whereUserToken tok) (tokens db) = Some r ->
  auth.expired (now E) r = false ->
  User.findByPk (PersonalAccessToken.tokenable_id r) (users db) = Some u ->
  User.isActive u = true ->
  auth.optionalAuth E req db
  = ({| users := users db;
        tokens := snd (PersonalAccessToken.update_last_used
                         (now E) r (tokens db)) |},
     attach req u tok (PersonalAccessToken.touch (now E) r),
     Next).
Proof.
  intros Htok Hh Hr Hx Hu Ha.
  rewrite (optionalAuth_after_stamp E req db tok Htok Hh r Hr Hx).
  now rewrite Hu, Ha.
Qed.

(** X2.  [optionalAuth] always passes control on.  It attaches the owner,
    the token string and the re-stamped row exactly for a [Bearer] token
    that is stored for a user, not past its expiry, and owned by an
    existing active user; the JWT block of [authenticate] has no
    counterpart here.  For every other request the request context is
    left as it came. *)
Theorem optionalAuth_attaches_exactly_usable_sessions
    {B} (E : Env) (req : Request B) (db : DB) :
  snd (auth.optionalAuth E req db) = Next
  /\ (forall tok r u,
        tok <> EmptyString ->
        authorization req = Some ("Bearer " ++ tok)%string ->
        PersonalAccessToken.findOne
          (PersonalAccessToken.whereUserToken tok) (tokens db) = Some r ->
        auth.expired (now E) r = false ->
        User.findByPk (PersonalAccessToken.tokenable_id r) (users db)
        = Some u ->
        User.isActive u = true ->
        auth.optionalAuth E req db
        = ({| users := users db;
              tokens := snd (PersonalAccessToken.update_last_used
                               (now E) r (tokens db)) |},
           attach req u tok (PersonalAccessToken.touch (now E) r),
           Next))
  /\ ((forall tok r u,
         ~ (tok <> EmptyString
            /\ authorization req = Some ("Bearer " ++ tok)%string
            /\ PersonalAccessToken.findOne
                 (PersonalAccessToken.whereUserToken tok) (tokens db) = Some r
            /\ auth.expired (now E) r = false
            /\ User.findByPk (PersonalAccessToken.tokenable_id r) (users db)
               = Some u
            /\ User.isActive u = true)) ->
      snd (fst (auth.optionalAuth E req db)) = req).
Proof.
  assert (Hform :
    (exists tok, tok <> EmptyString
                 /\ authorization req = Some ("Bearer " ++ tok)%string)
    \/ (forall tok, tok <> EmptyString ->
          authorization req <> Some ("Bearer " ++ tok)%string)).
  { destruct (authorization req) as [h|]; [|right; intros; discriminate].
    destruct (startsWith h "Bearer ") eqn:Hp.
    - destruct (truthy (substring h 7)) eqn:Hk.
      + left. exists (substring h 7). split; [now apply truthy_true_iff|].
        f_equal. exact (startsWith_split "Bearer " h Hp).
      + right. intros tok Htok Heq.
        assert (Hh : h = ("Bearer " ++ tok)%string) by congruence.
        rewrite Hh, substring_bearer in Hk.
        apply truthy_false_iff in Hk. contradiction.
    - right. intros tok _ Heq.
      assert (Hh : h = ("Bearer " ++ tok)%string) by congruence.
      rewrite Hh, startsWith_bearer in Hp. discriminate. }
  split; [|split].
  - destruct Hform as [[tok [Htok Hh]] | Hno];
      [|now rewrite (optionalAuth_without_bearer E req db Hno)].
    destruct (PersonalAccessToken.findOne
                (PersonalAccessToken.whereUserToken tok) (tokens db))
      as [r|] eqn:Hr;
      [|now rewrite (optionalAuth_unknown_token E req db tok Htok Hh Hr)].
    destruct (auth.expired (now E) r) eqn:Hx;
      [now rewrite (optionalAuth_expired_token E req db tok Htok Hh r Hr Hx)|].
    rewrite (optionalAuth_after_stamp E req db tok Htok Hh r Hr Hx).
    destruct (User.findByPk (PersonalAccessToken.tokenable_id r) (users db))
      as [u|]; [destruct (User.isActive u)|]; reflexivity.
  - intros tok r u. apply optionalAuth_usable_session.
  - intro Hnone.
    destruct Hform as [[tok [Htok Hh]] | Hno];
      [|now rewrite (optionalAuth_without_bearer E req db Hno)].
    destruct (PersonalAccessToken.findOne
                (PersonalAccessToken.whereUserToken tok) (tokens db))
      as [r|] eqn:Hr;
      [|now rewrite (optionalAuth_unknown_token E req db tok Htok Hh Hr)].
    destruct (auth.expired (now E) r) eqn:Hx;
      [now rewrite (optionalAuth_expired_token E req db tok Htok Hh r Hr Hx)|].
    rewrite (optionalAuth_after_stamp E req db tok Htok Hh r Hr Hx).
    destruct (User.findByPk (PersonalAccessToken.tokenable_id r) (users db))
      as [u|] eqn:Hu; [|reflexivity].
    destruct (User.isActive u) eqn:Ha; [|reflexivity].
    exfalso. apply (Hnone tok r u). auto 10.
Qed.

(** X3.  Whatever [authenticate] lets through, [optionalAuth] treats the
    same way: on a request that [authenticate] passes on, both leave the
    same database and attach the same context. *)
Theorem optionalAuth_agrees_where_authenticate_passes
    {B} (E : Env) (req : Request B) (db : DB) :
  snd (auth.authenticate E req db) = Next ->
  auth.optionalAuth E req db = auth.authenticate E req db.
Proof.
  intro Hnext.
  destruct (authenticate_cases E req db)
    as [[tok [r [u [Htok [Hh [Hr [Hu [Hx [_ [Ha Hm]]]]]]]]]] | [db' [msg Hm]]].
  - rewrite Hm.
    exact (optionalAuth_usable_session E req db tok r u Htok Hh Hr Hx Hu Ha).
  - rewrite Hm in Hnext. discriminate.
Qed.

Lemma optionalAuth_agrees_where_authenticate_passes_witness :
  auth.optionalAuth
    (Sample.env 5000) (Sample.request (Some "Bearer c0ffee") tt)
    Sample.aliceSession
  = auth.authenticate
      (Sample.env 5000) (Sample.request (Some "Bearer c0ffee") tt)
      Sample.aliceSession.
Proof.
  apply (optionalAuth_agrees_where_authenticate_passes
           (Sample.env 5000) (Sample.request (Some "Bearer c0ffee") tt)
           Sample.aliceSession).
  reflexivity.
Defined.

(** ** What validation writes *)

Lemma nodup_map_injective {A K} (f : A -> K) (l : list A) (x y : A) :
  List.NoDup (List.map f l) -> In x l -> In y l -> f x = f y -> x = y.
Proof.
  induction l as [|a l IH]; cbn; intros Hnd Hx Hy Hf; [destruct Hx|].
  inversion Hnd as [|? ? Hnotin Hnd']; subst.
  destruct Hx as [->|Hx]; destruct Hy as [->|Hy]; auto.
  - exfalso. apply Hnotin. rewrite Hf. now apply List.in_map.
  - exfalso. apply Hnotin. rewrite <- Hf. now apply List.in_map.
Qed.

Section ValidationWrites.

Context {B : Type}.
Variable E : Env.
Variable req : Request B.
Variable db : DB.

Let stamped (r : PersonalAccessToken.t) : DB :=
  {| users := users db;
     tokens := snd (PersonalAccessToken.update_last_used
                      (now E) r (tokens db)) |}.

(** The presented token is stored for a user, its owner exists and it is
    not past its expiry. *)
Let reaches_stamp (tok : string) (r : PersonalAccessToken.t) (u : User.t)
  : Prop :=
  tok <> EmptyString
  /\ authorization req = Some ("Bearer " ++ tok)%string
  /\ PersonalAccessToken.findOne
       (PersonalAccessToken.whereUserToken tok) (tokens db) = Some r
  /\ User.findByPk (PersonalAccessToken.tokenable_id r) (users db) = Some u
  /\ auth.expired (now E) r = false.

Lemma authenticate_stamps (tok : string) (r : PersonalAccessToken.t)
    (u : User.t) :
  reaches_stamp tok r u ->
  fst (fst (auth.authenticate E req db)) = stamped r.
Proof.
  intros [Htok [Hh [Hr [Hu Hx]]]].
  destruct (auth.jwtVerdict E tok u) as [resp|] eqn:Hj.
  - now rewrite (authenticate_jwt_rejected
                   E req db tok Htok Hh r Hr u Hu Hx resp Hj).
  - destruct (User.isActive u) eqn:Ha.
    + now rewrite (authenticate_accepts E req db tok Htok Hh r Hr u Hu Hx Hj Ha).
    + now rewrite (authenticate_deactivated
                     E req db tok Htok Hh r Hr u Hu Hx Hj Ha).
Qed.

Lemma authenticate_writes_nothing :
  (forall tok r u, ~ reaches_stamp tok r u) ->
  fst (fst (auth.authenticate E req db)) = db.
Proof.
  intro Hnone.
  destruct (authenticate_cases E req db)
    as [[tok [r [u [Htok [Hh [Hr [Hu [Hx _]]]]]]]] | _].
  { exfalso. apply (Hnone tok r u). unfold reaches_stamp. auto 10. }
  assert (Hform :
    (exists tok, tok <> EmptyString
                 /\ authorization req = Some ("Bearer " ++ tok)%string)
    \/ (forall tok, tok <> EmptyString ->
          authorization req <> Some ("Bearer " ++ tok)%string)).
  { destruct (authorization req) as [h|]; [|right; intros; discriminate].
    destruct (startsWith h "Bearer ") eqn:Hp.
    - destruct (truthy (substring h 7)) eqn:Hk.
      + left. exists (substring h 7). split; [now apply truthy_true_iff|].
        f_equal. exact (startsWith_split "Bearer " h Hp).
      + right. intros tok Htok Heq.
        assert (Hh : h = ("Bearer " ++ tok)%string) by congruence.
        rewrite Hh, substring_bearer in Hk.
        apply truthy_false_iff in Hk. contradiction.
    - right. intros tok _ Heq.
      assert (Hh : h = ("Bearer " ++ tok)%string) by congruence.
      rewrite Hh, startsWith_bearer in Hp. discriminate. }
  destruct Hform as [[tok [Htok Hh]] | Hno].
  2:{ destruct (authenticate_without_bearer E req db Hno) as [msg Hm].
      now rewrite Hm. }
  destruct (PersonalAccessToken.findOne
              (PersonalAccessToken.whereUserToken tok) (tokens db))
    as [r|] eqn:Hr;
    [|now rewrite (authenticate_unknown_token E req db tok Htok Hh Hr)].
  destruct (User.findByPk (PersonalAccessToken.tokenable_id r) (users db))
    as [u|] eqn:Hu;
    [|now rewrite (authenticate_orphan_token E req db tok Htok Hh r Hr Hu)].
  destruct (auth.expired (now E) r) eqn:Hx;
    [now rewrite (authenticate_expired_token
                    E req db tok Htok Hh r Hr u Hu Hx)|].
  exfalso. apply (Hnone tok r u). unfold reaches_stamp. auto 10.
Qed.

(** Updating a stored row that already carries the instant changes
    nothing, provided primary keys are unique. *)
Lemma update_last_used_unchanged (r : PersonalAccessToken.t) :
  List.NoDup (List.map PersonalAccessToken.id
                (PersonalAccessToken.rows (tokens db))) ->
  In r (PersonalAccessToken.rows (tokens db)) ->
  PersonalAccessToken.last_used_at r = Some (now E) ->
  stamped r = db.
Proof.
  intros Hnd Hin Hlast. unfold stamped. destruct db as [U T]. cbn in *.
  f_equal. destruct T as [rows seq]. cbn in *. f_equal.
  rewrite <- (List.map_id rows) at 2.
  apply List.map_ext_in. intros x Hx.
  destruct (Z.eqb_spec (PersonalAccessToken.id x) (PersonalAccessToken.id r))
    as [Hid|]; [|reflexivity].
  unfold PersonalAccessToken.touch. rewrite Hlast, Z.eqb_refl. symmetry.
  exact (nodup_map_injective PersonalAccessToken.id _ x r Hnd Hx Hin Hid).
Qed.

(** X4.  [authenticate] reaches its [update({ last_used_at })] exactly
    when the presented token is stored for a user, its owner exists and it
    is not past its expiry, also when the request goes on to be rejected
    for a JWT mismatch or a deactivated account.  The database afterwards
    is then the one in which the row of that primary key is the updated
    instance, whose last-used stamp is the instant of the request; when
    the stored row carries that instant already, nothing is written and
    the database is as before.  A request that fails before that point
    leaves the database untouched. *)
Theorem authenticate_stamps_exactly_found_unexpired_tokens :
  (forall tok r u,
     reaches_stamp tok r u ->
     fst (fst (auth.authenticate E req db)) = stamped r
     /\ PersonalAccessToken.last_used_at
          (PersonalAccessToken.touch (now E) r) = Some (now E)
     /\ (List.NoDup (List.map PersonalAccessToken.id
                       (PersonalAccessToken.rows (tokens db))) ->
         PersonalAccessToken.last_used_at r = Some (now E) ->
         fst (fst (auth.authenticate E req db)) = db))
  /\ ((forall tok r u, ~ reaches_stamp tok r u) ->
      fst (fst (auth.authenticate E req db)) = db).
Proof.
  split; [|exact authenticate_writes_nothing].
  intros tok r u Hreach.
  split; [exact (authenticate_stamps tok r u Hreach)|].
  split; [apply touch_last_used_at|].
  intros Hnd Hlast. rewrite (authenticate_stamps tok r u Hreach).
  apply update_last_used_unchanged; [exact Hnd | | exact Hlast].
  destruct Hreach as [_ [_ [Hr _]]]. exact (proj1 (List.find_some _ _ Hr)).
Qed.

Lemma authenticate_database :
  fst (fst (auth.authenticate E req db)) = db
  \/ exists r, In r (PersonalAccessToken.rows (tokens db))
               /\ fst (fst (auth.authenticate E req db)) = stamped r.
Proof.
  destruct (authenticate_cases E req db)
    as [[tok [r [u [Htok [Hh [Hr [Hu [Hx _]]]]]]]] | [db' [msg Hm]]].
  - right. exists r. split.
    + exact (proj1 (List.find_some _ _ Hr)).
    + apply (authenticate_stamps tok r u). unfold reaches_stamp. auto 10.
  - assert (Hdec :
      (exists tok r u, reaches_stamp tok r u)
      \/ (forall tok r u, ~ reaches_stamp tok r u)).
    { unfold reaches_stamp.
      destruct (authorization req) as [h|];
        [|right; intros tok r u [_ [H _]]; discriminate].
      destruct (truthy (substring h 7)) eqn:Hk.
      2:{ right. intros tok r u [Htok [H _]].
          assert (Hh : h = ("Bearer " ++ tok)%string) by congruence.
          rewrite Hh, substring_bearer in Hk.
          apply truthy_false_iff in Hk. contradiction. }
      destruct (PersonalAccessToken.findOne
                  (PersonalAccessToken.whereUserToken (substring h 7))
                  (tokens db)) as [r|] eqn:Hr.
      2:{ right. intros tok r u [_ [H [Hr' _]]].
          assert (Hh : h = ("Bearer " ++ tok)%string) by congruence.
          rewrite Hh, substring_bearer in Hr. congruence. }
      destruct (User.findByPk (PersonalAccessToken.tokenable_id r) (users db))
        as [u|] eqn:Hu.
      2:{ right. intros tok r' u [_ [H [Hr' [Hu' _]]]].
          assert (Hh : h = ("Bearer " ++ tok)%string) by congruence.
          rewrite Hh, substring_bearer in Hr. congruence. }
      destruct (auth.expired (now E) r) eqn:Hx.
      { right. intros tok r' u' [_ [H [Hr' [_ Hx']]]].
        assert (Hh : h = ("Bearer " ++ tok)%string) by congruence.
        rewrite Hh, substring_bearer in Hr. congruence. }
      destruct (startsWith h "Bearer ") eqn:Hp.
      - left. exists (substring h 7), r, u.
        split; [now apply truthy_true_iff|].
        split; [f_equal; exact (startsWith_split "Bearer " h Hp)|]. auto.
      - right. intros tok r' u' [_ [H _]].
        assert (Hh : h = ("Bearer " ++ tok)%string) by congruence.
        rewrite Hh, startsWith_bearer in Hp. discriminate. }
    destruct Hdec as [[tok [r [u Hreach]]] | Hnone].
    + right. exists r. split.
      * destruct Hreach as [_ [_ [Hr _]]].
        exact (proj1 (List.find_some _ _ Hr)).
      * exact (authenticate_stamps tok r u Hreach).
    + left. exact (authenticate_writes_nothing Hnone).
Qed.

Lemma optionalAuth_database :
  fst (fst (auth.optionalAuth E req db)) = db
  \/ exists r, In r (PersonalAccessToken.rows (tokens db))
               /\ fst (fst (auth.optionalAuth E req db)) = stamped r.
Proof.
  assert (Hform :
    (exists tok, tok <> EmptyString
                 /\ authorization req = Some ("Bearer " ++ tok)%string)
    \/ (forall tok, tok <> EmptyString ->
          authorization req <> Some ("Bearer " ++ tok)%string)).
  { destruct (authorization req) as [h|]; [|right; intros; discriminate].
    destruct (startsWith h "Bearer ") eqn:Hp.
    - destruct (truthy (substring h 7)) eqn:Hk.
      + left. exists (substring h 7). split; [now apply truthy_true_iff|].
        f_equal. exact (startsWith_split "Bearer " h Hp).
      + right. intros tok Htok Heq.
        assert (Hh : h = ("Bearer " ++ tok)%string) by congruence.
        rewrite Hh, substring_bearer in Hk.
        apply truthy_false_iff in Hk. contradiction.
    - right. intros tok _ Heq.
      assert (Hh : h = ("Bearer " ++ tok)%string) by congruence.
      rewrite Hh, startsWith_bearer in Hp. discriminate. }
  destruct Hform as [[tok [Htok Hh]] | Hno];
    [|left; now rewrite (optionalAuth_without_bearer E req db Hno)].
  destruct (PersonalAccessToken.findOne
              (PersonalAccessToken.whereUserToken tok) (tokens db))
    as [r|] eqn:Hr;
    [|left; now rewrite (optionalAuth_unknown_token E req db tok Htok Hh Hr)].
  destruct (auth.expired (now E) r) eqn:Hx;
    [left;
     now rewrite (optionalAuth_expired_token E req db tok Htok Hh r Hr Hx)|].
  right. exists r. split; [exact (proj1 (List.find_some _ _ Hr))|].
  rewrite (optionalAuth_after_stamp E req db tok Htok Hh r Hr Hx).
  destruct (User.findByPk (PersonalAccessToken.tokenable_id r) (users db))
    as [u|]; [destruct (User.isActive u)|]; reflexivity.
Qed.

End ValidationWrites.

(** Re-stamping a stored row leaves every column but the two timestamps
    of every row as it was, provided primary keys are unique. *)
Lemma stamp_keeps_columns {K} (f : PersonalAccessToken.t -> K) (t : Date)
    (r : PersonalAccessToken.t) (T : PersonalAccessToken.table) :
  (forall x, f (PersonalAccessToken.touch t x) = f x) ->
  List.NoDup (List.map PersonalAccessToken.id (PersonalAccessToken.rows T)) ->
  In r (PersonalAccessToken.rows T) ->
  List.map f (PersonalAccessToken.rows
                (snd (PersonalAccessToken.update_last_used t r T)))
  = List.map f (PersonalAccessToken.rows T).
Proof.
  intros Hf Hnd Hin. cbn. rewrite List.map_map.
  apply List.map_ext_in. intros x Hx.
  destruct (Z.eqb_spec (PersonalAccessToken.id x) (PersonalAccessToken.id r))
    as [Hid|]; [|reflexivity].
  rewrite Hf. f_equal. symmetry.
  exact (nodup_map_injective PersonalAccessToken.id _ x r Hnd Hx Hin Hid).
Qed.

Section SessionsAreNotSliding.

Context {B : Type}.
Variable E : Env.
Variable req : Request B.
Variable db : DB.

Hypothesis primary_key :
  List.NoDup (List.map PersonalAccessToken.id
                (PersonalAccessToken.rows (tokens db))).

(** Every column of a token row except [last_used_at] and [updated_at]. *)
Let columns (r : PersonalAccessToken.t) :=
  (PersonalAccessToken.id r, PersonalAccessToken.tokenable_type r,
   PersonalAccessToken.tokenable_id r, PersonalAccessToken.name r,
   PersonalAccessToken.token r, PersonalAccessToken.abilities r,
   PersonalAccessToken.expires_at r, PersonalAccessToken.created_at r).

(** X5.  Token validation never creates, deletes, re-owns or prolongs a
    session and never touches the user table: with unique primary keys,
    after [authenticate] and after [optionalAuth] the user table and the
    auto-increment counter are as before, and the token rows are the same
    rows in the same order in every column except the last-used and
    updated-at timestamps; in particular no [expires_at] moves. *)
Theorem validation_changes_only_timestamps :
  forall db',
    db' = fst (fst (auth.authenticate E req db))
    \/ db' = fst (fst (auth.optionalAuth E req db)) ->
    users db' = users db
    /\ PersonalAccessToken.seq (tokens db')
       = PersonalAccessToken.seq (tokens db)
    /\ List.map columns (PersonalAccessToken.rows (tokens db'))
       = List.map columns (PersonalAccessToken.rows (tokens db)).
Proof.
  intros db' Hdb'.
  assert (Hshape :
    db' = db
    \/ exists r, In r (PersonalAccessToken.rows (tokens db))
                 /\ db' = {| users := users db;
                             tokens := snd (PersonalAccessToken.update_last_used
                                              (now E) r (tokens db)) |}).
  { destruct Hdb' as [-> | ->];
      [apply authenticate_database | apply optionalAuth_database]. }
  destruct Hshape as [-> | [r [Hin ->]]]; [auto|].
  split; [reflexivity|]. split; [reflexivity|].
  cbn [tokens]. apply stamp_keeps_columns; [|assumption|assumption].
  intro x. now apply (touch_keeps columns).
Qed.

End SessionsAreNotSliding.

Lemma validation_changes_only_timestamps_witness :
  List.map PersonalAccessToken.expires_at
    (PersonalAccessToken.rows
       (tokens (fst (fst (auth.authenticate
                            (Sample.env 5000)
                            (Sample.request (Some "Bearer c0ffee") tt)
                            Sample.aliceSession)))))
  = [Some 9000].
Proof.
  assert (Hpk : List.NoDup
                  (List.map PersonalAccessToken.id
                     (PersonalAccessToken.rows (tokens Sample.aliceSession)))).
  { repeat constructor. intros []. }
  destruct (validation_changes_only_timestamps
              (Sample.env 5000) (Sample.request (Some "Bearer c0ffee") tt)
              Sample.aliceSession Hpk _ (or_introl eq_refl))
    as [_ [_ Hcols]].
  apply (f_equal (List.map (fun c => snd (fst c)))) in Hcols.
  rewrite !List.map_map in Hcols. exact Hcols.
Defined.

(** ** Authorization after authentication *)

(** X6.  [authorize], whatever roles it is given, passes every request
    that [authenticate] has passed, and answers 401 to a request on which
    no identity is attached. *)
Theorem authorize_passes_what_authenticate_passed
    {B} (E : Env) (req : Request B) (db : DB) (roles : list string) :
  (snd (auth.authenticate E req db) = Next ->
   auth.authorize roles (snd (fst (auth.authenticate E req db))) = Next)
  /\ (user req = None ->
      snd (auth.authenticate E req db) <> Next ->
      auth.authorize roles (snd (fst (auth.authenticate E req db)))
      = Respond (fail 401 "Akses ditolak. Login diperlukan.")).
Proof.
  destruct (authenticate_cases E req db)
    as [[tok [r [u [_ [_ [_ [_ [_ [_ [_ Hm]]]]]]]]]] | [db' [msg Hm]]];
    rewrite Hm; cbn [fst snd]; split.
  - reflexivity.
  - intros _ Hn. now elim Hn.
  - discriminate.
  - intros Hu _. unfold auth.authorize. now rewrite Hu.
Qed.

(** ** Sessions from login to logout *)

(** A lookup by email still finds the user after the row was written
    back with the same primary key and email. *)
Lemma findOne_after_store (p : User.t -> bool) (found u' : User.t)
    (T : User.table) :
  User.findOne p T = Some found ->
  User.id u' = User.id found ->
  p u' = true ->
  User.findOne p (User.store u' T) = Some u'.
Proof.
  unfold User.findOne, User.store. cbn. intros Hf Hid Hp. rewrite Hid.
  induction (User.rows T) as [|x l IH]; [discriminate|].
  cbn [List.map List.find] in Hf |- *.
  destruct (User.id x =? User.id found) eqn:Hx.
  - now rewrite Hp.
  - destruct (p x) eqn:Hpx.
    + injection Hf as ->. now rewrite Z.eqb_refl in Hx.
    + now apply IH.
Qed.

Lemma filter_none {A} (f : A -> bool) (l : list A) :
  (forall x, In x l -> f x = false) -> List.filter f l = [].
Proof.
  induction l as [|x l IH]; cbn; intro H; [reflexivity|].
  rewrite (H x (or_introl eq_refl)). apply IH. intros y Hy. apply H. now right.
Qed.

Section FreshLogin.

Context {fold : CaseFold} {zone : Calendar}.

(** A validated login of a registered, active user who holds no token
    with an expiry in the future, with a draw that is not stored yet. *)
Variable E : Env.
Variable req : Request authController.LoginBody.
Variable db : DB.
Variable found : User.t.

Let byEmail (u : User.t) : bool :=
  (User.email u
   =? toLowerCase (authController.l_email (body req)))%string.

Hypothesis valid : validationErrors req = [].
Hypothesis registered : User.findOne byEmail (users db) = Some found.
Hypothesis active : User.isActive found = true.
Hypothesis no_session :
  PersonalAccessToken.hasActiveSession (now E) (User.id found) (tokens db)
  = None.
Hypothesis fresh :
  forall x, In x (PersonalAccessToken.rows (tokens db)) ->
            PersonalAccessToken.token x <> toHex (randomBytes (entropy E) 32).

Let tok : string := toHex (randomBytes (entropy E) 32).

Let user : User.t :=
  {| User.id := User.id found;
     User.name :=
       authController.refreshed (authController.l_name (body req))
                                (User.name found);
     User.username := User.username found;
     User.email := User.email found;
     User.imageUrl :=
       authController.refreshed (authController.l_imageUrl (body req))
                                (User.imageUrl found);
     User.additionalInfo := User.additionalInfo found;
     User.active := User.active found;
     User.lastLogin := Some (now E) |}.

Let session : PersonalAccessToken.t :=
  {| PersonalAccessToken.id := PersonalAccessToken.seq (tokens db);
     PersonalAccessToken.tokenable_type := PersonalAccessToken.USER_TYPE;
     PersonalAccessToken.tokenable_id := User.id found;
     PersonalAccessToken.name := "API Login";
     PersonalAccessToken.token := tok;
     PersonalAccessToken.abilities := Some "*";
     PersonalAccessToken.last_used_at := Some (now E);
     PersonalAccessToken.expires_at := Some (addOneDay (now E));
     PersonalAccessToken.created_at := now E;
     PersonalAccessToken.updated_at := now E |}.

Let after : DB :=
  {| users := User.store user (users db);
     tokens :=
       {| PersonalAccessToken.rows :=
            (PersonalAccessToken.rows (tokens db) ++ [session])%list;
          PersonalAccessToken.seq := PersonalAccessToken.seq (tokens db) + 1 |}
  |}.

Lemma fresh_login :
  authController.login E req db
  = (after,
     {| status := 200; success := true; message := "Login berhasil";
        data := Some (LoginData (User.getProfile user) tok
                                (generateAccessToken E user));
        errors := None |}).
Proof.
  rewrite (login_of_active_user E req db found valid registered active).
  rewrite no_session. unfold after, session, user, tok.
  rewrite (createToken_of_fresh_draw
             (now E) (entropy E) _ "API Login" (tokens db) fresh).
  reflexivity.
Qed.

Lemma fresh_login_issued :
  PersonalAccessToken.createToken
    (now E) (entropy E) user "API Login"
    (tokens {| users := User.store user (users db); tokens := tokens db |})
  = Ok (session, tokens after).
Proof.
  exact (createToken_of_fresh_draw
           (now E) (entropy E) user "API Login" (tokens db) fresh).
Qed.

Lemma fresh_login_owner :
  User.findByPk (User.id user) (User.store user (users db)) = Some user.
Proof.
  exact (findByPk_store user found (users db) byEmail registered eq_refl).
Qed.

(** X7.  The token a login hands out authenticates its user: presented as
    [Bearer] token at any instant up to and including the expiry the row
    carries, one day of the calendar after the login, with [verifyToken]
    throwing on it as on any string that is not a JWT, it makes
    [authenticate] pass control on with the user row as the login wrote it
    and the token string attached. *)
Theorem login_token_authenticates :
  forall {B} (E' : Env) (req' : Request B),
    authorization req' = Some ("Bearer " ++ tok)%string ->
    verifyToken E' tok = None ->
    now E' <= addOneDay (now E) ->
    status (snd (authController.login E req db)) = 200
    /\ data (snd (authController.login E req db))
       = Some (LoginData (User.getProfile user) tok
                         (generateAccessToken E user))
    /\ (exists r,
          PersonalAccessToken.rows
            (tokens (fst (authController.login E req db)))
          = (PersonalAccessToken.rows (tokens db) ++ [r])%list
          /\ PersonalAccessToken.token r = tok
          /\ PersonalAccessToken.expires_at r = Some (addOneDay (now E)))
    /\ snd (auth.authenticate E' req' (fst (authController.login E req db)))
       = Next
    /\ Http.user (snd (fst (auth.authenticate
                              E' req' (fst (authController.login E req db)))))
       = Some user
    /\ token (snd (fst (auth.authenticate
                          E' req' (fst (authController.login E req db)))))
       = Some tok.
Proof.
  intros B E' req' Hh Hopaque Hlate. rewrite fresh_login. cbn [fst snd status data].
  split; [reflexivity|]. split; [reflexivity|].
  split; [exists session; cbn; auto|].
  pose proof (issued_token_nonempty
                E {| users := User.store user (users db); tokens := tokens db |}
                user "API Login" session (tokens after) fresh_login_issued)
    as Hne.
  pose proof (issued_token_found
                E {| users := User.store user (users db); tokens := tokens db |}
                user "API Login" session (tokens after) fresh_login_issued)
    as Hfound.
  cbn [PersonalAccessToken.token session] in Hne, Hfound.
  assert (Hx : auth.expired (now E') session = false).
  { unfold auth.expired. cbn [PersonalAccessToken.expires_at session].
    apply Z.ltb_ge. exact Hlate. }
  assert (Hj : auth.jwtVerdict E' tok user = None).
  { unfold auth.jwtVerdict. now rewrite Hopaque. }
  rewrite (authenticate_accepts E' req' after tok Hne Hh session Hfound
             user fresh_login_owner Hx Hj active).
  cbn. auto.
Qed.

(** The rows [hasActiveSession] can match for the user at the instant of
    the login, before it. *)
Lemma no_session_rows (t : Date) :
  now E <= t ->
  List.filter (PersonalAccessToken.whereActiveSession t (User.id found))
    (PersonalAccessToken.rows (tokens db)) = [].
Proof.
  intro Ht. apply filter_none. intros x Hx.
  pose proof no_session as Hnone. rewrite hasActiveSession_none_iff in Hnone.
  unfold PersonalAccessToken.whereActiveSession.
  destruct (Z.eqb_spec (PersonalAccessToken.tokenable_id x) (User.id found))
    as [Hid|]; [|reflexivity].
  destruct (String.eqb_spec (PersonalAccessToken.tokenable_type x)
                            PersonalAccessToken.USER_TYPE) as [Hty|];
    [|reflexivity].
  cbn. destruct (Hnone x Hx Hid Hty) as [-> | [e [-> He]]]; [reflexivity|].
  apply Z.ltb_ge. lia.
Qed.

(** X9.  A second login of the same user, run on the database the first
    one left at an instant before the expiry the first token carries (one
    day of the calendar after the first login), is answered 409 with
    [hasActiveSession: true] and the instant of the first login as
    [sessionCreatedAt]; it creates no token row. *)
Theorem second_login_conflicts_with_first :
  forall (E2 : Env) (req2 : Request authController.LoginBody),
    validationErrors req2 = [] ->
    toLowerCase (authController.l_email (body req2))
    = toLowerCase (authController.l_email (body req)) ->
    now E <= now E2 < addOneDay (now E) ->
    snd (authController.login E2 req2 (fst (authController.login E req db)))
    = {| status := 409; success := false;
         message := authController.SESSION_CONFLICT;
         data := Some (SessionData true (now E));
         errors := None |}
    /\ tokens (fst (authController.login
                      E2 req2 (fst (authController.login E req db))))
       = tokens (fst (authController.login E req db)).
Proof.
  intros E2 req2 Hvalid2 Hemail Hwithin.
  rewrite fresh_login. cbn [fst].
  assert (Hfound2 :
    User.findOne
      (fun u => (User.email u
                 =? toLowerCase (authController.l_email (body req2)))%string)
      (users after) = Some user).
  { rewrite Hemail. cbn [users after].
    apply (findOne_after_store byEmail found user (users db) registered eq_refl).
    unfold byEmail. cbn [User.email user].
    pose proof (List.find_some _ _ registered) as [_ Hp]. exact Hp. }
  rewrite (login_of_active_user E2 req2 after user Hvalid2 Hfound2 active).
  assert (Hs : PersonalAccessToken.hasActiveSession
                 (now E2) (User.id user) (tokens after) = Some session).
  { unfold PersonalAccessToken.hasActiveSession, PersonalAccessToken.findOne.
    cbn [tokens after PersonalAccessToken.rows User.id user].
    apply find_snoc.
    - apply find_none_iff. intros x Hx.
      assert (Hin : ~ In x (List.filter
                              (PersonalAccessToken.whereActiveSession
                                 (now E2) (User.id found))
                              (PersonalAccessToken.rows (tokens db)))).
      { rewrite (no_session_rows (now E2)) by lia. intros []. }
      rewrite List.filter_In in Hin.
      destruct (PersonalAccessToken.whereActiveSession
                  (now E2) (User.id found) x); [|reflexivity].
      exfalso. apply Hin. now split.
    - unfold PersonalAccessToken.whereActiveSession.
      cbn [PersonalAccessToken.tokenable_id PersonalAccessToken.tokenable_type
           PersonalAccessToken.expires_at session].
      rewrite Z.eqb_refl. cbn [andb].
      replace (PersonalAccessToken.USER_TYPE =? PersonalAccessToken.USER_TYPE)%string
        with true by (symmetry; apply String.eqb_refl).
      apply Z.ltb_lt. lia. }
  rewrite Hs. cbn. split; reflexivity.
Qed.

End FreshLogin.

Lemma login_token_authenticates_witness :
  snd (auth.authenticate
         (Sample.env 86401000)
         (Sample.request
            (Some ("Bearer " ++ toHex (randomBytes (fun _ => x2a%byte) 32))%string)
            tt)
         (fst (authController.login
                 (Sample.env 1000) (Sample.request None Sample.loginAlice)
                 (Sample.database [])))) = Next.
Proof.
  refine (proj1 (proj2 (proj2 (proj2
    (login_token_authenticates
       (fold := Sample.asciiFold) (zone := Sample.fixedOffset)
       (Sample.env 1000) (Sample.request None Sample.loginAlice)
       (Sample.database []) Sample.alice
       eq_refl eq_refl eq_refl eq_refl _
       (Sample.env 86401000)
       (Sample.request
          (Some ("Bearer " ++ toHex (randomBytes (fun _ => x2a%byte) 32))%string)
          tt)
       eq_refl eq_refl _))))).
  - intros x [].
  - vm_compute. discriminate.
Defined.

Lemma second_login_conflicts_with_first_witness :
  status (snd (authController.login
                 (Sample.env 2000) (Sample.request None Sample.loginAlice)
                 (fst (authController.login
                         (Sample.env 1000)
                         (Sample.request None Sample.loginAlice)
                         (Sample.database []))))) = 409.
Proof.
  assert (Hfresh :
    forall x,
      In x (PersonalAccessToken.rows (tokens (Sample.database []))) ->
      PersonalAccessToken.token x
      <> toHex (randomBytes (entropy (Sample.env 1000)) 32))
    by (intros x []).
  assert (Hwithin : now (Sample.env 1000) <= now (Sample.env 2000)
                    < addOneDay (now (Sample.env 1000)))
    by (vm_compute; split; [discriminate | reflexivity]).
  pose proof (proj1 (second_login_conflicts_with_first
                       (fold := Sample.asciiFold) (zone := Sample.fixedOffset)
                       (Sample.env 1000)
                       (Sample.request None Sample.loginAlice)
                       (Sample.database []) Sample.alice
                       eq_refl eq_refl eq_refl eq_refl Hfresh
                       (Sample.env 2000)
                       (Sample.request None Sample.loginAlice)
                       eq_refl eq_refl Hwithin)) as H.
  now rewrite H.
Defined.

(** ** The issuer and the session check *)

Section IssuerAndSessionCheck.

Context {zone : Calendar}.

Variable t : Date.
Variable entropy : nat -> byte.
Variable user : User.t.
Variable label : string.
Variable T T' : PersonalAccessToken.table.
Variable r : PersonalAccessToken.t.

Hypothesis issued :
  PersonalAccessToken.createToken t entropy user label T = Ok (r, T').

Let matching (uid : Z) (S : PersonalAccessToken.table)
  : list PersonalAccessToken.t :=
  List.filter (PersonalAccessToken.whereActiveSession t uid)
              (PersonalAccessToken.rows S).

(** The new row is one [hasActiveSession] matches for its user at the
    instant of issuance: its expiry is the next day. *)
Lemma issued_row_matches :
  PersonalAccessToken.whereActiveSession t (User.id user) r = true.
Proof.
  destruct (createToken_inv _ _ _ _ _ _ _ issued)
    as [_ [_ [Hty [Hid [Hexp _]]]]].
  unfold PersonalAccessToken.whereActiveSession.
  rewrite Hid, Hty, Hexp, Z.eqb_refl, String.eqb_refl. cbn.
  apply Z.ltb_lt. apply addOneDay_later.
Qed.

(** X8.  [createToken] does not look at the rows its user holds.  A
    successful call adds its one row to the rows [hasActiveSession] can
    match for that user at the instant of issuance and changes nothing for
    any other user: the user has exactly one such row afterwards when the
    table the insert ran on held none, and more than one when it held
    any.  That a user holds a single session therefore rests on what the
    caller has checked on that same table. *)
Theorem createToken_adds_one_matchable_row :
  matching (User.id user) T' = (matching (User.id user) T ++ [r])%list
  /\ (forall uid, uid <> User.id user -> matching uid T' = matching uid T)
  /\ (PersonalAccessToken.hasActiveSession t (User.id user) T = None ->
      matching (User.id user) T' = [r])
  /\ (forall s,
        PersonalAccessToken.hasActiveSession t (User.id user) T = Some s ->
        (2 <= List.length (matching (User.id user) T'))%nat).
Proof.
  destruct (createToken_inv _ _ _ _ _ _ _ issued)
    as [_ [_ [_ [Hid [_ Hrows]]]]].
  assert (Hown : matching (User.id user) T'
                 = (matching (User.id user) T ++ [r])%list).
  { unfold matching. rewrite Hrows, List.filter_app. cbn.
    now rewrite issued_row_matches. }
  split; [exact Hown|]. split; [|split].
  - intros uid Huid. unfold matching. rewrite Hrows, List.filter_app. cbn.
    unfold PersonalAccessToken.whereActiveSession at 2. rewrite Hid.
    replace (User.id user =? uid) with false
      by (symmetry; apply Z.eqb_neq; congruence).
    cbn. apply List.app_nil_r.
  - intro Hnone. rewrite Hown. unfold matching.
    replace (List.filter
               (PersonalAccessToken.whereActiveSession t (User.id user))
               (PersonalAccessToken.rows T)) with (@nil PersonalAccessToken.t);
      [reflexivity|].
    symmetry. apply filter_none.
    unfold PersonalAccessToken.hasActiveSession, PersonalAccessToken.findOne
      in Hnone.
    now apply find_none_iff.
  - intros s Hs. rewrite Hown, List.length_app. cbn.
    unfold PersonalAccessToken.hasActiveSession, PersonalAccessToken.findOne
      in Hs.
    apply List.find_some in Hs.
    assert (Hin : In s (matching (User.id user) T)).
    { unfold matching. now apply List.filter_In. }
    destruct (matching (User.id user) T); [destruct Hin | cbn; lia].
Qed.

(** X30.  A token is live at the instant it is issued, for each of the
    three expiry checks and in every time zone: its expiry is the same
    wall-clock time on the next calendar day, which is later than the
    issuance, so [isValid] holds, [hasActiveSession] matches the row for
    its user, and [authenticate] does not find it expired. *)
Theorem issued_token_is_live_at_issuance :
  PersonalAccessToken.expires_at r = Some (addOneDay t)
  /\ PersonalAccessToken.isValid t r = true
  /\ PersonalAccessToken.whereActiveSession t (User.id user) r = true
  /\ auth.expired t r = false.
Proof.
  destruct (createToken_inv _ _ _ _ _ _ _ issued)
    as [_ [_ [_ [_ [Hexp _]]]]].
  pose proof (addOneDay_later t) as Hlater.
  split; [exact Hexp|]. split; [|split].
  - unfold PersonalAccessToken.isValid. rewrite Hexp. now apply Z.ltb_lt.
  - exact issued_row_matches.
  - unfold auth.expired. rewrite Hexp. apply Z.ltb_ge. lia.
Qed.

End IssuerAndSessionCheck.

Lemma createToken_adds_one_matchable_row_witness :
  List.length
    (List.filter (PersonalAccessToken.whereActiveSession 5000 1)
       (PersonalAccessToken.rows Sample.secondSession))
  = 2%nat.
Proof.
  destruct (createToken_adds_one_matchable_row
              (zone := Sample.fixedOffset)
              5000 (entropy (Sample.env 5000)) Sample.alice "API Login"
              (tokens Sample.aliceSession) Sample.secondSession
              (Sample.session 10 1
                 (toHex (randomBytes (entropy (Sample.env 5000)) 32))
                 (Some 86405000) 5000)
              eq_refl) as [Hown _].
  apply (f_equal (@List.length _)) in Hown. exact Hown.
Defined.

Lemma issued_token_is_live_at_issuance_witness :
  exists r T',
    PersonalAccessToken.createToken
      (zone := Sample.springForward)
      1772902800000 (entropy (Sample.env 1772902800000)) Sample.alice
      "API Login" (tokens (Sample.database [])) = Ok (r, T')
    /\ PersonalAccessToken.expires_at r
       = Some (1772902800000 + 23 * 60 * 60 * 1000)
    /\ PersonalAccessToken.isValid 1772902800000 r = true.
Proof.
  destruct (PersonalAccessToken.createToken
              (zone := Sample.springForward)
              1772902800000 (entropy (Sample.env 1772902800000)) Sample.alice
              "API Login" (tokens (Sample.database []))) as [[r T']|e] eqn:Hc;
    [|vm_compute in Hc; discriminate].
  exists r, T'. split; [reflexivity|].
  destruct (issued_token_is_live_at_issuance
              (zone := Sample.springForward)
              1772902800000 (entropy (Sample.env 1772902800000)) Sample.alice
              "API Login" (tokens (Sample.database [])) T' r Hc)
    as [Hexp [Hvalid _]].
  split; [exact Hexp | exact Hvalid].
Defined.

(** ** After logout *)

Lemma destroyed_token_unknown (tok : string) (T : PersonalAccessToken.table) :
  PersonalAccessToken.findOne
    (PersonalAccessToken.whereUserToken tok)
    (PersonalAccessToken.destroy_token tok T) = None.
Proof.
  unfold PersonalAccessToken.findOne, PersonalAccessToken.destroy_token. cbn.
  apply find_none_iff. intros x Hx. apply List.filter_In in Hx.
  destruct Hx as [_ Hx]. unfold PersonalAccessToken.whereUserToken.
  apply negb_true_iff in Hx. now rewrite Hx.
Qed.

(** X10.  A token used for a logout never authenticates again: whatever
    the instant and whatever [verifyToken] says, a request presenting it
    to the database the logout left is answered 401, not found in the
    database, and nothing is written. *)
Theorem logged_out_token_is_unknown :
  forall {B B'} (E : Env) (req : Request B) (db : DB) (u : User.t)
         (tok : string) (E' : Env) (req' : Request B'),
    user req = Some u ->
    token req = Some tok ->
    tok <> EmptyString ->
    authorization req' = Some ("Bearer " ++ tok)%string ->
    auth.authenticate E' req' (fst (authController.logout E req db))
    = (fst (authController.logout E req db), req',
       Respond
         (fail 401 "Token tidak ditemukan di database. Akses ditolak.")).
Proof.
  intros B B' E req db u tok E' req' Hu Ht Htok Hh.
  apply (authenticate_unknown_token E' req' _ tok Htok Hh).
  rewrite (logout_of_authenticated E req db u tok Hu Ht Htok).
  apply destroyed_token_unknown.
Qed.

Lemma logged_out_token_is_unknown_witness :
  snd (auth.authenticate
         (Sample.env 5002) (Sample.request (Some "Bearer c0ffee") tt)
         (fst (authController.logout
                 (Sample.env 5001)
                 (attach (Sample.request (Some "Bearer c0ffee") tt)
                         Sample.alice "c0ffee"
                         (Sample.session 1 1 "c0ffee" (Some 9000) 1000))
                 Sample.aliceSession)))
  = Respond (fail 401 "Token tidak ditemukan di database. Akses ditolak.").
Proof.
  rewrite (logged_out_token_is_unknown
             (Sample.env 5001)
             (attach (Sample.request (Some "Bearer c0ffee") tt)
                     Sample.alice "c0ffee"
                     (Sample.session 1 1 "c0ffee" (Some 9000) 1000))
             Sample.aliceSession Sample.alice "c0ffee"
             (Sample.env 5002) (Sample.request (Some "Bearer c0ffee") tt)
             eq_refl eq_refl).
  - reflexivity.
  - discriminate.
  - reflexivity.
Defined.

(** X11.  The logout route is not repeatable with the same header: once
    [POST /logout] has answered 200, the same request against the
    resulting database is answered 401 by [authenticate], at any later
    instant, and changes nothing further. *)
Theorem postLogout_twice :
  forall {B} (E E' : Env) (req : Request B) (db : DB),
    status (snd (authRoutes.postLogout E req db)) = 200 ->
    authRoutes.postLogout E' req (fst (authRoutes.postLogout E req db))
    = (fst (authRoutes.postLogout E req db),
       fail 401 "Token tidak ditemukan di database. Akses ditolak.").
Proof.
  intros B E E' req db H200. unfold authRoutes.postLogout in *.
  destruct (authenticate_cases E req db)
    as [[tok [r [u [Htok [Hh [_ [_ [_ [_ [_ Hm]]]]]]]]]] | [db' [msg Hm]]];
    rewrite Hm in *; cbn [fst snd] in *; [|discriminate].
  set (req1 := attach req u tok (PersonalAccessToken.touch (now E) r)) in *.
  set (db1 := {| users := users db;
                 tokens := snd (PersonalAccessToken.update_last_used
                                  (now E) r (tokens db)) |}) in *.
  assert (Hu : user req1 = Some u) by reflexivity.
  assert (Ht : token req1 = Some tok) by reflexivity.
  rewrite (logout_of_authenticated E req1 db1 u tok Hu Ht Htok). cbn [fst].
  rewrite (authenticate_unknown_token
             E' req
             {| users := users db1;
                tokens := PersonalAccessToken.destroy_token tok (tokens db1) |}
             tok Htok Hh (destroyed_token_unknown tok (tokens db1))).
  reflexivity.
Qed.

Lemma postLogout_twice_witness :
  status (snd (authRoutes.postLogout
                 (Sample.env 5001) (Sample.request (Some "Bearer c0ffee") tt)
                 (fst (authRoutes.postLogout
                         (Sample.env 5000)
                         (Sample.request (Some "Bearer c0ffee") tt)
                         Sample.aliceSession)))) = 401.
Proof.
  rewrite (postLogout_twice
             (Sample.env 5000) (Sample.env 5001)
             (Sample.request (Some "Bearer c0ffee") tt) Sample.aliceSession
             eq_refl).
  reflexivity.
Defined.

(** ** Registration: what it writes and what it keeps *)

Lemma nodup_snoc {A} (l : list A) (x : A) :
  List.NoDup l -> ~ In x l -> List.NoDup (l ++ [x])%list.
Proof.
  induction l as [|a l IH]; cbn; intros Hnd Hx.
  - constructor; [intros [] | constructor].
  - inversion Hnd as [|? ? Ha Hl]; subst. constructor.
    + intro Hin. apply List.in_app_or in Hin.
      destruct Hin as [Hin | [<- | []]]; [now apply Ha | apply Hx; now left].
    + apply IH; [exact Hl | intro Hin; apply Hx; now right].
Qed.

Section RegisterShape.

Context {fold : CaseFold} {zone : Calendar}.

Variable E : Env.
Variable req : Request authController.RegisterBody.
Variable db : DB.

Let b := body req.

Let created : User.t :=
  {| User.id := User.seq (users db);
     User.name := authController.name b;
     User.username := authController.username b;
     User.email := toLowerCase (authController.email b);
     User.imageUrl :=
       orElse (authController.imageUrl b) "https://via.placeholder.com/150";
     User.additionalInfo :=
       User.f_additionalInfo (authController.newUserFields b);
     User.active := true;
     User.lastLogin := None |}.

(** [register] either leaves the database alone and answers something
    other than 201, or appends the one row built from the request. *)
Lemma register_shape :
  (fst (authController.register E req db) = db
   /\ status (snd (authController.register E req db)) <> 201)
  \/ (validationErrors req = []
      /\ (forall x, In x (User.rows (users db)) ->
                    User.email x <> toLowerCase (authController.email b)
                    /\ User.username x <> authController.username b)
      /\ authController.register E req db
         = ({| users := {| User.rows := (User.rows (users db) ++ [created])%list;
                           User.seq := User.seq (users db) + 1 |};
               tokens := tokens db |},
            {| status := 201; success := true;
               message := "User berhasil didaftarkan";
               data := Some (UserData (User.getProfile created));
               errors := None |})).
Proof.
  unfold authController.register. fold b.
  destruct (validationErrors req) as [|fe errs];
    [|left; split; [reflexivity | discriminate]].
  cbv zeta.
  destruct (User.findOne (authController.whereTaken b) (users db))
    as [existing|] eqn:Hfind;
    [left; split; [reflexivity | discriminate]|].
  unfold User.create.
  destruct (userValidators E (authController.newUserFields b)) as [|ve vs];
    [|left; split; [reflexivity | discriminate]].
  destruct (List.existsb _ (User.rows (users db))) eqn:He;
    [left; split; [reflexivity | discriminate]|].
  destruct (List.existsb
              (fun r => (User.username r
                         =? User.f_username (authController.newUserFields b))%string)
              (User.rows (users db))) eqn:Hu;
    [left; split; [reflexivity | discriminate]|].
  right. split; [reflexivity|]. split; [|reflexivity].
  intros x Hx. rewrite existsb_false_iff in He, Hu.
  specialize (He x Hx). specialize (Hu x Hx). cbn in He, Hu.
  split; now apply String.eqb_neq.
Qed.

(** X12.  [register] never touches the token table, changes the user
    table only when it answers 201, and then by appending exactly one
    row: active, without last login, with the next primary key, the
    request's username and the lower-cased request email. *)
Theorem register_writes_one_row_or_nothing :
  tokens (fst (authController.register E req db)) = tokens db
  /\ (status (snd (authController.register E req db)) <> 201 ->
      fst (authController.register E req db) = db)
  /\ (status (snd (authController.register E req db)) = 201 ->
      exists u,
        User.rows (users (fst (authController.register E req db)))
        = (User.rows (users db) ++ [u])%list
        /\ User.id u = User.seq (users db)
        /\ User.email u = toLowerCase (authController.email b)
        /\ User.username u = authController.username b
        /\ User.active u = true
        /\ User.lastLogin u = None).
Proof.
  destruct register_shape as [[Hdb Hst] | [_ [_ Hreg]]].
  - rewrite Hdb. split; [reflexivity|]. split; [reflexivity|].
    intro H. contradiction.
  - rewrite Hreg. cbn [fst snd status]. split; [reflexivity|]. split.
    + intro H. now elim H.
    + intros _. exists created. cbn. auto 10.
Qed.

(** X13.  A validated registration whose lower-cased email or whose
    username is already stored is answered 409 and writes nothing; the
    message names the email when no stored row has the username, and the
    username when no stored row has the email. *)
Theorem register_duplicate_conflicts :
  validationErrors req = [] ->
  (exists x, In x (User.rows (users db))
             /\ (User.email x = toLowerCase (authController.email b)
                 \/ User.username x = authController.username b)) ->
  fst (authController.register E req db) = db
  /\ status (snd (authController.register E req db)) = 409
  /\ ((forall x, In x (User.rows (users db)) ->
                 User.username x <> authController.username b) ->
      snd (authController.register E req db)
      = fail 409 authController.EMAIL_TAKEN)
  /\ ((forall x, In x (User.rows (users db)) ->
                 User.email x <> toLowerCase (authController.email b)) ->
      snd (authController.register E req db)
      = fail 409 authController.USERNAME_TAKEN).
Proof.
  intros Hvalid [x [Hx Hdup]].
  unfold authController.register. fold b. rewrite Hvalid. cbv zeta.
  destruct (User.findOne (authController.whereTaken b) (users db))
    as [existing|] eqn:Hfind.
  - destruct (List.find_some _ _ Hfind) as [Hin Hw].
    cbn [fst snd status]. split; [reflexivity|]. split.
    { now destruct (User.email existing
                    =? toLowerCase (authController.email b))%string. }
    unfold authController.whereTaken in Hw. apply orb_true_iff in Hw. split.
    + intro Hname. destruct Hw as [Hw | Hw]; [now rewrite Hw|].
      apply String.eqb_eq in Hw. now elim (Hname existing Hin).
    + intro Hmail.
      destruct (String.eqb_spec (User.email existing)
                                (toLowerCase (authController.email b)))
        as [Heq|]; [now elim (Hmail existing Hin) | reflexivity].
  - exfalso. unfold User.findOne in Hfind. rewrite find_none_iff in Hfind.
    specialize (Hfind x Hx). unfold authController.whereTaken in Hfind.
    apply orb_false_iff in Hfind. destruct Hfind as [He Hu].
    apply String.eqb_neq in He, Hu. tauto.
Qed.

(** The user table is well formed: primary keys are unique and below the
    counter, emails and usernames are unique, emails are lower-case. *)
Let well_formed (T : User.table) : Prop :=
  List.NoDup (List.map User.id (User.rows T))
  /\ (forall x, In x (User.rows T) -> User.id x < User.seq T)
  /\ List.NoDup (List.map User.email (User.rows T))
  /\ List.NoDup (List.map User.username (User.rows T))
  /\ (forall x, In x (User.rows T) ->
                toLowerCase (User.email x) = User.email x).

(** X14.  [register] keeps the user table well formed: unique primary
    keys below the counter, unique emails, unique usernames, and every
    stored email in lower case (so that its lookup by lower-cased email
    compares without regard to case). *)
Theorem register_keeps_users_well_formed :
  well_formed (users db) ->
  well_formed (users (fst (authController.register E req db))).
Proof.
  intros [Hids [Hseq [Hemails [Hnames Hlower]]]].
  destruct register_shape as [[-> _] | [_ [Hfree ->]]];
    [unfold well_formed; auto|].
  cbn [fst users User.rows User.seq]. unfold well_formed.
  cbn [User.rows User.seq].
  rewrite !List.map_app. cbn [List.map].
  assert (Hnotin :
    forall {K} (f : User.t -> K) (k : K),
      (forall x, In x (User.rows (users db)) -> f x <> k) ->
      ~ In k (List.map f (User.rows (users db)))).
  { intros K f k Hne Hin. apply List.in_map_iff in Hin.
    destruct Hin as [x [Hfx Hx]]. exact (Hne x Hx Hfx). }
  split; [|split; [|split; [|split]]].
  - apply nodup_snoc; [exact Hids|]. apply Hnotin.
    intros x Hx. specialize (Hseq x Hx). cbn. lia.
  - intros x Hx. apply List.in_app_or in Hx.
    destruct Hx as [Hx | [<- | []]]; [specialize (Hseq x Hx) | cbn]; lia.
  - apply nodup_snoc; [exact Hemails|]. apply Hnotin.
    intros x Hx. exact (proj1 (Hfree x Hx)).
  - apply nodup_snoc; [exact Hnames|]. apply Hnotin.
    intros x Hx. exact (proj2 (Hfree x Hx)).
  - intros x Hx. apply List.in_app_or in Hx.
    destruct Hx as [Hx | [<- | []]]; [now apply Hlower|].
    cbn. apply toLowerCase_idem.
Qed.

(** X15.  An identity that [register] has just created can log in under
    any casing of its email: a validated login with an email equal up to
    case is answered neither 404 nor 403 but 200, 409 or (on a colliding
    draw) 500. *)
Theorem registered_identity_is_found_by_login :
  status (snd (authController.register E req db)) = 201 ->
  forall (E2 : Env) (req2 : Request authController.LoginBody),
    validationErrors req2 = [] ->
    toLowerCase (authController.l_email (body req2))
    = toLowerCase (authController.email b) ->
    let answer :=
      status (snd (authController.login
                     E2 req2 (fst (authController.register E req db)))) in
    answer = 200 \/ answer = 409 \/ answer = 500.
Proof.
  intros H201 E2 req2 Hvalid2 Hemail.
  destruct register_shape as [[_ Hst] | [_ [Hfree Hreg]]];
    [contradiction|].
  rewrite Hreg. cbn [fst].
  assert (Hfound :
    User.findOne
      (fun u => (User.email u
                 =? toLowerCase (authController.l_email (body req2)))%string)
      {| User.rows := (User.rows (users db) ++ [created])%list;
         User.seq := User.seq (users db) + 1 |} = Some created).
  { unfold User.findOne. cbn [User.rows]. rewrite Hemail. apply find_snoc.
    - apply find_none_iff. intros x Hx. apply String.eqb_neq.
      exact (proj1 (Hfree x Hx)).
    - cbn. apply String.eqb_refl. }
  rewrite (login_of_active_user
             E2 req2
             {| users := {| User.rows := (User.rows (users db) ++ [created])%list;
                            User.seq := User.seq (users db) + 1 |};
                tokens := tokens db |}
             created Hvalid2 Hfound eq_refl).
  destruct (PersonalAccessToken.hasActiveSession _ _ _); [cbn; auto|].
  destruct (PersonalAccessToken.createToken _ _ _ _ _) as [[tr tt']|err];
    cbn; auto.
Qed.

End RegisterShape.

Lemma register_duplicate_conflicts_witness :
  authController.register
    (Sample.env 500) (Sample.request None Sample.registerAliceAgain)
    (Sample.database [])
  = (Sample.database [], fail 409 authController.EMAIL_TAKEN).
Proof.
  assert (Hdup :
    exists x, In x (User.rows (users (Sample.database [])))
              /\ (User.email x
                  = toLowerCase (authController.email Sample.registerAliceAgain)
                  \/ User.username x
                     = authController.username Sample.registerAliceAgain)).
  { exists Sample.alice. split; [now left | left; reflexivity]. }
  destruct (register_duplicate_conflicts
              (fold := Sample.asciiFold)
              (Sample.env 500) (Sample.request None Sample.registerAliceAgain)
              (Sample.database []) eq_refl Hdup)
    as [Hdb [_ [Hmsg _]]].
  rewrite (surjective_pairing (authController.register _ _ _)).
  rewrite Hdb, Hmsg; [reflexivity|].
  intros x [<-|[<-|[]]]; discriminate.
Defined.

Lemma register_keeps_users_well_formed_witness :
  List.NoDup
    (List.map User.email
       (User.rows
          (users (fst (authController.register
                         (Sample.env 500)
                         (Sample.request None Sample.registerCarol)
                         (Sample.database [])))))).
Proof.
  refine (proj1 (proj2 (proj2
    (register_keeps_users_well_formed
       (fold := Sample.asciiFold)
       (Sample.env 500) (Sample.request None Sample.registerCarol)
       (Sample.database []) _)))).
  split; [|split; [|split; [|split]]].
  - repeat constructor; cbn; intuition discriminate.
  - intros x [<-|[<-|[]]]; reflexivity.
  - repeat constructor; cbn; intuition discriminate.
  - repeat constructor; cbn; intuition discriminate.
  - intros x [<-|[<-|[]]]; reflexivity.
Defined.

Lemma registered_identity_is_found_by_login_witness :
  status (snd (authController.login
                 (Sample.env 600) (Sample.request None Sample.loginCarol)
                 (fst (authController.register
                         (Sample.env 500)
                         (Sample.request None Sample.registerCarol)
                         (Sample.database []))))) = 200.
Proof.
  destruct (registered_identity_is_found_by_login
              (fold := Sample.asciiFold) (zone := Sample.fixedOffset)
              (Sample.env 500) (Sample.request None Sample.registerCarol)
              (Sample.database []) eq_refl
              (Sample.env 600) (Sample.request None Sample.loginCarol)
              eq_refl eq_refl)
    as [H | [H | H]].
  - exact H.
  - vm_compute in H. discriminate.
  - vm_compute in H. discriminate.
Defined.

(** ** Login: what it writes on each path *)

Lemma store_keeps_columns {K} (f : User.t -> K) (u' found : User.t)
    (T : User.table) :
  User.id u' = User.id found ->
  f u' = f found ->
  List.NoDup (List.map User.id (User.rows T)) ->
  In found (User.rows T) ->
  List.map f (User.rows (User.store u' T)) = List.map f (User.rows T).
Proof.
  intros Hid Hf Hnd Hin. cbn. rewrite List.map_map.
  apply List.map_ext_in. intros x Hx. rewrite Hid.
  destruct (Z.eqb_spec (User.id x) (User.id found)) as [Heq|]; [|reflexivity].
  rewrite Hf. f_equal. symmetry.
  exact (nodup_map_injective User.id _ x found Hnd Hx Hin Heq).
Qed.

Section LoginPaths.

Context {fold : CaseFold} {zone : Calendar}.

Variable E : Env.
Variable req : Request authController.LoginBody.
Variable db : DB.

Let b := body req.

Let byEmail (u : User.t) : bool :=
  (User.email u =? toLowerCase (authController.l_email b))%string.

(** The row as [user.save()] writes it: name and avatar refreshed. *)
Let saved (found : User.t) : User.t :=
  User.setImageUrl
    (User.setName found
       (authController.refreshed (authController.l_name b) (User.name found)))
    (authController.refreshed (authController.l_imageUrl b)
                              (User.imageUrl found)).

(** The row after [updateLastLogin()] as well. *)
Let stamped (found : User.t) : User.t :=
  User.setLastLogin (saved found) (now E).

Lemma login_of_deactivated_user (found : User.t) :
  validationErrors req = [] ->
  User.findOne byEmail (users db) = Some found ->
  User.isActive found = false ->
  authController.login E req db
  = ({| users := User.store (saved found) (users db); tokens := tokens db |},
     fail 403 "Akun Anda telah dinonaktifkan").
Proof.
  intros Hvalid Hfound Hinactive. unfold authController.login.
  rewrite Hvalid. fold b. cbv zeta. fold byEmail. rewrite Hfound.
  unfold User.isActive in *.
  cbn [User.setImageUrl User.setName User.active].
  rewrite Hinactive. reflexivity.
Qed.

(** Every run of [login] is of one of four kinds. *)
Lemma login_shape :
  (fst (authController.login E req db) = db
   /\ (status (snd (authController.login E req db)) = 400
       \/ status (snd (authController.login E req db)) = 404))
  \/ exists found,
       User.findOne byEmail (users db) = Some found
       /\ ((users (fst (authController.login E req db))
            = User.store (saved found) (users db)
            /\ tokens (fst (authController.login E req db)) = tokens db
            /\ status (snd (authController.login E req db)) = 403)
           \/ (users (fst (authController.login E req db))
               = User.store (stamped found) (users db)
               /\ tokens (fst (authController.login E req db)) = tokens db
               /\ (status (snd (authController.login E req db)) = 409
                   \/ status (snd (authController.login E req db)) = 500))
           \/ (users (fst (authController.login E req db))
               = User.store (stamped found) (users db)
               /\ status (snd (authController.login E req db)) = 200
               /\ exists r,
                    tokens (fst (authController.login E req db))
                    = {| PersonalAccessToken.rows :=
                           (PersonalAccessToken.rows (tokens db) ++ [r])%list;
                         PersonalAccessToken.seq :=
                           PersonalAccessToken.seq (tokens db) + 1 |}
                    /\ PersonalAccessToken.tokenable_id r = User.id found
                    /\ PersonalAccessToken.expires_at r
                       = Some (addOneDay (now E)))).
Proof.
  destruct (validationErrors req) as [|fe errs] eqn:Hvalid.
  2:{ left. unfold authController.login. rewrite Hvalid. cbn. auto. }
  destruct (User.findOne byEmail (users db)) as [found|] eqn:Hfound.
  2:{ left. unfold authController.login. rewrite Hvalid. fold b.
      cbv zeta. fold byEmail. rewrite Hfound. cbn. auto. }
  right. exists found. split; [reflexivity|].
  destruct (User.isActive found) eqn:Hactive.
  2:{ left. rewrite (login_of_deactivated_user found Hvalid Hfound Hactive).
      cbn. auto. }
  right. rewrite (login_of_active_user E req db found Hvalid Hfound Hactive).
  destruct (PersonalAccessToken.hasActiveSession _ _ _) as [s|];
    [left; cbn; auto|].
  unfold PersonalAccessToken.createToken, PersonalAccessToken.create.
  destruct (List.existsb _ (PersonalAccessToken.rows (tokens db)));
    [left; cbn; auto|].
  right. cbn [fst snd users tokens status].
  split; [reflexivity|]. split; [reflexivity|].
  eexists. split; [reflexivity|]. cbn. split; reflexivity.
Qed.

(** X16.  Whatever the request, [login] never deletes or alters an
    existing token row: the token table afterwards is the one before, or
    the one before with one row appended when the answer is 200; and a
    login answered 400 or 404 writes nothing at all. *)
Theorem login_only_appends_tokens :
  (tokens (fst (authController.login E req db)) = tokens db
   \/ (status (snd (authController.login E req db)) = 200
       /\ exists r,
            PersonalAccessToken.rows
              (tokens (fst (authController.login E req db)))
            = (PersonalAccessToken.rows (tokens db) ++ [r])%list))
  /\ (status (snd (authController.login E req db)) <> 200 ->
      tokens (fst (authController.login E req db)) = tokens db)
  /\ (status (snd (authController.login E req db)) = 400
      \/ status (snd (authController.login E req db)) = 404 ->
      fst (authController.login E req db) = db).
Proof.
  destruct login_shape
    as [[Hdb Hst]
       | [found [_ [[_ [Ht Hst]] | [[_ [Ht Hst]] | [_ [Hst [r [Ht _]]]]]]]]].
  - rewrite Hdb. split; [now left|]. split; [reflexivity|]. reflexivity.
  - rewrite Ht, Hst. split; [now left|]. split; [reflexivity|].
    intros [H | H]; discriminate.
  - rewrite Ht. split; [now left|]. split; [reflexivity|].
    intros [H | H]; destruct Hst as [Hs | Hs]; rewrite Hs in H; discriminate.
  - rewrite Ht, Hst. split.
    + right. split; [reflexivity|]. now exists r.
    + split; [intro H; now elim H | intros [H | H]; discriminate].
Qed.

(** X17.  With unique primary keys in the user table, [login] changes at
    most the name, the avatar and the last login of the row it found by
    email: every row keeps its primary key, username, email, preferences
    and active flag, the rows keep their order, and the counter stays. *)
Theorem login_keeps_identities :
  List.NoDup (List.map User.id (User.rows (users db))) ->
  List.map
    (fun u => (User.id u, User.username u, User.email u,
               User.additionalInfo u, User.active u))
    (User.rows (users (fst (authController.login E req db))))
  = List.map
      (fun u => (User.id u, User.username u, User.email u,
                 User.additionalInfo u, User.active u))
      (User.rows (users db))
  /\ User.seq (users (fst (authController.login E req db)))
     = User.seq (users db).
Proof.
  intro Hpk.
  destruct login_shape as [[-> _] | [found [Hf Hcases]]]; [auto|].
  pose proof (proj1 (List.find_some _ _ Hf)) as Hin.
  destruct Hcases as [[-> _] | [[-> _] | [-> _]]];
    (split; [|reflexivity]);
    apply (store_keeps_columns _ _ found); try reflexivity; assumption.
Qed.

(** X18.  A validated login of a deactivated user is answered 403 after
    [user.save()] and before [updateLastLogin()]: the name and avatar of
    the request are already written to the row, its last login is not
    stamped, and no token is created. *)
Theorem deactivated_login_has_saved_the_profile (found : User.t) :
  validationErrors req = [] ->
  User.findOne byEmail (users db) = Some found ->
  User.isActive found = false ->
  snd (authController.login E req db)
  = fail 403 "Akun Anda telah dinonaktifkan"
  /\ tokens (fst (authController.login E req db)) = tokens db
  /\ User.findByPk (User.id found)
                   (users (fst (authController.login E req db)))
     = Some (saved found)
  /\ User.lastLogin (saved found) = User.lastLogin found
  /\ (forall n, authController.l_name b = Some n -> n <> EmptyString ->
                User.name (saved found) = n)
  /\ (forall i, authController.l_imageUrl b = Some i -> i <> EmptyString ->
                User.imageUrl (saved found) = i).
Proof.
  intros Hvalid Hfound Hinactive.
  rewrite (login_of_deactivated_user found Hvalid Hfound Hinactive).
  cbn [fst snd users tokens].
  split; [reflexivity|]. split; [reflexivity|]. split.
  { now apply (findByPk_store _ _ _ byEmail). }
  split; [reflexivity|]. split.
  - intros n Hn Hne. cbn. rewrite Hn. now apply refreshed_provided.
  - intros i Hi Hne. cbn. rewrite Hi. now apply refreshed_provided.
Qed.

(** X19.  When the string drawn for a new token is already stored, the
    unique index refuses the insert and a validated login of an active
    user without session is answered 500: no token row is added, but the
    user row has been written, last login included. *)
Theorem colliding_draw_fails_the_login (found : User.t) :
  validationErrors req = [] ->
  User.findOne byEmail (users db) = Some found ->
  User.isActive found = true ->
  PersonalAccessToken.hasActiveSession (now E) (User.id found) (tokens db)
  = None ->
  (exists x, In x (PersonalAccessToken.rows (tokens db))
             /\ PersonalAccessToken.token x
                = toHex (randomBytes (entropy E) 32)) ->
  snd (authController.login E req db) = authController.serverError
  /\ tokens (fst (authController.login E req db)) = tokens db
  /\ User.findByPk (User.id found)
                   (users (fst (authController.login E req db)))
     = Some (stamped found).
Proof.
  intros Hvalid Hfound Hactive Hnone Hcollide.
  rewrite (login_of_active_user E req db found Hvalid Hfound Hactive), Hnone.
  rewrite (createToken_collision (now E) (entropy E) _ "API Login"
             (tokens db) Hcollide).
  cbn [fst snd users tokens].
  split; [reflexivity|]. split; [reflexivity|].
  now apply (findByPk_store _ _ _ byEmail).
Qed.

End LoginPaths.

Lemma login_keeps_identities_witness :
  List.map User.email
    (User.rows
       (users (fst (authController.login
                      (Sample.env 5000) (Sample.request None Sample.loginAlice)
                      Sample.aliceSession))))
  = ["a@x.com"; "b@x.com"].
Proof.
  assert (Hpk : List.NoDup
                  (List.map User.id (User.rows (users Sample.aliceSession)))).
  { repeat constructor; cbn; intuition discriminate. }
  pose proof (proj1 (login_keeps_identities
                       (fold := Sample.asciiFold) (zone := Sample.fixedOffset)
                       (Sample.env 5000)
                       (Sample.request None Sample.loginAlice)
                       Sample.aliceSession Hpk)) as Hcols.
  apply (f_equal (List.map (fun c => snd (fst (fst c))))) in Hcols.
  rewrite !List.map_map in Hcols. exact Hcols.
Defined.

Lemma deactivated_login_has_saved_the_profile_witness :
  snd (authController.login
         (Sample.env 5000) (Sample.request None Sample.loginBob)
         (Sample.database []))
  = fail 403 "Akun Anda telah dinonaktifkan"
  /\ User.findByPk 2
       (users (fst (authController.login
                      (Sample.env 5000) (Sample.request None Sample.loginBob)
                      (Sample.database []))))
     = Some (User.setName Sample.bob "Robert").
Proof.
  destruct (deactivated_login_has_saved_the_profile
              (fold := Sample.asciiFold) (zone := Sample.fixedOffset)
              (Sample.env 5000) (Sample.request None Sample.loginBob)
              (Sample.database []) Sample.bob eq_refl eq_refl eq_refl)
    as [Hres [_ [Hrow _]]].
  split; [exact Hres | exact Hrow].
Defined.

Lemma colliding_draw_fails_the_login_witness :
  snd (authController.login
         (Sample.env 5000) (Sample.request None Sample.loginAlice)
         Sample.bobHoldsTheDraw)
  = authController.serverError.
Proof.
  refine (proj1 (colliding_draw_fails_the_login
                   (fold := Sample.asciiFold) (zone := Sample.fixedOffset)
                   (Sample.env 5000) (Sample.request None Sample.loginAlice)
                   Sample.bobHoldsTheDraw Sample.alice
                   eq_refl eq_refl eq_refl eq_refl _)).
  exists (Sample.session 1 2 (toHex (randomBytes (fun _ => x2a%byte) 32))
                         (Some 9000) 1000).
  split; [now left | reflexivity].
Defined.

(** ** Bulk revocation *)

Section Revocation.

Variable uid : Z.
Variable T : PersonalAccessToken.table.

Lemma destroy_rows (where_ : PersonalAccessToken.t -> bool)
    (x : PersonalAccessToken.t) :
  In x (PersonalAccessToken.rows (snd (PersonalAccessToken.destroy where_ T)))
  <-> In x (PersonalAccessToken.rows T) /\ where_ x = false.
Proof.
  cbn. rewrite List.filter_In. now rewrite negb_true_iff.
Qed.

Lemma destroy_count (where_ : PersonalAccessToken.t -> bool) :
  Z.of_nat (List.length (PersonalAccessToken.rows T))
  = fst (PersonalAccessToken.destroy where_ T)
    + Z.of_nat (List.length
                  (PersonalAccessToken.rows
                     (snd (PersonalAccessToken.destroy where_ T)))).
Proof.
  cbn. rewrite <- Nat2Z.inj_add. f_equal.
  induction (PersonalAccessToken.rows T) as [|x l IH]; [reflexivity|].
  cbn. destruct (where_ x); cbn; lia.
Qed.

(** X20.  [revokeAllUserTokens] deletes exactly the user-token rows of
    that user and reports how many: the rows left are the rows of other
    owners (or other owner types), in their order; the count returned is
    the number of rows gone; and afterwards [hasActiveSession] finds
    nothing for that user at any instant, so the next login is not
    refused for an existing session. *)
Theorem revokeAllUserTokens_ends_every_session :
  (forall x,
     In x (PersonalAccessToken.rows
             (snd (PersonalAccessToken.revokeAllUserTokens uid T)))
     <-> In x (PersonalAccessToken.rows T)
         /\ ~ (PersonalAccessToken.tokenable_id x = uid
               /\ PersonalAccessToken.tokenable_type x
                  = PersonalAccessToken.USER_TYPE))
  /\ Z.of_nat (List.length (PersonalAccessToken.rows T))
     = fst (PersonalAccessToken.revokeAllUserTokens uid T)
       + Z.of_nat (List.length
                     (PersonalAccessToken.rows
                        (snd (PersonalAccessToken.revokeAllUserTokens uid T))))
  /\ (forall t,
        PersonalAccessToken.hasActiveSession
          t uid (snd (PersonalAccessToken.revokeAllUserTokens uid T))
        = None)
  /\ (forall t other,
        other <> uid ->
        PersonalAccessToken.hasActiveSession
          t other (snd (PersonalAccessToken.revokeAllUserTokens uid T))
        = PersonalAccessToken.hasActiveSession t other T).
Proof.
  unfold PersonalAccessToken.revokeAllUserTokens.
  assert (Hwhere : forall x,
            PersonalAccessToken.whereUserRows uid x = false
            <-> ~ (PersonalAccessToken.tokenable_id x = uid
                   /\ PersonalAccessToken.tokenable_type x
                      = PersonalAccessToken.USER_TYPE)).
  { intro x. unfold PersonalAccessToken.whereUserRows.
    rewrite andb_false_iff, Z.eqb_neq, String.eqb_neq.
    destruct (Z.eq_dec (PersonalAccessToken.tokenable_id x) uid);
      destruct (String.string_dec (PersonalAccessToken.tokenable_type x)
                                  PersonalAccessToken.USER_TYPE); tauto. }
  split; [|split; [|split]].
  - intro x. rewrite destroy_rows. now rewrite Hwhere.
  - apply destroy_count.
  - intro t. apply hasActiveSession_none_iff. intros x Hx Hid Hty.
    apply destroy_rows in Hx. destruct Hx as [_ Hx].
    apply Hwhere in Hx. tauto.
  - intros t other Hother.
    unfold PersonalAccessToken.hasActiveSession, PersonalAccessToken.findOne.
    cbn. induction (PersonalAccessToken.rows T) as [|x l IH]; [reflexivity|].
    cbn. destruct (PersonalAccessToken.whereUserRows uid x) eqn:Hw; cbn.
    + rewrite IH.
      replace (PersonalAccessToken.whereActiveSession t other x) with false;
        [reflexivity|].
      symmetry. unfold PersonalAccessToken.whereUserRows in Hw.
      apply andb_true_iff in Hw. destruct Hw as [Hid _].
      apply Z.eqb_eq in Hid. unfold PersonalAccessToken.whereActiveSession.
      replace (PersonalAccessToken.tokenable_id x =? other) with false;
        [reflexivity|].
      symmetry. apply Z.eqb_neq. congruence.
    + now rewrite IH.
Qed.

(** X21.  [revokeOtherTokens] without a current token id (or with the
    falsy id 0) is [revokeAllUserTokens]; with a current id it spares
    the row of that primary key and deletes the user's other user-token
    rows, leaving every row of other owners in place. *)
Theorem revokeOtherTokens_spares_the_current_row :
  PersonalAccessToken.revokeOtherTokens uid None T
  = PersonalAccessToken.revokeAllUserTokens uid T
  /\ PersonalAccessToken.revokeOtherTokens uid (Some 0) T
     = PersonalAccessToken.revokeAllUserTokens uid T
  /\ forall k,
       k <> 0 ->
       forall x,
         In x (PersonalAccessToken.rows
                 (snd (PersonalAccessToken.revokeOtherTokens uid (Some k) T)))
         <-> In x (PersonalAccessToken.rows T)
             /\ (PersonalAccessToken.id x = k
                 \/ ~ (PersonalAccessToken.tokenable_id x = uid
                       /\ PersonalAccessToken.tokenable_type x
                          = PersonalAccessToken.USER_TYPE)).
Proof.
  assert (Hall : forall o,
            (o = None \/ o = Some 0) ->
            PersonalAccessToken.revokeOtherTokens uid o T
            = PersonalAccessToken.revokeAllUserTokens uid T).
  { intros o Ho.
    unfold PersonalAccessToken.revokeOtherTokens,
      PersonalAccessToken.revokeAllUserTokens, PersonalAccessToken.destroy.
    destruct Ho as [-> | ->]; cbn;
      f_equal; [f_equal; f_equal | f_equal | f_equal; f_equal | f_equal];
      apply List.filter_ext; intro x; now rewrite andb_true_r. }
  split; [apply Hall; now left|]. split; [apply Hall; now right|].
  intros k Hk x. unfold PersonalAccessToken.revokeOtherTokens.
  rewrite destroy_rows.
  replace (k =? 0) with false by (symmetry; now apply Z.eqb_neq).
  unfold PersonalAccessToken.whereUserRows.
  rewrite andb_false_iff, negb_false_iff, andb_false_iff,
    Z.eqb_neq, String.eqb_neq, Z.eqb_eq.
  destruct (Z.eq_dec (PersonalAccessToken.tokenable_id x) uid);
    destruct (String.string_dec (PersonalAccessToken.tokenable_type x)
                                PersonalAccessToken.USER_TYPE); tauto.
Qed.

End Revocation.

(** X22.  With token strings unique in the table, a revoked token no
    longer authenticates, whether its row was revoked alone
    ([markAsRevoked]) or with all rows of its owner
    ([revokeAllUserTokens]): the request is answered 401, not found in
    the database, and writes nothing. *)
Theorem revoked_token_is_unknown :
  forall {B} (E : Env) (req : Request B) (db : DB)
         (r : PersonalAccessToken.t) (T' : PersonalAccessToken.table),
    List.NoDup (List.map PersonalAccessToken.token
                  (PersonalAccessToken.rows (tokens db))) ->
    In r (PersonalAccessToken.rows (tokens db)) ->
    PersonalAccessToken.token r <> EmptyString ->
    authorization req
    = Some ("Bearer " ++ PersonalAccessToken.token r)%string ->
    T' = PersonalAccessToken.markAsRevoked r (tokens db)
    \/ (PersonalAccessToken.tokenable_type r = PersonalAccessToken.USER_TYPE
        /\ T' = snd (PersonalAccessToken.revokeAllUserTokens
                       (PersonalAccessToken.tokenable_id r) (tokens db))) ->
    auth.authenticate E req {| users := users db; tokens := T' |}
    = ({| users := users db; tokens := T' |}, req,
       Respond
         (fail 401 "Token tidak ditemukan di database. Akses ditolak.")).
Proof.
  intros B E req db r T' Hnd Hin Hne Hh HT'.
  apply (authenticate_unknown_token
           E req {| users := users db; tokens := T' |}
           (PersonalAccessToken.token r) Hne Hh).
  cbn [tokens]. unfold PersonalAccessToken.findOne.
  apply find_none_iff. intros x Hx.
  unfold PersonalAccessToken.whereUserToken.
  destruct (String.eqb_spec (PersonalAccessToken.token x)
                            (PersonalAccessToken.token r)) as [Htok|];
    [|reflexivity].
  exfalso.
  assert (Hxin : In x (PersonalAccessToken.rows (tokens db))).
  { destruct HT' as [-> | [_ ->]]; cbn in Hx;
      apply List.filter_In in Hx; tauto. }
  pose proof (nodup_map_injective PersonalAccessToken.token _ x r
                Hnd Hxin Hin Htok) as ->.
  destruct HT' as [-> | [Hty ->]]; cbn in Hx;
    apply List.filter_In in Hx; destruct Hx as [_ Hx];
    apply negb_true_iff in Hx.
  - now rewrite Z.eqb_refl in Hx.
  - unfold PersonalAccessToken.whereUserRows in Hx.
    now rewrite Z.eqb_refl, Hty, String.eqb_refl in Hx.
Qed.

Lemma revoked_token_is_unknown_witness :
  snd (auth.authenticate
         (Sample.env 5000) (Sample.request (Some "Bearer c0ffee") tt)
         {| users := users Sample.threeSessions;
            tokens := snd (PersonalAccessToken.revokeAllUserTokens
                             1 (tokens Sample.threeSessions)) |})
  = Respond (fail 401 "Token tidak ditemukan di database. Akses ditolak.").
Proof.
  assert (Hnd : List.NoDup
                  (List.map PersonalAccessToken.token
                     (PersonalAccessToken.rows (tokens Sample.threeSessions)))).
  { repeat constructor; cbn; intuition discriminate. }
  assert (Hne : PersonalAccessToken.token
                  (Sample.session 1 1 "c0ffee" (Some 9000) 1000)
                <> EmptyString) by discriminate.
  rewrite (revoked_token_is_unknown
             (Sample.env 5000) (Sample.request (Some "Bearer c0ffee") tt)
             Sample.threeSessions
             (Sample.session 1 1 "c0ffee" (Some 9000) 1000)
             (snd (PersonalAccessToken.revokeAllUserTokens
                     1 (tokens Sample.threeSessions)))
             Hnd (or_introl eq_refl) Hne eq_refl
             (or_intror (conj eq_refl eq_refl))).
  reflexivity.
Defined.

(** ** The status and profile routes *)

Section StatusRoutes.

Context {B : Type}.
Variable E : Env.
Variable userIdOf : string -> option Z.
Variable req : Request B.
Variable db : DB.

Let INVALID := "Token tidak valid atau telah kedaluwarsa".

(** The two handlers on a [Bearer] header whose token [verifyToken]
    throws on. *)
Lemma jwt_handlers_on_opaque_token (req1 : Request B) (db1 : DB)
    (tok : string) :
  authorization req1 = Some ("Bearer " ++ tok)%string ->
  verifyToken E tok = None ->
  authController.checkAuthStatus E userIdOf req1 db1 = fail 401 INVALID
  /\ authController.getProfile E userIdOf req1 db1 = fail 401 INVALID.
Proof.
  intros Hh Hopaque.
  unfold authController.checkAuthStatus, authController.getProfile.
  rewrite Hh. cbv beta iota zeta.
  rewrite truthy_bearer, startsWith_bearer, !substring_bearer.
  cbn [negb orb]. cbv beta iota. now rewrite Hopaque.
Qed.

(** X23.  An opaque session token is of no use on [GET /status] and
    [GET /profile]: when [verifyToken] throws on the presented token, as
    it does on the hexadecimal strings [login] hands out, both routes
    answer 401, and where [authenticate] has let the request through it
    is the handler's own JWT check that refuses it. *)
Theorem opaque_token_fails_status_and_profile :
  (forall tok, authorization req = Some ("Bearer " ++ tok)%string ->
               verifyToken E tok = None) ->
  status (snd (authRoutes.getStatus E userIdOf req db)) = 401
  /\ status (snd (authRoutes.getProfile E userIdOf req db)) = 401
  /\ (snd (auth.authenticate E req db) = Next ->
      snd (authRoutes.getStatus E userIdOf req db) = fail 401 INVALID
      /\ snd (authRoutes.getProfile E userIdOf req db) = fail 401 INVALID).
Proof.
  intro Hopaque. unfold authRoutes.getStatus, authRoutes.getProfile.
  destruct (authenticate_cases E req db)
    as [[tok [r [u [_ [Hh [_ [_ [_ [_ [_ Hm]]]]]]]]]] | [db' [msg Hm]]];
    rewrite Hm; cbn [fst snd].
  - destruct (jwt_handlers_on_opaque_token
                (attach req u tok (PersonalAccessToken.touch (now E) r))
                {| users := users db;
                   tokens := snd (PersonalAccessToken.update_last_used
                                    (now E) r (tokens db)) |}
                tok Hh (Hopaque tok Hh)) as [-> ->].
    cbn. auto.
  - cbn. split; [reflexivity|]. split; [reflexivity|]. discriminate.
Qed.

End StatusRoutes.

Lemma opaque_token_fails_status_and_profile_witness :
  snd (authRoutes.getStatus
         (Sample.env 5000) (fun _ => Some 1)
         (Sample.request (Some "Bearer c0ffee") tt) Sample.aliceSession)
  = fail 401 "Token tidak valid atau telah kedaluwarsa".
Proof.
  refine (proj1 (proj2 (proj2
    (opaque_token_fails_status_and_profile
       (Sample.env 5000) (fun _ => Some 1)
       (Sample.request (Some "Bearer c0ffee") tt) Sample.aliceSession _))
    eq_refl)).
  intros tok _. reflexivity.
Defined.

(** ** The registration route *)

Lemma gate_passes_only_the_secret {B} (E : Env) (req : Request B) :
  auth.verifyRegistrationToken E req = Next ->
  exists key,
    key <> EmptyString
    /\ authorization req = Some ("Bearer " ++ key)%string
    /\ REGISTRATION_API_KEY E = Some key.
Proof.
  intro Hnext.
  assert (Hform :
    (exists key, key <> EmptyString
                 /\ authorization req = Some ("Bearer " ++ key)%string)
    \/ (forall key, key <> EmptyString ->
          authorization req <> Some ("Bearer " ++ key)%string)).
  { destruct (authorization req) as [h|]; [|right; intros; discriminate].
    destruct (startsWith h "Bearer ") eqn:Hp.
    - destruct (truthy (substring h 7)) eqn:Hk.
      + left. exists (substring h 7). split; [now apply truthy_true_iff|].
        f_equal. exact (startsWith_split "Bearer " h Hp).
      + right. intros tok Htok Heq.
        assert (Hh : h = ("Bearer " ++ tok)%string) by congruence.
        rewrite Hh, substring_bearer in Hk.
        apply truthy_false_iff in Hk. contradiction.
    - right. intros tok _ Heq.
      assert (Hh : h = ("Bearer " ++ tok)%string) by congruence.
      rewrite Hh, startsWith_bearer in Hp. discriminate. }
  destruct Hform as [[key [Hkey Hh]] | Hno].
  - exists key. split; [exact Hkey|]. split; [exact Hh|].
    rewrite (gate_on_bearer E req key Hkey Hh) in Hnext.
    destruct (REGISTRATION_API_KEY E) as [secret|]; [|discriminate].
    destruct (truthy secret); cbn in Hnext; [|discriminate].
    destruct (String.eqb_spec secret key); [congruence | discriminate].
  - destruct (gate_on_other_header E req Hno) as [msg Hm].
    rewrite Hm in Hnext. discriminate.
Qed.

(** X24.  The registration route is closed without the secret: whatever
    the validation middleware does, [POST /register] creates a user or
    answers 201 only on a request whose header is [Bearer <key>] with
    [key] the configured, non-empty registration secret; on every other
    request the database stays as it was. *)
Theorem postRegister_writes_only_with_the_secret :
  forall {fold : CaseFold} (E : Env)
         (validation : Request authController.RegisterBody -> Outcome)
         (req : Request authController.RegisterBody) (db : DB),
    fst (authRoutes.postRegister E validation req db) <> db
    \/ status (snd (authRoutes.postRegister E validation req db)) = 201 ->
    exists key,
      key <> EmptyString
      /\ authorization req = Some ("Bearer " ++ key)%string
      /\ REGISTRATION_API_KEY E = Some key.
Proof.
  intros fold E validation req db Hwrites.
  apply gate_passes_only_the_secret.
  unfold authRoutes.postRegister in Hwrites.
  destruct (auth.verifyRegistrationToken E req) as [|resp] eqn:Hgate;
    [reflexivity|].
  exfalso. cbn in Hwrites. destruct Hwrites as [H | H]; [now elim H|].
  unfold auth.verifyRegistrationToken in Hgate.
  destruct (authorization req) as [h|];
    [|injection Hgate as <-; discriminate].
  cbv beta iota zeta in Hgate.
  repeat match type of Hgate with
         | (if ?c then _ else _) = _ => destruct c
         | match ?o with Some _ => _ | None => _ end = _ => destruct o
         | match ?o with Ok _ => _ | Throw _ => _ end = _ => destruct o
         | match ?o with true => _ | false => _ end = _ => destruct o
         end;
    try (injection Hgate as <-; discriminate); discriminate.
Qed.

Lemma postRegister_writes_only_with_the_secret_witness :
  exists key,
    key <> EmptyString
    /\ authorization (Sample.request (Some "Bearer s3cret")
                                     Sample.registerCarol)
       = Some ("Bearer " ++ key)%string
    /\ REGISTRATION_API_KEY (Sample.env 500) = Some key.
Proof.
  apply (postRegister_writes_only_with_the_secret
           (Sample.env 500) (fun _ => Next)
           (Sample.request (Some "Bearer s3cret") Sample.registerCarol)
           (Sample.database [])).
  right. reflexivity.
Defined.

(** X25.  The length check in front of [timingSafeEqual] does its job:
    the comparison never throws, so [verifyRegistrationToken] never
    answers through its [catch] block, whatever the header and whatever
    the configured secret. *)
Theorem verifyRegistrationToken_never_reaches_catch :
  forall {B} (E : Env) (req : Request B),
    auth.verifyRegistrationToken E req
    <> Respond
         (fail 401 "Terjadi kesalahan saat verifikasi API key registrasi.").
Proof.
  intros B E req. unfold auth.verifyRegistrationToken.
  destruct (authorization req) as [h|]; [|discriminate].
  cbv beta iota zeta.
  destruct (negb (truthy h)); [discriminate|].
  destruct (negb (startsWith h "Bearer ")); [discriminate|].
  destruct (negb (truthy (substring h 7))); [discriminate|].
  destruct (REGISTRATION_API_KEY E) as [secret|]; [|discriminate].
  destruct (negb (truthy secret)); [discriminate|].
  unfold timingSafeEqual.
  destruct (Nat.eqb (List.length (bufferFrom secret))
                    (List.length (bufferFrom (substring h 7)))).
  - cbn [negb]. cbv iota.
    destruct (bytes_eqb (bufferFrom secret) (bufferFrom (substring h 7)));
      discriminate.
  - cbn [negb]. discriminate.
Qed.

(** ** Token strings *)

Lemma hexDigit_injective (n m : N) :
  (n < 16)%N -> (m < 16)%N -> hexDigit n = hexDigit m -> n = m.
Proof.
  intros Hn Hm H.
  pose (digits := [0; 1; 2; 3; 4; 5; 6; 7; 8; 9; 10; 11; 12; 13; 14; 15]%N).
  assert (Hn' : In n digits) by (cbn; lia).
  assert (Hm' : In m digits) by (cbn; lia).
  clear Hn Hm. cbn in Hn', Hm'.
  repeat (destruct Hn' as [Hn' | Hn']); try contradiction; subst n;
    repeat (destruct Hm' as [Hm' | Hm']); try contradiction; subst m;
    first [reflexivity | vm_compute in H; discriminate H].
Qed.

(** The hexadecimal form of a byte string determines it. *)
Lemma toHex_injective (bs1 bs2 : list byte) :
  toHex bs1 = toHex bs2 -> bs1 = bs2.
Proof.
  revert bs2. induction bs1 as [|b1 l1 IH]; destruct bs2 as [|b2 l2];
    cbn; intro H; try reflexivity; try discriminate.
  injection H as Hhi Hlo Hrest.
  f_equal; [|now apply IH].
  pose proof (Byte.to_N_bounded b1) as B1.
  pose proof (Byte.to_N_bounded b2) as B2.
  assert (Hhi' : (Byte.to_N b1 / 16 = Byte.to_N b2 / 16)%N).
  { apply hexDigit_injective; [| |exact Hhi];
      apply N.Div0.div_lt_upper_bound; lia. }
  assert (Hlo' : (Byte.to_N b1 mod 16 = Byte.to_N b2 mod 16)%N).
  { apply hexDigit_injective; [| |exact Hlo]; apply N.mod_lt; lia. }
  assert (Heq : Byte.to_N b1 = Byte.to_N b2).
  { rewrite (N.div_mod (Byte.to_N b1) 16), (N.div_mod (Byte.to_N b2) 16)
      by lia.
    now rewrite Hhi', Hlo'. }
  pose proof (Byte.of_to_N b1) as H1. pose proof (Byte.of_to_N b2) as H2.
  rewrite Heq in H1. congruence.
Qed.

(** X26.  Token strings are as distinct as the draws behind them: two
    successful calls of [createToken] whose 32 random bytes differ in at
    least one byte issue different token strings, whatever the users,
    labels, instants and tables. *)
Theorem distinct_draws_issue_distinct_tokens :
  forall {zone : Calendar} (t1 t2 : Date) (e1 e2 : nat -> byte) (u1 u2 : User.t)
         (l1 l2 : string) (T1 T2 T1' T2' : PersonalAccessToken.table)
         (r1 r2 : PersonalAccessToken.t),
    PersonalAccessToken.createToken t1 e1 u1 l1 T1 = Ok (r1, T1') ->
    PersonalAccessToken.createToken t2 e2 u2 l2 T2 = Ok (r2, T2') ->
    randomBytes e1 32 <> randomBytes e2 32 ->
    PersonalAccessToken.token r1 <> PersonalAccessToken.token r2.
Proof.
  intros zone t1 t2 e1 e2 u1 u2 l1 l2 T1 T2 T1' T2' r1 r2 H1 H2 Hdiff Heq.
  destruct (createToken_inv _ _ _ _ _ _ _ H1) as [_ [Ht1 _]].
  destruct (createToken_inv _ _ _ _ _ _ _ H2) as [_ [Ht2 _]].
  apply Hdiff, toHex_injective. congruence.
Qed.

Lemma distinct_draws_issue_distinct_tokens_witness :
  exists r1 r2 T1 T2,
    PersonalAccessToken.createToken
      1000 (fun _ => x2a%byte) Sample.alice "API Login"
      (tokens (Sample.database [])) = Ok (r1, T1)
    /\ PersonalAccessToken.createToken
         1000 (fun _ => x2b%byte) Sample.alice "API Login"
         (tokens (Sample.database [])) = Ok (r2, T2)
    /\ PersonalAccessToken.token r1 <> PersonalAccessToken.token r2.
Proof.
  destruct (PersonalAccessToken.createToken
              1000 (fun _ => x2a%byte) Sample.alice "API Login"
              (tokens (Sample.database []))) as [[r1 T1]|e] eqn:H1;
    [|vm_compute in H1; discriminate].
  destruct (PersonalAccessToken.createToken
              1000 (fun _ => x2b%byte) Sample.alice "API Login"
              (tokens (Sample.database []))) as [[r2 T2]|e] eqn:H2;
    [|vm_compute in H2; discriminate].
  exists r1, r2, T1, T2. split; [reflexivity|]. split; [reflexivity|].
  apply (distinct_draws_issue_distinct_tokens _ _ _ _ _ _ _ _ _ _ _ _ _ _ H1 H2).
  vm_compute. discriminate.
Defined.

(** ** Invariants of the token table *)

Lemma nodup_map_filter {A K} (f : A -> K) (p : A -> bool) (l : list A) :
  List.NoDup (List.map f l) -> List.NoDup (List.map f (List.filter p l)).
Proof.
  induction l as [|x l IH]; cbn; intro Hnd; [constructor|].
  inversion Hnd as [|? ? Hx Hl]; subst.
  destruct (p x); cbn; [constructor|]; auto.
  intro Hin. apply Hx. apply List.in_map_iff in Hin.
  destruct Hin as [y [Hy Hin]]. apply List.filter_In in Hin.
  rewrite <- Hy. apply List.in_map. tauto.
Qed.

Lemma filter_length_le {A} (p q : A -> bool) (l : list A) :
  (forall x, In x l -> p x = true -> q x = true) ->
  (List.length (List.filter p l) <= List.length (List.filter q l))%nat.
Proof.
  induction l as [|x l IH]; cbn; intro H; [lia|].
  assert (IH' := IH (fun y Hy => H y (or_intror Hy))).
  destruct (p x) eqn:Hp.
  - rewrite (H x (or_introl eq_refl) Hp). cbn. lia.
  - destruct (q x); cbn; lia.
Qed.

Lemma filter_filter_length_le {A} (p k : A -> bool) (l : list A) :
  (List.length (List.filter p (List.filter k l))
   <= List.length (List.filter p l))%nat.
Proof.
  induction l as [|x l IH]; cbn; [lia|].
  destruct (k x); cbn; destruct (p x); cbn; lia.
Qed.

Lemma filter_length_map {A} (p : A -> bool) (l l' : list A) :
  List.map p l' = List.map p l ->
  List.length (List.filter p l') = List.length (List.filter p l).
Proof.
  revert l'. induction l as [|x l IH]; destruct l' as [|x' l']; cbn;
    intro H; try reflexivity; try discriminate.
  injection H as Hx Hl. rewrite Hx. destruct (p x); cbn; auto.
Qed.

Lemma logout_database {B} (E : Env) (req : Request B) (db : DB) :
  fst (authController.logout E req db) = db
  \/ exists tok,
       fst (authController.logout E req db)
       = {| users := users db;
            tokens := PersonalAccessToken.destroy_token tok (tokens db) |}.
Proof.
  unfold authController.logout.
  destruct (token req) as [tok|]; [destruct (truthy tok)|];
    destruct (user req); cbn; eauto.
Qed.

(** What [login] does to the token table: nothing, or it appends the row
    of a fresh draw for a user for whom the session check found
    nothing. *)
Lemma login_token_table {fold : CaseFold} {zone : Calendar} (E : Env)
    (req : Request authController.LoginBody) (db : DB) :
  tokens (fst (authController.login E req db)) = tokens db
  \/ exists found r,
       PersonalAccessToken.hasActiveSession
         (now E) (User.id found) (tokens db) = None
       /\ (forall x, In x (PersonalAccessToken.rows (tokens db)) ->
                     PersonalAccessToken.token x <> PersonalAccessToken.token r)
       /\ PersonalAccessToken.id r = PersonalAccessToken.seq (tokens db)
       /\ PersonalAccessToken.tokenable_id r = User.id found
       /\ tokens (fst (authController.login E req db))
          = {| PersonalAccessToken.rows :=
                 (PersonalAccessToken.rows (tokens db) ++ [r])%list;
               PersonalAccessToken.seq :=
                 PersonalAccessToken.seq (tokens db) + 1 |}.
Proof.
  destruct (validationErrors req) as [|fe errs] eqn:Hvalid.
  2:{ left. unfold authController.login. now rewrite Hvalid. }
  destruct (User.findOne
              (fun u => (User.email u
                         =? toLowerCase (authController.l_email (body req)))%string)
              (users db)) as [found|] eqn:Hfound.
  2:{ left. unfold authController.login. rewrite Hvalid. cbv zeta.
      now rewrite Hfound. }
  destruct (User.isActive found) eqn:Hactive.
  2:{ left. now rewrite (login_of_deactivated_user
                           E req db found Hvalid Hfound Hactive). }
  rewrite (login_of_active_user E req db found Hvalid Hfound Hactive).
  destruct (PersonalAccessToken.hasActiveSession _ _ _) as [s|] eqn:Hs;
    [now left|].
  unfold PersonalAccessToken.createToken, PersonalAccessToken.create.
  destruct (List.existsb _ (PersonalAccessToken.rows (tokens db))) eqn:He;
    [now left|].
  right. exists found. eexists. split; [exact Hs|].
  split; [|split; [|split]]; [| | |reflexivity]; [|reflexivity|reflexivity].
  intros x Hx. rewrite existsb_false_iff in He. specialize (He x Hx).
  cbn in He |- *. now apply String.eqb_neq.
Qed.

Section TokenTableInvariants.

Context {B : Type} {fold : CaseFold} {zone : Calendar}.
Variable E : Env.
Variable loginReq : Request authController.LoginBody.
Variable req : Request B.
Variable db : DB.

(** The database after one of the operations on the token table. *)
Let reached (db' : DB) : Prop :=
  db' = fst (authController.login E loginReq db)
  \/ db' = fst (authController.logout E req db)
  \/ db' = fst (fst (auth.authenticate E req db))
  \/ db' = fst (fst (auth.optionalAuth E req db)).

(** The database after one of the operations that insert nothing. *)
Let reached_without_insert (db' : DB) : Prop :=
  db' = fst (authController.logout E req db)
  \/ db' = fst (fst (auth.authenticate E req db))
  \/ db' = fst (fst (auth.optionalAuth E req db)).

Let well_formed (T : PersonalAccessToken.table) : Prop :=
  List.NoDup (List.map PersonalAccessToken.id (PersonalAccessToken.rows T))
  /\ (forall x, In x (PersonalAccessToken.rows T) ->
                PersonalAccessToken.id x < PersonalAccessToken.seq T)
  /\ List.NoDup (List.map PersonalAccessToken.token
                   (PersonalAccessToken.rows T)).

(** Validation re-stamps one row or does nothing; logout deletes by token
    string or does nothing. *)
Lemma token_table_without_insert (db' : DB) :
  List.NoDup (List.map PersonalAccessToken.id
                (PersonalAccessToken.rows (tokens db))) ->
  reached_without_insert db' ->
  (* validation *)
  ((forall {K} (f : PersonalAccessToken.t -> K),
      (forall t x, f (PersonalAccessToken.touch t x) = f x) ->
      List.map f (PersonalAccessToken.rows (tokens db'))
      = List.map f (PersonalAccessToken.rows (tokens db)))
   /\ PersonalAccessToken.seq (tokens db')
      = PersonalAccessToken.seq (tokens db))
  (* logout *)
  \/ (exists tok,
        tokens db' = PersonalAccessToken.destroy_token tok (tokens db)).
Proof.
  intros Hpk Hreached.
  assert (Hsame : forall d, tokens d = tokens db ->
    (forall {K} (f : PersonalAccessToken.t -> K),
       (forall t x, f (PersonalAccessToken.touch t x) = f x) ->
       List.map f (PersonalAccessToken.rows (tokens d))
       = List.map f (PersonalAccessToken.rows (tokens db)))
    /\ PersonalAccessToken.seq (tokens d)
       = PersonalAccessToken.seq (tokens db)).
  { intros d ->. split; reflexivity. }
  assert (Hstamp : forall d r,
    In r (PersonalAccessToken.rows (tokens db)) ->
    d = {| users := users db;
           tokens := snd (PersonalAccessToken.update_last_used
                            (now E) r (tokens db)) |} ->
    (forall {K} (f : PersonalAccessToken.t -> K),
       (forall t x, f (PersonalAccessToken.touch t x) = f x) ->
       List.map f (PersonalAccessToken.rows (tokens d))
       = List.map f (PersonalAccessToken.rows (tokens db)))
    /\ PersonalAccessToken.seq (tokens d)
       = PersonalAccessToken.seq (tokens db)).
  { intros d r Hin ->. split; [|reflexivity]. intros K f Hf. cbn [tokens].
    now apply stamp_keeps_columns. }
  destruct Hreached as [Hd | [Hd | Hd]]; subst db'.
  - destruct (logout_database E req db) as [Hl | [tok Hl]].
    + left. apply Hsame. now rewrite Hl.
    + right. exists tok. now rewrite Hl.
  - left. destruct (authenticate_database E req db) as [Hl | [r [Hin Hr]]].
    + apply Hsame. now rewrite Hl.
    + now apply (Hstamp _ r).
  - left. destruct (optionalAuth_database E req db) as [Hl | [r [Hin Hr]]].
    + apply Hsame. now rewrite Hl.
    + now apply (Hstamp _ r).
Qed.

Lemma reached_token_table (db' : DB) :
  List.NoDup (List.map PersonalAccessToken.id
                (PersonalAccessToken.rows (tokens db))) ->
  reached db' ->
  (* validation *)
  ((forall {K} (f : PersonalAccessToken.t -> K),
      (forall t x, f (PersonalAccessToken.touch t x) = f x) ->
      List.map f (PersonalAccessToken.rows (tokens db'))
      = List.map f (PersonalAccessToken.rows (tokens db)))
   /\ PersonalAccessToken.seq (tokens db')
      = PersonalAccessToken.seq (tokens db))
  (* logout *)
  \/ (exists tok,
        tokens db' = PersonalAccessToken.destroy_token tok (tokens db))
  (* login *)
  \/ (exists found r,
        PersonalAccessToken.hasActiveSession
          (now E) (User.id found) (tokens db) = None
        /\ (forall x, In x (PersonalAccessToken.rows (tokens db)) ->
                      PersonalAccessToken.token x
                      <> PersonalAccessToken.token r)
        /\ PersonalAccessToken.id r = PersonalAccessToken.seq (tokens db)
        /\ PersonalAccessToken.tokenable_id r = User.id found
        /\ tokens db'
           = {| PersonalAccessToken.rows :=
                  (PersonalAccessToken.rows (tokens db) ++ [r])%list;
                PersonalAccessToken.seq :=
                  PersonalAccessToken.seq (tokens db) + 1 |}).
Proof.
  intros Hpk [Hd | Hquiet].
  - subst db'.
    destruct (login_token_table E loginReq db) as [Hsame | Hlogin];
      [left | right; right; exact Hlogin].
    rewrite Hsame. split; reflexivity.
  - destruct (token_table_without_insert db' Hpk Hquiet) as [Hv | Hl];
      [left; exact Hv | right; left; exact Hl].
Qed.

(** X27.  [login], [logout], [authenticate] and [optionalAuth] keep the
    token table well formed: primary keys stay unique and below the
    auto-increment counter, and token strings stay unique. *)
Theorem token_table_stays_well_formed :
  well_formed (tokens db) ->
  forall db', reached db' -> well_formed (tokens db').
Proof.
  intros [Hids [Hseq Htoks]] db' Hreached.
  destruct (reached_token_table db' Hids Hreached)
    as [[Hmap Hs] | [[tok ->] | [found [r [_ [Hfresh [Hid [_ ->]]]]]]]].
  - unfold well_formed. rewrite Hs.
    rewrite (Hmap _ PersonalAccessToken.id
               (touch_keeps PersonalAccessToken.id (fun _ _ => eq_refl))).
    rewrite (Hmap _ PersonalAccessToken.token
               (touch_keeps PersonalAccessToken.token
                  (fun _ _ => eq_refl))).
    split; [exact Hids|]. split; [|exact Htoks].
    intros x Hx.
    assert (Hin : In (PersonalAccessToken.id x)
                     (List.map PersonalAccessToken.id
                        (PersonalAccessToken.rows (tokens db)))).
    { rewrite <- (Hmap _ PersonalAccessToken.id
                    (touch_keeps PersonalAccessToken.id
                       (fun _ _ => eq_refl))).
      now apply List.in_map. }
    apply List.in_map_iff in Hin. destruct Hin as [y [Hy Hyin]].
    rewrite <- Hy. now apply Hseq.
  - unfold well_formed. cbn. split; [now apply nodup_map_filter|].
    split; [|now apply nodup_map_filter].
    intros x Hx. apply List.filter_In in Hx. apply Hseq. tauto.
  - unfold well_formed. cbn. rewrite !List.map_app. cbn.
    split; [|split].
    + apply nodup_snoc; [exact Hids|]. intro Hin.
      apply List.in_map_iff in Hin. destruct Hin as [y [Hy Hyin]].
      specialize (Hseq y Hyin). lia.
    + intros x Hx. apply List.in_app_or in Hx.
      destruct Hx as [Hx | [<- | []]]; [specialize (Hseq x Hx)|]; lia.
    + apply nodup_snoc; [exact Htoks|]. intro Hin.
      apply List.in_map_iff in Hin. destruct Hin as [y [Hy Hyin]].
      exact (Hfresh y Hyin Hy).
Qed.

(** The database after an operation that inserts nothing, or after an
    insert by [createToken] for a user for whom [hasActiveSession] finds
    nothing in the very table the insert runs on. *)
Let reached_after_check (db' : DB) : Prop :=
  reached_without_insert db'
  \/ exists (u : User.t) (label : string)
            (r : PersonalAccessToken.t) (T' : PersonalAccessToken.table),
       PersonalAccessToken.hasActiveSession
         (now E) (User.id u) (tokens db) = None
       /\ PersonalAccessToken.createToken
            (now E) (entropy E) u label (tokens db) = Ok (r, T')
       /\ db' = {| users := users db; tokens := T' |}.

(** X28.  What keeps the single-session invariant of the session check.
    If, at the instant of the operation, no user has more than one row
    that [hasActiveSession] can match, then no user has more than one such
    row, at that instant and at every later one, after [logout], after
    [authenticate], after [optionalAuth], and after a [createToken] for a
    user for whom [hasActiveSession] finds nothing in the table the insert
    runs on (primary keys being unique).  [login] asks [hasActiveSession]
    and calls [createToken] in two separate steps: it keeps the invariant
    where the table is the same at both. *)
Theorem single_session_invariant_is_kept :
  List.NoDup (List.map PersonalAccessToken.id
                (PersonalAccessToken.rows (tokens db))) ->
  (forall uid,
     (List.length
        (List.filter (PersonalAccessToken.whereActiveSession (now E) uid)
           (PersonalAccessToken.rows (tokens db))) <= 1)%nat) ->
  forall db' t uid,
    reached_after_check db' ->
    now E <= t ->
    (List.length
       (List.filter (PersonalAccessToken.whereActiveSession t uid)
          (PersonalAccessToken.rows (tokens db'))) <= 1)%nat.
Proof.
  intros Hpk Hone db' t uid Hreached Ht.
  assert (Hlater : forall l,
    (List.length
       (List.filter (PersonalAccessToken.whereActiveSession t uid) l)
     <= List.length
          (List.filter (PersonalAccessToken.whereActiveSession (now E) uid) l))%nat).
  { intro l. apply filter_length_le. intros x _.
    unfold PersonalAccessToken.whereActiveSession.
    destruct (PersonalAccessToken.expires_at x) as [e|];
      [|now rewrite andb_false_r].
    rewrite !andb_true_iff, !Z.ltb_lt. intros [H He]. split; [exact H | lia]. }
  destruct Hreached as [Hquiet | [u [label [r [T' [Hnone [Hissued ->]]]]]]].
  - destruct (token_table_without_insert db' Hpk Hquiet)
      as [[Hmap _] | [tok ->]].
    + rewrite (filter_length_map _ _ _
                 (Hmap _ (PersonalAccessToken.whereActiveSession t uid)
                       (touch_keeps
                          (PersonalAccessToken.whereActiveSession t uid)
                          (fun _ _ => eq_refl)))).
      specialize (Hlater (PersonalAccessToken.rows (tokens db))).
      specialize (Hone uid). lia.
    + cbn.
      assert (Hsub :
        (List.length
           (List.filter (PersonalAccessToken.whereActiveSession t uid)
              (List.filter
                 (fun r => negb (PersonalAccessToken.token r =? tok)%string)
                 (PersonalAccessToken.rows (tokens db))))
         <= List.length
              (List.filter (PersonalAccessToken.whereActiveSession t uid)
                 (PersonalAccessToken.rows (tokens db))))%nat).
      { apply filter_filter_length_le. }
      specialize (Hlater (PersonalAccessToken.rows (tokens db))).
      specialize (Hone uid). lia.
  - destruct (createToken_inv _ _ _ _ _ _ _ Hissued)
      as [_ [_ [_ [Hown [_ Hrows]]]]].
    cbn [tokens]. rewrite Hrows, List.filter_app, List.length_app. cbn.
    destruct (Z.eq_dec uid (User.id u)) as [-> | Hother].
    + rewrite (no_session_rows E db u Hnone t Ht). cbn.
      destruct (PersonalAccessToken.whereActiveSession t (User.id u) r);
        cbn; lia.
    + replace (PersonalAccessToken.whereActiveSession t uid r) with false.
      * cbn. specialize (Hlater (PersonalAccessToken.rows (tokens db))).
        specialize (Hone uid). lia.
      * symmetry. unfold PersonalAccessToken.whereActiveSession.
        rewrite Hown.
        replace (User.id u =? uid) with false; [reflexivity|].
        symmetry. apply Z.eqb_neq. congruence.
Qed.

End TokenTableInvariants.

Lemma token_table_stays_well_formed_witness :
  List.NoDup
    (List.map PersonalAccessToken.token
       (PersonalAccessToken.rows
          (tokens (fst (authController.login
                          (Sample.env 9500)
                          (Sample.request None Sample.loginAlice)
                          Sample.aliceSession))))).
Proof.
  refine (proj2 (proj2
    (token_table_stays_well_formed
       (fold := Sample.asciiFold) (zone := Sample.fixedOffset)
       (Sample.env 9500) (Sample.request None Sample.loginAlice)
       (Sample.request None tt) Sample.aliceSession _ _
       (or_introl eq_refl)))).
  split; [|split].
  - repeat constructor. intros [].
  - intros x [<-|[]]. reflexivity.
  - repeat constructor. intros [].
Defined.

Lemma single_session_invariant_is_kept_witness :
  exists r T',
    PersonalAccessToken.createToken
      5000 (entropy (Sample.env 5000)) Sample.alice "API Login"
      (tokens Sample.bobSession) = Ok (r, T')
    /\ forall uid,
         Nat.le
           (List.length
              (List.filter (PersonalAccessToken.whereActiveSession 6000 uid)
                 (PersonalAccessToken.rows T')))
           1%nat.
Proof.
  destruct (PersonalAccessToken.createToken
              5000 (entropy (Sample.env 5000)) Sample.alice "API Login"
              (tokens Sample.bobSession)) as [[r T']|e] eqn:Hc;
    [|vm_compute in Hc; discriminate].
  exists r, T'. split; [reflexivity|]. intro uid.
  apply (single_session_invariant_is_kept
           (zone := Sample.fixedOffset)
           (Sample.env 5000) (Sample.request None tt) Sample.bobSession)
    with (db' := {| users := users Sample.bobSession; tokens := T' |}).
  - repeat constructor. intros [].
  - intro uid'. cbn.
    destruct (PersonalAccessToken.whereActiveSession 5000 uid' _); cbn; lia.
  - right. exists Sample.alice, "API Login"%string, r, T'.
    split; [reflexivity|]. split; [exact Hc | reflexivity].
  - cbn. lia.
Defined.

(** X29.  [GET /status] answers 200 only on the JWT path: the presented
    token must be stored, [verifyToken] must decode it as an access token
    whose [id] is the owner of the stored row, and the profile in the
    answer is that of the active user the payload's [userId] names. *)
Theorem getStatus_answers_200_only_for_verified_jwt :
  forall {B} (E : Env) (userIdOf : string -> option Z)
         (req : Request B) (db : DB),
    status (snd (authRoutes.getStatus E userIdOf req db)) = 200 ->
    exists tok r owner d pk u,
      authorization req = Some ("Bearer " ++ tok)%string
      /\ PersonalAccessToken.findOne
           (PersonalAccessToken.whereUserToken tok) (tokens db) = Some r
      /\ User.findByPk (PersonalAccessToken.tokenable_id r) (users db)
         = Some owner
      /\ verifyToken E tok = Some d
      /\ Jwt.type d = Some "access"
      /\ Jwt.id d = Some (User.id owner)
      /\ userIdOf tok = Some pk
      /\ User.findByPk pk (users db) = Some u
      /\ User.isActive u = true
      /\ data (snd (authRoutes.getStatus E userIdOf req db))
         = Some (UserData (User.getProfile u)).
Proof.
  intros B E userIdOf req db H200. unfold authRoutes.getStatus in *.
  destruct (authenticate_cases E req db)
    as [[tok [r [owner [_ [Hh [Hr [Hu [_ [Hj [_ Hm]]]]]]]]]] | [db' [msg Hm]]];
    rewrite Hm in *; cbn [fst snd] in *; [|discriminate].
  unfold authController.checkAuthStatus in *.
  cbn [authorization attach] in *. rewrite Hh in *.
  cbv beta iota zeta in *.
  rewrite truthy_bearer, startsWith_bearer, !substring_bearer in *.
  cbn [negb orb] in *. cbv beta iota in *.
  apply jwtVerdict_none_iff in Hj.
  destruct (verifyToken E tok) as [d|] eqn:Hd; [|discriminate].
  destruct Hj as [Hnone | [d' [Hd' [Hty Hid]]]]; [discriminate|].
  injection Hd' as <-.
  destruct (userIdOf tok) as [pk|] eqn:Hpk; [|discriminate].
  cbn [users] in *.
  destruct (User.findByPk pk (users db)) as [u|] eqn:Hfu; [|discriminate].
  destruct (User.isActive u) eqn:Ha; cbn [negb] in *; [|discriminate].
  exists tok, r, owner, d, pk, u. auto 12.
Qed.

Lemma getStatus_answers_200_only_for_verified_jwt_witness :
  exists tok d,
    authorization (Sample.request (Some "Bearer access.jwt") tt)
    = Some ("Bearer " ++ tok)%string
    /\ verifyToken (Sample.envAccessJwt 5000) tok = Some d
    /\ Jwt.type d = Some "access".
Proof.
  destruct (getStatus_answers_200_only_for_verified_jwt
              (Sample.envAccessJwt 5000) (fun _ => Some 1)
              (Sample.request (Some "Bearer access.jwt") tt)
              Sample.aliceAccessRow eq_refl)
    as [tok [r [owner [d [pk [u [Hh [_ [_ [Hd [Hty _]]]]]]]]]]].
  exists tok, d. auto.
Defined.
